(** * Mamba2 mixer: a shallow embedding of [modeling_mamba2.py]

    The tensors of the PyTorch code are modelled as a shape together with
    an element function over multi-indices; scalars are real numbers, so
    every dtype cast ([.float()], [.to(dtype)]) is the identity.  Every
    PyTorch operation that can fail on a shape mismatch returns a [result],
    and the cache object, which the code mutates in place, is threaded
    through explicitly so that a write performed before an exception is
    still visible afterwards. *)

From Stdlib Require Import Reals Lra Lia ZArith List String Bool.
From stdpp Require Import base option list gmap.
Import ListNotations.

Set Default Proof Using "Type".

(** ** Exceptions and results *)

Inductive exn : Type :=
  | ValueError (msg : string)
  | RuntimeError
  | KeyError
  | IndexError
  | TypeError
  | UnboundLocalError
  | ExternalError.

Inductive result (A : Type) : Type :=
  | Ok (a : A)
  | Raise (e : exn).
Arguments Ok {A} a.
Arguments Raise {A} e.

#[global] Instance result_ret : MRet result := fun A a => Ok a.
#[global] Instance result_bind : MBind result := fun A B k m =>
  match m with
  | Ok a => k a
  | Raise e => Raise e
  end.

(** [x is not None] *)
Definition is_Some_b {A : Type} (x : option A) : bool :=
  match x with Some _ => true | None => false end.

Definition is_ok {A : Type} (r : result A) : bool :=
  match r with Ok _ => true | Raise _ => false end.

(** ** Tensors *)

Record tensor : Type := mkT { shape : list nat; elt : list nat -> R }.

Definition rank (t : tensor) : nat := length (shape t).

Definition numel (s : list nat) : nat := fold_right Nat.mul 1 s.

(** Row-major offset of a multi-index and its inverse. *)
Fixpoint ravel (s idx : list nat) : nat :=
  match s, idx with
  | _ :: s', i :: idx' => i * numel s' + ravel s' idx'
  | _, _ => 0
  end.

Fixpoint unravel (s : list nat) (k : nat) : list nat :=
  match s with
  | [] => []
  | _ :: s' => k / numel s' :: unravel s' (k mod numel s')
  end.

Fixpoint in_range (s idx : list nat) : bool :=
  match s, idx with
  | [], [] => true
  | d :: s', i :: idx' => (i <? d) && in_range s' idx'
  | _, _ => false
  end.

(** Component [d] of a multi-index. *)
Definition ix (idx : list nat) (d : nat) : nat := nth d idx 0.

Definition zeros (s : list nat) : tensor := mkT s (fun _ => 0%R).

Definition tmap (f : R -> R) (t : tensor) : tensor :=
  mkT (shape t) (fun idx => f (elt t idx)).

(** Finite sum [f 0 + ... + f (n-1)]. *)
Definition rsum (n : nat) (f : nat -> R) : R :=
  fold_right (fun k acc => (f k + acc)%R) 0%R (seq 0 n).

(** ** Broadcasting *)

Fixpoint bshape_rev (r1 r2 : list nat) : option (list nat) :=
  match r1, r2 with
  | [], r => Some r
  | r, [] => Some r
  | a :: r1', b :: r2' =>
      match bshape_rev r1' r2' with
      | None => None
      | Some r =>
          if a =? b then Some (a :: r)
          else if a =? 1 then Some (b :: r)
          else if b =? 1 then Some (a :: r)
          else None
      end
  end.

(** The broadcast of two shapes, aligned on the right. *)
Definition bshape (s1 s2 : list nat) : option (list nat) :=
  match bshape_rev (rev s1) (rev s2) with
  | Some r => Some (rev r)
  | None => None
  end.

Fixpoint bidx_aligned (s idx : list nat) : list nat :=
  match s, idx with
  | d :: s', i :: idx' => (if d =? 1 then 0 else i) :: bidx_aligned s' idx'
  | _, _ => []
  end.

(** The index into a tensor of shape [s] that a broadcast index reads. *)
Definition bidx (s idx : list nat) : list nat :=
  bidx_aligned s (skipn (length idx - length s) idx).

Definition bget (t : tensor) (idx : list nat) : R :=
  elt t (bidx (shape t) idx).

Definition map2 (f : R -> R -> R) (a b : tensor) : result tensor :=
  match bshape (shape a) (shape b) with
  | Some s => Ok (mkT s (fun idx => f (bget a idx) (bget b idx)))
  | None => Raise RuntimeError
  end.

Definition tmul := map2 Rmult.
Definition tadd := map2 Rplus.

Definition shape_eqb (s1 s2 : list nat) : bool :=
  bool_decide (s1 = s2).

(** In-place operations ([copy_], [+=]) keep the destination's shape: the
    source must broadcast to exactly that shape. *)
Definition broadcasts_to (src dst : list nat) : bool :=
  match bshape dst src with
  | Some s => shape_eqb s dst
  | None => false
  end.

Definition copy_ (dst src : tensor) : result tensor :=
  if broadcasts_to (shape src) (shape dst)
  then Ok (mkT (shape dst) (fun idx => bget src idx))
  else Raise RuntimeError.

Definition iadd (dst src : tensor) : result tensor :=
  if broadcasts_to (shape src) (shape dst)
  then Ok (mkT (shape dst) (fun idx => (elt dst idx + bget src idx)%R))
  else Raise RuntimeError.

(** ** Views, slices and reshapes *)

Definition last_dim (s : list nat) : option nat := last s.

Definition set_last (idx : list nat) (i : nat) : list nat :=
  removelast idx ++ [i].

Definition get_last (idx : list nat) : nat := List.last idx 0.

Definition prodZ (l : list Z) : Z := fold_right Z.mul 1%Z l.

(** [Tensor.reshape] with at most one [-1] among the requested sizes. *)
Definition infer_shape (dims : list Z) (n : nat) : result (list nat) :=
  if existsb (fun d => (d <? -1)%Z) dims then Raise RuntimeError else
  match List.filter (fun d => (d =? -1)%Z) dims with
  | [] =>
      if (prodZ dims =? Z.of_nat n)%Z then Ok (List.map Z.to_nat dims)
      else Raise RuntimeError
  | [_] =>
      let p := prodZ (List.filter (fun d => negb (d =? -1)%Z) dims) in
      if (p =? 0)%Z then Raise RuntimeError
      else if (Z.of_nat n mod p =? 0)%Z
      then Ok (List.map (fun d => if (d =? -1)%Z then Z.to_nat (Z.of_nat n / p)
                                  else Z.to_nat d) dims)
      else Raise RuntimeError
  | _ => Raise RuntimeError
  end.

Definition reshape (dims : list Z) (t : tensor) : result tensor :=
  s ← infer_shape dims (numel (shape t));
  Ok (mkT s (fun idx => elt t (unravel (shape t) (ravel s idx)))).

(** [t.transpose(1, 2)] *)
Definition swap12 {A : Type} (l : list A) : list A :=
  match l with
  | a :: b :: c :: r => a :: c :: b :: r
  | _ => l
  end.

Definition transpose12 (t : tensor) : result tensor :=
  if 3 <=? rank t
  then Ok (mkT (swap12 (shape t)) (fun idx => elt t (swap12 idx)))
  else Raise IndexError.

(** Integer indexing of one dimension: [t[:, i]] is [select 1 i t]. *)
Definition select (d i : nat) (t : tensor) : result tensor :=
  match shape t !! d with
  | Some n =>
      if i <? n
      then Ok (mkT (delete d (shape t))
                   (fun idx => elt t (take d idx ++ i :: drop d idx)))
      else Raise IndexError
  | None => Raise IndexError
  end.

(** Indexing with [None] at position [d] (also [unsqueeze]). *)
Definition insert_dim (d : nat) (t : tensor) : result tensor :=
  if d <=? rank t
  then Ok (mkT (take d (shape t) ++ 1 :: drop d (shape t))
               (fun idx => elt t (delete d idx)))
  else Raise IndexError.

Definition unsqueeze_last (t : tensor) : tensor :=
  mkT (shape t ++ [1]) (fun idx => elt t (removelast idx)).

(** The Python slice [start:] on a dimension of size [n]. *)
Definition slice_start (start : Z) (n : nat) : nat :=
  if (start <? 0)%Z then Z.to_nat (Z.max 0 (Z.of_nat n + start))
  else Nat.min (Z.to_nat start) n.

(** [t[:, start:, :]] *)
Definition slice1_from (start : Z) (t : tensor) : result tensor :=
  match shape t with
  | b :: n :: c :: r =>
      let s := slice_start start n in
      Ok (mkT (b :: (n - s) :: c :: r)
              (fun idx => elt t (alter (fun i => i + s) 1 idx)))
  | _ => Raise IndexError
  end.

(** [torch.split(t, sizes, dim=-1)] *)
Fixpoint split_offsets (off : nat) (sizes : list nat) : list (nat * nat) :=
  match sizes with
  | [] => []
  | n :: rest => (off, n) :: split_offsets (off + n) rest
  end.

Definition split_last (sizes : list Z) (t : tensor) : result (list tensor) :=
  match last_dim (shape t) with
  | None => Raise IndexError
  | Some n =>
      if existsb (fun d => (d <? 0)%Z) sizes then Raise RuntimeError
      else if (fold_right Z.add 0%Z sizes =? Z.of_nat n)%Z
      then Ok (List.map
                 (fun '(off, k) =>
                    mkT (removelast (shape t) ++ [k])
                        (fun idx => elt t (set_last idx (get_last idx + off))))
                 (split_offsets 0 (List.map Z.to_nat sizes)))
      else Raise RuntimeError
  end.

(** [torch.sum(t, dim=-1)] *)
Definition sum_last (t : tensor) : result tensor :=
  match last_dim (shape t) with
  | None => Raise IndexError
  | Some n =>
      Ok (mkT (removelast (shape t))
              (fun idx => rsum n (fun k => elt t (idx ++ [k]))))
  end.

(** [t.mean(-1, keepdim=True)]; a scalar tensor is its own mean. *)
Definition mean_last_keepdim (t : tensor) : result tensor :=
  match last_dim (shape t) with
  | None => Ok t
  | Some n =>
      Ok (mkT (removelast (shape t) ++ [1])
              (fun idx => (rsum n (fun k => elt t (set_last idx k)) / INR n)%R))
  end.

(** [torch.roll(t, shifts=-1, dims=-1)] *)
Definition roll_left_last (t : tensor) : result tensor :=
  match last_dim (shape t) with
  | None => Raise IndexError
  | Some n =>
      Ok (mkT (shape t)
              (fun idx => elt t (set_last idx ((get_last idx + 1) mod n))))
  end.

(** [nn.functional.pad(t, (p, 0))]: [p] zeros on the left of the last
    dimension; a negative [p] crops from the left. *)
Definition pad_left_last (p : Z) (t : tensor) : result tensor :=
  match last_dim (shape t) with
  | None => Raise RuntimeError
  | Some n =>
      if (Z.of_nat n + p <? 0)%Z then Raise RuntimeError
      else Ok (mkT (removelast (shape t) ++ [Z.to_nat (Z.of_nat n + p)])
                   (fun idx =>
                      let src := (Z.of_nat (get_last idx) - p)%Z in
                      if ((0 <=? src) && (src <? Z.of_nat n))%Z
                      then elt t (set_last idx (Z.to_nat src))
                      else 0%R))
  end.

(** Subscripts.  [nidx] is the number of positions written in the subscript
    (a tensor of smaller rank raises [IndexError]). *)
Definition select_in (nidx d i : nat) (t : tensor) : result tensor :=
  if nidx <=? rank t then select d i t else Raise IndexError.

Definition index_none (nslices d : nat) (t : tensor) : result tensor :=
  if nslices <=? rank t then insert_dim d t else Raise IndexError.

(** [dst[:, :, -1] = v].  The assigned value is viewed without its leading
    dimensions of size one and then expanded to the shape of the selected
    slice, as PyTorch's [setitem] does. *)
Fixpoint strip_leading_ones (s : list nat) : list nat :=
  match s with
  | 1 :: s' => strip_leading_ones s'
  | _ => s
  end.

Definition setitem_last2 (dst v : tensor) : result tensor :=
  match shape dst with
  | b :: c :: k :: r =>
      if k =? 0 then Raise IndexError else
      let view := b :: c :: r in
      let sv := strip_leading_ones (shape v) in
      if broadcasts_to sv view
      then Ok (mkT (shape dst)
                 (fun idx =>
                    if ix idx 2 =? k - 1
                    then elt v (replicate (rank v - length sv) 0
                                  ++ bidx sv (delete 2 idx))
                    else elt dst idx))
      else Raise RuntimeError
  | _ => Raise IndexError
  end.

(** [torch.matmul] on operands of rank at least two (batched matrix
    product with broadcast batch dimensions).  Operands of rank below two
    do not arise at the call site; the model rejects them. *)
Definition matmul (a b : tensor) : result tensor :=
  match rev (shape a), rev (shape b) with
  | k1 :: m :: ba, p :: k2 :: bb =>
      if k1 =? k2 then
        match bshape (rev ba) (rev bb) with
        | Some bs =>
            Ok (mkT (bs ++ [m; p])
                  (fun idx =>
                     let bi := take (length bs) idx in
                     let i := ix idx (length bs) in
                     let j := ix idx (S (length bs)) in
                     rsum k1 (fun q =>
                       (elt a (bidx (rev ba) bi ++ [i; q])
                        * elt b (bidx (rev bb) bi ++ [q; j]))%R)))
        | None => Raise RuntimeError
        end
      else Raise RuntimeError
  | _, _ => Raise RuntimeError
  end.

(** [torch.stack(ts, dim=1)] *)
Definition stack1 (ts : list tensor) : result tensor :=
  match ts with
  | [] => Raise RuntimeError
  | t0 :: _ =>
      if forallb (fun t => shape_eqb (shape t) (shape t0)) ts then
        if 1 <=? rank t0 then
          Ok (mkT (take 1 (shape t0) ++ length ts :: drop 1 (shape t0))
                (fun idx => elt (nth (ix idx 1) ts (zeros [])) (delete 1 idx)))
        else Raise IndexError
      else Raise RuntimeError
  end.

(** [torch.cat([a, b], dim=-1)] *)
Definition cat_last (a b : tensor) : result tensor :=
  match last_dim (shape a), last_dim (shape b) with
  | Some na, Some nb =>
      if shape_eqb (removelast (shape a)) (removelast (shape b))
      then Ok (mkT (removelast (shape a) ++ [na + nb])
                 (fun idx =>
                    if get_last idx <? na then elt a idx
                    else elt b (set_last idx (get_last idx - na))))
      else Raise RuntimeError
  | _, _ => Raise RuntimeError
  end.

(** ** Layers from [torch.nn] *)

Record Linear : Type := mkLinear {
  lin_weight : tensor;            (* [out_features, in_features] *)
  lin_bias : option tensor        (* [out_features] *)
}.

Definition Linear_forward (l : Linear) (x : tensor) : result tensor :=
  match shape (lin_weight l), last_dim (shape x) with
  | [o; i], Some n =>
      if n =? i then
        let y := mkT (removelast (shape x) ++ [o])
                   (fun idx => rsum i (fun k =>
                      (elt x (set_last idx k)
                       * elt (lin_weight l) [get_last idx; k])%R)) in
        match lin_bias l with
        | Some b => tadd y b
        | None => Ok y
        end
      else Raise RuntimeError
  | _, _ => Raise RuntimeError
  end.

Record Conv1d : Type := mkConv1d {
  conv_weight : tensor;           (* [channels, 1, kernel_size] *)
  conv_bias : option tensor;      (* [channels] *)
  conv_padding : nat
}.

(** Depthwise [nn.Conv1d] ([groups] equal to the number of channels) on a
    batched input [batch, channels, length], zero padded on both sides.
    The mixer only calls it on a transposed rank-three tensor.  An input
    without elements is accepted only when its batch or its channels are
    empty. *)
Definition Conv1d_forward (cv : Conv1d) (x : tensor) : result tensor :=
  match shape (conv_weight cv), shape x with
  | [c; 1; k], [b; c'; l] =>
      if negb (c' =? c) then Raise RuntimeError
      else if l + 2 * conv_padding cv <? k then Raise RuntimeError
      else if (l =? 0) && negb (b =? 0) && negb (c =? 0)
      then Raise RuntimeError
      else
        let pad := conv_padding cv in
        let y := mkT [b; c; l + 2 * pad - (k - 1)]
                   (fun idx =>
                      let bi := ix idx 0 in
                      let ci := ix idx 1 in
                      let j := ix idx 2 in
                      rsum k (fun q =>
                        let xq := if (pad <=? j + q) && (j + q <? pad + l)
                                  then elt x [bi; ci; j + q - pad]
                                  else 0%R in
                        (elt (conv_weight cv) [ci; 0%nat; q] * xq)%R)) in
        match conv_bias cv with
        | Some bs =>
            match shape bs with
            | [cb] => if cb =? c
                      then Ok (mkT (shape y) (fun idx =>
                                 (elt y idx + elt bs [ix idx 1])%R))
                      else Raise RuntimeError
            | _ => Raise RuntimeError
            end
        | None => Ok y
        end
  | _, _ => Raise RuntimeError
  end.

(** ** Pointwise functions *)

Definition silu (x : R) : R := (x / (1 + exp (- x)))%R.

(** [nn.functional.softplus] with its default [beta = 1] and
    [threshold = 20]. *)
Definition softplus (x : R) : R :=
  if Rlt_dec 20 x then x else ln (1 + exp x).

(** [torch.rsqrt] on real numbers.  At zero torch gives infinity, which
    the reals do not have: statements about a normalization take a
    positive epsilon. *)
Definition rsqrt (x : R) : R := (/ sqrt x)%R.

(** ** Configuration and cache *)

(** The fields of [Mamba2Config] that the modelling code reads. *)
Record Mamba2Config : Type := mkConfig {
  config_num_heads : nat;
  config_hidden_size : nat;
  config_state_size : nat;
  config_conv_kernel : nat;
  config_intermediate_size : nat;
  config_n_groups : nat;
  config_head_dim : nat;
  config_num_hidden_layers : nat;
  config_use_cache : bool;
  config_output_hidden_states : bool;
  config_use_return_dict : bool
}.

(** [Mamba2Cache]: per-layer tensors keyed by the layer index, and the
    number of time steps already processed. *)
Record Mamba2Cache : Type := mkCache {
  seqlen_offset : Z;
  conv_states : gmap nat tensor;
  ssm_states : gmap nat tensor
}.

Definition layer_dict (n : nat) (t : tensor) : gmap nat tensor :=
  list_to_map (List.map (fun i => (i, t)) (seq 0 n)).

(** [Mamba2Cache.__init__] *)
Definition Mamba2Cache_init (config : Mamba2Config) (batch_size : nat)
  : Mamba2Cache :=
  let conv_kernel_size := config_conv_kernel config in
  {| seqlen_offset := 0;
     conv_states :=
       layer_dict (config_num_hidden_layers config)
         (zeros [batch_size;
                 config_intermediate_size config
                 + 2 * config_n_groups config * config_state_size config;
                 conv_kernel_size]);
     ssm_states :=
       layer_dict (config_num_hidden_layers config)
         (zeros [batch_size;
                 config_n_groups config * config_state_size config;
                 config_head_dim config]) |}.

Definition set_conv_state (c : Mamba2Cache) (i : nat) (t : tensor)
  : Mamba2Cache :=
  mkCache (seqlen_offset c) (<[i := t]> (conv_states c)) (ssm_states c).

Definition set_ssm_state (c : Mamba2Cache) (i : nat) (t : tensor)
  : Mamba2Cache :=
  mkCache (seqlen_offset c) (conv_states c) (<[i := t]> (ssm_states c)).

(** The shapes held by a cache, layer by layer. *)
Definition cache_shapes (c : Mamba2Cache)
  : gmap nat (list nat) * gmap nat (list nat) :=
  (shape <$> conv_states c, shape <$> ssm_states c).

(** ** Gated RMS normalization *)

Record MambaRMSNormGated : Type := mkNormGated {
  norm_weight : tensor;
  variance_epsilon : R;
  norm_before_gate : bool
}.

(** [h * rsqrt(h.pow(2).mean(-1, keepdim=True) + eps)] *)
Definition rms_normalize (eps : R) (hidden_states : tensor) : result tensor :=
  variance ← mean_last_keepdim (tmap (fun x => (x * x)%R) hidden_states);
  tmul hidden_states (tmap (fun v => rsqrt (v + eps)) variance).

(** [MambaRMSNormGated.forward] *)
Definition MambaRMSNormGated_forward (self : MambaRMSNormGated)
    (hidden_states : tensor) (gate : option tensor) : result tensor :=
  hidden_states ← rms_normalize (variance_epsilon self) hidden_states;
  hidden_states ←
    match gate with
    | Some gate =>
        if norm_before_gate self
        then tmul hidden_states (tmap silu gate)
        else
          hidden_states ← tmul hidden_states (tmap silu gate);
          rms_normalize (variance_epsilon self) hidden_states
    | None => Ok hidden_states
    end;
  tmul (norm_weight self) hidden_states.

(** ** The mixer *)

Record Mamba2Mixer : Type := mkMixer {
  num_heads : nat;
  hidden_size : nat;
  ssm_state_size : nat;
  conv_kernel_size : nat;
  intermediate_size : nat;
  layer_idx : nat;
  use_conv_bias : bool;
  activation : string;
  act : R -> R;
  n_groups : nat;
  state_size : nat;
  head_dim : nat;
  chunk_size : nat;
  conv1d : Conv1d;
  in_proj : Linear;
  dt_bias : tensor;
  A_log : tensor;
  norm : MambaRMSNormGated;
  D : tensor;
  out_proj : Linear;
  training : bool
}.

(** [str(n)] *)
Fixpoint str_of_nat_from (fuel n : nat) (acc : string) : string :=
  match fuel with
  | O => acc
  | S fuel' =>
      let acc' := String (Ascii.ascii_of_nat (48 + n mod 10)) acc in
      if n <? 10 then acc' else str_of_nat_from fuel' (n / 10) acc'
  end.

Definition str_of_nat (n : nat) : string :=
  str_of_nat_from (S n) n EmptyString.

(** The messages of a failed unpacking into three names. *)
Definition unpack_few (got : nat) : string :=
  String.append "not enough values to unpack (expected 3, got "
    (String.append (str_of_nat got) ")").
Definition unpack_many : string := "too many values to unpack (expected 3)".

(** The result of lines 270-280 of [slow_forward]: the unpacked sizes and
    the five segments of the input projection. *)
Record Projected : Type := mkProjected {
  p_batch_size : nat;
  p_seq_len : nat;
  p_d_mlp : Z;
  p_z0 : tensor;
  p_x0 : tensor;
  p_gate : tensor;
  p_hidden_states : tensor;
  p_dt : tensor
}.

Definition project_and_split (self : Mamba2Mixer) (input_states : tensor)
  : result Projected :=
  match shape input_states with
  | [batch_size; seq_len; _] =>
      projected_states ← Linear_forward (in_proj self) input_states;
      let d_mlp :=
        ((Z.of_nat (get_last (shape projected_states))
          - 2 * Z.of_nat (ssm_state_size self)
          - 2 * Z.of_nat (n_groups self) * Z.of_nat (state_size self)
          - Z.of_nat (num_heads self)) / 2)%Z in
      let d_mlp := if negb (seq_len =? 1) then 0%Z else d_mlp in
      parts ← split_last
                [d_mlp; d_mlp; Z.of_nat (intermediate_size self);
                 Z.of_nat (intermediate_size self
                           + 2 * n_groups self * state_size self);
                 Z.of_nat (num_heads self)]
                projected_states;
      match parts with
      | [z0; x0; gate; hidden_states; dt] =>
          dt ← tadd dt (dt_bias self);
          Ok (mkProjected batch_size seq_len d_mlp z0 x0 gate hidden_states
                (tmap softplus dt))
      | _ => Raise RuntimeError
      end
  | [] | [_] | [_; _] =>
      Raise (ValueError (unpack_few (length (shape input_states))))
  | _ => Raise (ValueError unpack_many)
  end.

(** Lines 287-294: the single-step convolution against the rolling buffer
    of the cache.  Returns the cache after the in-place write. *)
Definition conv_decode (self : Mamba2Mixer) (cache_params : Mamba2Cache)
    (hidden_states : tensor) : Mamba2Cache * result tensor :=
  match conv_states cache_params !! layer_idx self with
  | None => (cache_params, Raise KeyError)
  | Some buffer =>
      match (rolled ← roll_left_last buffer;
             conv_state ← setitem_last2 rolled hidden_states;
             written ← copy_ buffer conv_state;
             Ok (conv_state, written)) with
      | Raise e => (cache_params, Raise e)
      | Ok (conv_state, written) =>
          (set_conv_state cache_params (layer_idx self) written,
           weight ← select_in 3 1 0 (conv_weight (conv1d self));
           prod ← tmul conv_state weight;
           hidden_states ← sum_last prod;
           hidden_states ←
             (if use_conv_bias self then
                match conv_bias (conv1d self) with
                | Some bias => iadd hidden_states bias
                | None => Raise TypeError
                end
              else Ok hidden_states);
           Ok (unsqueeze_last (tmap (act self) hidden_states)))
      end
  end.

(** Lines 296-302: the convolution of a whole sequence when a cache is
    present and nothing has been processed yet. *)
Definition conv_prefill (self : Mamba2Mixer) (cache_params : Mamba2Cache)
    (hidden_states : tensor) : Mamba2Cache * result tensor :=
  match (hidden_states ← transpose12 hidden_states;
         conv_state ← pad_left_last
                        (Z.of_nat (conv_kernel_size self)
                         - Z.of_nat (get_last (shape hidden_states)))
                        hidden_states;
         Ok (hidden_states, conv_state)) with
  | Raise e => (cache_params, Raise e)
  | Ok (hidden_states, conv_state) =>
      match conv_states cache_params !! layer_idx self with
      | None => (cache_params, Raise KeyError)
      | Some buffer =>
          match copy_ buffer conv_state with
          | Raise e => (cache_params, Raise e)
          | Ok written =>
              (set_conv_state cache_params (layer_idx self) written,
               y ← Conv1d_forward (conv1d self) hidden_states;
               y ← transpose12 y;
               slice1_from (Z.of_nat (conv_kernel_size self) - 1)
                 (tmap (act self) y))
          end
      end
  end.

(** Line 308: the convolution when no cache is passed. *)
Definition conv_nocache (self : Mamba2Mixer) (hidden_states : tensor)
  : result tensor :=
  x ← transpose12 hidden_states;
  y ← Conv1d_forward (conv1d self) x;
  y ← transpose12 y;
  slice1_from (- (Z.of_nat (conv_kernel_size self) - 1)) (tmap (act self) y).

(** Lines 283-308: the initial recurrent state and the convolved
    sequence, with the cache after its convolution buffer was written. *)
Definition conv_stage (self : Mamba2Mixer) (cache_params : option Mamba2Cache)
    (batch_size : nat) (hidden_states : tensor)
  : option Mamba2Cache * result (tensor * tensor) :=
  match cache_params with
  | Some cache =>
      match ssm_states cache !! layer_idx self with
      | None => (Some cache, Raise KeyError)
      | Some ssm_state =>
          let '(cache', r) :=
            if (0 <? seqlen_offset cache)%Z
            then conv_decode self cache hidden_states
            else conv_prefill self cache hidden_states in
          (Some cache', hidden_states ← r; Ok (ssm_state, hidden_states))
      end
  | None =>
      (None,
       hidden_states ← conv_nocache self hidden_states;
       Ok (zeros [batch_size; intermediate_size self; ssm_state_size self],
           hidden_states))
  end.

(** Lines 312-320: selection and discretization.  Returns the input
    segment, the read-out vectors [C], the discrete decay and the input
    injection. *)
Definition discretize (self : Mamba2Mixer) (batch_size seq_len : nat)
    (dt hidden_states : tensor) : result (tensor * tensor * tensor * tensor) :=
  parts ← split_last
            [Z.of_nat (intermediate_size self);
             Z.of_nat (n_groups self * ssm_state_size self);
             Z.of_nat (n_groups self * ssm_state_size self)]
            hidden_states;
  match parts with
  | [hidden_states; B; C] =>
      let A := tmap (fun a => (- exp a)%R) (A_log self) in
      dtA ← tmul dt A;
      let discrete_A := tmap exp dtA in
      dt4 ← index_none 3 3 dt;
      B4 ← reshape [Z.of_nat batch_size; Z.of_nat seq_len; 1%Z;
                     Z.of_nat (n_groups self * ssm_state_size self)] B;
      discrete_B ← tmul dt4 B4;
      u ← reshape [Z.of_nat batch_size; Z.of_nat seq_len;
                    Z.of_nat (num_heads self); (-1)%Z; 1%Z] hidden_states;
      discrete_B5 ← index_none 4 3 discrete_B;
      deltaB_u ← tmul u discrete_B5;
      deltaB_u ← reshape [Z.of_nat batch_size; Z.of_nat seq_len;
                           Z.of_nat (num_heads self); (-1)%Z;
                           Z.of_nat (head_dim self)] deltaB_u;
      Ok (hidden_states, C, discrete_A, deltaB_u)
  | _ => Raise RuntimeError
  end.

(** Line 327: one update of the recurrent state. *)
Definition state_update (discrete_A deltaB_u : tensor) (i : nat)
    (ssm_state : tensor) : result tensor :=
  dA ← select_in 3 1 i discrete_A;
  dA ← index_none 2 2 dA;
  dA ← index_none 2 2 dA;
  decayed ← tmul ssm_state dA;
  dBu ← select_in 4 1 i deltaB_u;
  tadd decayed dBu.

(** Lines 327-329: the body of the loop over time steps. *)
Definition scan_step (discrete_A deltaB_u C : tensor) (i : nat)
    (ssm_state : tensor) : result (tensor * tensor) :=
  ssm_state ← state_update discrete_A deltaB_u i ssm_state;
  Ci ← select_in 3 1 i C;
  scan_output ← matmul Ci ssm_state;
  scan_output ← select_in 4 2 0 scan_output;
  Ok (ssm_state, scan_output).

(** Lines 325-329: the loop, over the time steps [steps]. *)
Fixpoint scan_loop (discrete_A deltaB_u C : tensor) (steps : list nat)
    (ssm_state : tensor) (scan_outputs : list tensor)
  : result (tensor * list tensor) :=
  match steps with
  | [] => Ok (ssm_state, scan_outputs)
  | i :: steps' =>
      '(ssm_state, scan_output) ←
        scan_step discrete_A deltaB_u C i ssm_state;
      scan_loop discrete_A deltaB_u C steps' ssm_state
        (scan_outputs ++ [scan_output])
  end.

(** Lines 325-330: the recurrence over the whole sequence. *)
Definition recurrence (discrete_A deltaB_u C : tensor) (seq_len : nat)
    (ssm_state : tensor) : result (tensor * tensor) :=
  '(ssm_state, scan_outputs) ←
    scan_loop discrete_A deltaB_u C (seq 0 seq_len) ssm_state [];
  scan_output ← stack1 scan_outputs;
  Ok (ssm_state, scan_output).

(** Lines 331-334: the skip path and the gate. *)
Definition skip_and_gate (self : Mamba2Mixer) (p : Projected)
    (hidden_states scan_output : tensor) : result tensor :=
  let dims := [Z.of_nat (p_batch_size p); Z.of_nat (p_seq_len p);
               Z.of_nat (num_heads self); (-1)%Z] in
  u ← reshape dims hidden_states;
  D3 ← index_none 1 0 (D self);
  D3 ← index_none 2 2 D3;
  skip ← tmul u D3;
  scan_output ← tadd scan_output skip;
  g ← reshape dims (tmap (act self) (p_gate p));
  scan_output ← tmul scan_output g;
  if (0 <? p_d_mlp p)%Z then
    mlp ← tmul (tmap silu (p_z0 p)) (p_x0 p);
    cat_last mlp scan_output
  else Ok scan_output.

(** Lines 312-330: selection, discretization and the recurrence.
    Returns the input segment, the final state and the stacked readouts. *)
Definition scan_stage (self : Mamba2Mixer) (p : Projected)
    (ssm_state hidden_states : tensor) : result (tensor * tensor * tensor) :=
  '(hidden_states, C, discrete_A, deltaB_u) ←
    discretize self (p_batch_size p) (p_seq_len p) (p_dt p) hidden_states;
  '(ssm_state, scan_output) ←
    recurrence discrete_A deltaB_u C (p_seq_len p) ssm_state;
  Ok (hidden_states, ssm_state, scan_output).

(** Lines 310-334: everything between the convolution and the write of
    the recurrent state. *)
Definition ssm_stage (self : Mamba2Mixer) (p : Projected)
    (ssm_state hidden_states : tensor) : result (tensor * tensor) :=
  '(hidden_states, ssm_state, scan_output) ←
    scan_stage self p ssm_state hidden_states;
  scan_output ← skip_and_gate self p hidden_states scan_output;
  Ok (ssm_state, scan_output).

(** Lines 335-336: the in-place write of the recurrent state. *)
Definition write_ssm_state (self : Mamba2Mixer)
    (cache_params : option Mamba2Cache) (ssm_state : tensor)
  : option Mamba2Cache * result unit :=
  match cache_params with
  | Some cache =>
      match ssm_states cache !! layer_idx self with
      | None => (Some cache, Raise KeyError)
      | Some slot =>
          match copy_ slot ssm_state with
          | Raise e => (Some cache, Raise e)
          | Ok written =>
              (Some (set_ssm_state cache (layer_idx self) written), Ok tt)
          end
      end
  | None => (None, Ok tt)
  end.

(** [Mamba2Mixer.slow_forward] *)
Definition slow_forward (self : Mamba2Mixer) (input_states : tensor)
    (cache_params : option Mamba2Cache)
  : option Mamba2Cache * result tensor :=
  match project_and_split self input_states with
  | Raise e => (cache_params, Raise e)
  | Ok p =>
      match conv_stage self cache_params (p_batch_size p)
              (p_hidden_states p) with
      | (cache_params, Raise e) => (cache_params, Raise e)
      | (cache_params, Ok (ssm_state, hidden_states)) =>
          match ssm_stage self p ssm_state hidden_states with
          | Raise e => (cache_params, Raise e)
          | Ok (ssm_state, scan_output) =>
              match write_ssm_state self cache_params ssm_state with
              | (cache_params, Raise e) => (cache_params, Raise e)
              | (cache_params, Ok _) =>
                  (cache_params,
                   y ← transpose12 scan_output;
                   Linear_forward (out_proj self) y)
              end
          end
      end
  end.

(** ** The fast path

    The names below are bound by optional imports ([mamba_ssm],
    [causal_conv1d]) or not bound in the file at all ([rearrange]); they
    are parameters of the model.  [is_fast_path_available] is the
    module-level flag computed at import time.  In the module as it
    stands every call of [rearrange] fails ([rearrange_unbound] below). *)
Record Kernels : Type := mkKernels {
  is_fast_path_available : bool;
  causal_conv1d_fn :
    option (tensor -> tensor -> option tensor -> string -> option tensor);
  mamba_chunk_scan_combined :
    tensor -> tensor -> tensor -> tensor -> tensor -> nat -> tensor
    -> option tensor;
  rearrange : tensor -> string -> list (string * nat) -> option tensor
}.

(** The outcome of a call into an external kernel: its failure surfaces
    as an exception of the kernel's own. *)
Definition external {A : Type} (r : option A) : result A :=
  match r with
  | Some a => Ok a
  | None => Raise ExternalError
  end.

Definition silu_or_swish (a : string) : bool :=
  (a =? "silu")%string || (a =? "swish")%string.

(** [Mamba2Mixer.cuda_kernels_forward]; it only tests whether a cache was
    passed and never reads or writes it. *)
Definition cuda_kernels_forward (ker : Kernels) (self : Mamba2Mixer)
    (hidden_states : tensor) (cache_params : option Mamba2Cache)
  : result tensor :=
  projected_states ← Linear_forward (in_proj self) hidden_states;
  if training self && negb (is_Some_b cache_params)
  then Raise UnboundLocalError
  else
    parts ← split_last
              [Z.of_nat (intermediate_size self);
               Z.of_nat (intermediate_size self
                         + 2 * n_groups self * state_size self);
               Z.of_nat (num_heads self)]
              projected_states;
    match parts with
    | [gate; xBC; time_step] =>
        time_step ← tadd time_step (dt_bias self);
        let time_step := tmap softplus time_step in
        xBC ←
          match causal_conv1d_fn ker with
          | Some fn =>
              if silu_or_swish (activation self) then
                x ← transpose12 xBC;
                weight ← external (rearrange ker (conv_weight (conv1d self))
                                     "d 1 w -> d w"%string []);
                y ← external (fn x weight (conv_bias (conv1d self))
                                (activation self));
                transpose12 y
              else
                x ← transpose12 xBC;
                y ← Conv1d_forward (conv1d self) x;
                y ← transpose12 y;
                Ok (tmap (act self) y)
          | None =>
              x ← transpose12 xBC;
              y ← Conv1d_forward (conv1d self) x;
              y ← transpose12 y;
              Ok (tmap (act self) y)
          end;
        parts ← split_last
                  [Z.of_nat (intermediate_size self);
                   Z.of_nat (n_groups self * state_size self);
                   Z.of_nat (n_groups self * state_size self)]
                  xBC;
        match parts with
        | [x; B; C] =>
            let A := tmap (fun a => (- exp a)%R) (A_log self) in
            x4 ← external (rearrange ker x "b l (h p) -> b l h p"%string
                             [("p"%string, head_dim self)]);
            B4 ← external (rearrange ker B "b l (g n) -> b l g n"%string
                             [("g"%string, n_groups self)]);
            C4 ← external (rearrange ker C "b l (g n) -> b l g n"%string
                             [("g"%string, n_groups self)]);
            y ← external (mamba_chunk_scan_combined ker x4 time_step A B4 C4
                            (chunk_size self) (D self));
            y ← external (rearrange ker y "b l h p -> b l (h p)"%string []);
            y ← MambaRMSNormGated_forward (norm self) y (Some gate);
            Linear_forward (out_proj self) y
        | _ => Raise RuntimeError
        end
    | _ => Raise RuntimeError
    end.

(** [Mamba2Mixer.forward] *)
Definition Mamba2Mixer_forward (ker : Kernels) (self : Mamba2Mixer)
    (hidden_states : tensor) (cache_params : option Mamba2Cache)
  : option Mamba2Cache * result tensor :=
  if is_fast_path_available ker
  then (cache_params, cuda_kernels_forward ker self hidden_states cache_params)
  else slow_forward self hidden_states cache_params.

(** ** Blocks and the model *)

Record Mamba2RMSNorm : Type := mkNorm {
  rms_weight : tensor;
  rms_variance_epsilon : R
}.

(** [Mamba2RMSNorm.forward] *)
Definition Mamba2RMSNorm_forward (self : Mamba2RMSNorm)
    (hidden_states : tensor) : result tensor :=
  hidden_states ← rms_normalize (rms_variance_epsilon self) hidden_states;
  tmul (rms_weight self) hidden_states.

Record Mamba2Block : Type := mkBlock {
  block_norm : Mamba2RMSNorm;
  mixer : Mamba2Mixer
}.

(** [Mamba2Block.forward] *)
Definition Mamba2Block_forward (ker : Kernels) (self : Mamba2Block)
    (hidden_states : tensor) (cache_params : option Mamba2Cache)
  : option Mamba2Cache * result tensor :=
  let residual := hidden_states in
  match Mamba2RMSNorm_forward (block_norm self) hidden_states with
  | Raise e => (cache_params, Raise e)
  | Ok hidden_states =>
      match Mamba2Mixer_forward ker (mixer self) hidden_states cache_params with
      | (cache_params, Raise e) => (cache_params, Raise e)
      | (cache_params, Ok hidden_states) =>
          (cache_params, tadd residual hidden_states)
      end
  end.

(** Integer tensors ([input_ids]). *)
Record ltensor : Type := mkLT { lshape : list nat; lelt : list nat -> Z }.

Fixpoint all_indices (s : list nat) : list (list nat) :=
  match s with
  | [] => [[]]
  | d :: s' =>
      flat_map (fun i => List.map (cons i) (all_indices s')) (seq 0 d)
  end.

(** [nn.Embedding]: a row of the weight for every index. *)
Definition embedding (weight : tensor) (ids : ltensor) : result tensor :=
  match shape weight with
  | [v; h] =>
      if forallb (fun idx => (0 <=? lelt ids idx)%Z
                             && (lelt ids idx <? Z.of_nat v)%Z)
           (all_indices (lshape ids))
      then Ok (mkT (lshape ids ++ [h])
                 (fun idx => elt weight [Z.to_nat (lelt ids (removelast idx));
                                         get_last idx]))
      else Raise IndexError
  | _ => Raise RuntimeError
  end.

Record Mamba2Model : Type := mkModel {
  config : Mamba2Config;
  embeddings : tensor;
  layers : list Mamba2Block;
  gradient_checkpointing : bool;
  norm_f : Mamba2RMSNorm;
  model_training : bool
}.

(** What [Mamba2Model.forward] returns: a plain tuple or a
    [Mamba2Output].  The cache object itself lives in the threaded state;
    the output records whether it is part of the returned value. *)
Inductive ModelOutput : Type :=
  | TupleOutput (last_hidden_state : tensor) (with_cache : bool)
      (hidden_states : option (list tensor))
  | Mamba2Output (last_hidden_state : tensor) (with_cache : bool)
      (hidden_states : option (list tensor)).

Definition xor_msg : string :=
  "You cannot specify both input_ids and inputs_embeds at the same time, and must specify either one".

(** The loop over [self.layers]. *)
Fixpoint run_layers (ker : Kernels) (blocks : list Mamba2Block)
    (output_hidden_states : bool) (hidden_states : tensor)
    (all_hidden_states : list tensor) (cache_params : option Mamba2Cache)
  : option Mamba2Cache * result (tensor * list tensor) :=
  match blocks with
  | [] => (cache_params, Ok (hidden_states, all_hidden_states))
  | mixer_block :: rest =>
      match Mamba2Block_forward ker mixer_block hidden_states cache_params with
      | (cache_params, Raise e) => (cache_params, Raise e)
      | (cache_params, Ok hidden_states) =>
          run_layers ker rest output_hidden_states hidden_states
            (if output_hidden_states
             then all_hidden_states ++ [hidden_states]
             else all_hidden_states)
            cache_params
      end
  end.

Definition add_offset (c : Mamba2Cache) (n : Z) : Mamba2Cache :=
  mkCache (seqlen_offset c + n) (conv_states c) (ssm_states c).

(** The value of [use_cache] after lines 593 and 604-605. *)
Definition effective_use_cache (self : Mamba2Model) (use_cache : option bool)
  : bool :=
  let use_cache :=
    default (if negb (model_training self)
             then config_use_cache (config self) else false) use_cache in
  if gradient_checkpointing self && model_training self && use_cache
  then false else use_cache.

(** Lines 601-602: the embeddings the layers run on (after the check that
    exactly one of the two inputs is given). *)
Definition resolve_inputs_embeds (self : Mamba2Model)
    (input_ids : option ltensor) (inputs_embeds : option tensor)
  : result tensor :=
  match inputs_embeds, input_ids with
  | Some e, _ => Ok e
  | None, Some ids => embedding (embeddings self) ids
  | None, None => Raise TypeError
  end.

(** Lines 607-610: a fresh cache when none was passed and caching is on. *)
Definition ensure_cache (self : Mamba2Model) (inputs_embeds : tensor)
    (cache_params : option Mamba2Cache) (use_cache : bool)
  : result (option Mamba2Cache) :=
  if negb (is_Some_b cache_params) && use_cache
  then match shape inputs_embeds with
       | batch :: _ => Ok (Some (Mamba2Cache_init (config self) batch))
       | [] => Raise IndexError
       end
  else Ok cache_params.

(** Lines 623-624: [cache_params.seqlen_offset += inputs_embeds.shape[1]] *)
Definition advance_offset (inputs_embeds : tensor)
    (cache_params : option Mamba2Cache) (use_cache : bool)
  : result (option Mamba2Cache) :=
  if use_cache
  then match cache_params, shape inputs_embeds with
       | Some c, _ :: seq_len :: _ =>
           Ok (Some (add_offset c (Z.of_nat seq_len)))
       | Some _, _ => Raise IndexError
       | None, _ => Raise TypeError
       end
  else Ok cache_params.

(** [Mamba2Model.forward] *)
Definition Mamba2Model_forward (ker : Kernels) (self : Mamba2Model)
    (input_ids : option ltensor) (inputs_embeds : option tensor)
    (cache_params : option Mamba2Cache)
    (use_cache output_hidden_states return_dict : option bool)
  : option Mamba2Cache * result ModelOutput :=
  let output_hidden_states :=
    default (config_output_hidden_states (config self)) output_hidden_states in
  let use_cache := effective_use_cache self use_cache in
  let return_dict :=
    default (config_use_return_dict (config self)) return_dict in
  if xorb (negb (is_Some_b input_ids)) (is_Some_b inputs_embeds)
  then (cache_params, Raise (ValueError xor_msg))
  else
    match resolve_inputs_embeds self input_ids inputs_embeds with
    | Raise e => (cache_params, Raise e)
    | Ok inputs_embeds =>
        match ensure_cache self inputs_embeds cache_params use_cache with
        | Raise e => (cache_params, Raise e)
        | Ok cache_params =>
            match run_layers ker (layers self) output_hidden_states
                    inputs_embeds [] cache_params with
            | (cache_params, Raise e) => (cache_params, Raise e)
            | (cache_params, Ok (hidden_states, all_hidden_states)) =>
                match advance_offset inputs_embeds cache_params use_cache with
                | Raise e => (cache_params, Raise e)
                | Ok cache_params =>
                    (cache_params,
                     hidden_states ←
                       Mamba2RMSNorm_forward (norm_f self) hidden_states;
                     let all_hidden_states :=
                       if output_hidden_states
                       then Some (all_hidden_states ++ [hidden_states])
                       else None in
                     if negb return_dict
                     then Ok (TupleOutput hidden_states
                                (is_Some_b cache_params) all_hidden_states)
                     else Ok (Mamba2Output hidden_states
                                (is_Some_b cache_params && use_cache)
                                all_hidden_states))
                end
            end
        end
    end.

(** One call of the model as a generation loop issues it. *)
Record ForwardArgs : Type := mkArgs {
  arg_input_ids : option ltensor;
  arg_inputs_embeds : option tensor;
  arg_use_cache : option bool;
  arg_output_hidden_states : option bool;
  arg_return_dict : option bool
}.

(** The cache after a sequence of calls that share it; a call that raises
    leaves the cache as it was at the exception. *)
Fixpoint run_calls (ker : Kernels) (self : Mamba2Model)
    (calls : list ForwardArgs) (cache_params : option Mamba2Cache)
  : option Mamba2Cache :=
  match calls with
  | [] => cache_params
  | a :: rest =>
      run_calls ker self rest
        (Mamba2Model_forward ker self (arg_input_ids a) (arg_inputs_embeds a)
           cache_params (arg_use_cache a) (arg_output_hidden_states a)
           (arg_return_dict a)).1
  end.

(** ** Cache frames *)

(** Two caches have the same frame when their tensors have the same
    shapes, layer by layer. *)
Definition same_shapes (before after : option Mamba2Cache) : Prop :=
  match before, after with
  | Some c, Some c' => cache_shapes c' = cache_shapes c
  | None, None => True
  | _, _ => False
  end.

Definition same_offset (before after : option Mamba2Cache) : Prop :=
  match before, after with
  | Some c, Some c' => seqlen_offset c' = seqlen_offset c
  | None, None => True
  | _, _ => False
  end.

(** A result that is not the exception of line 597. *)
Definition not_xor_error {A : Type} (r : result A) : Prop :=
  r <> Raise (ValueError xor_msg).

(** ** Concrete instances *)

Definition ones (s : list nat) : tensor := mkT s (fun _ => 1%R).

(** The tensor of shape [s] with the given elements in row-major order. *)
Definition of_list (s : list nat) (l : list R) : tensor :=
  mkT s (fun idx => nth (ravel s idx) l 0%R).

(** The environment without the optional packages: the slow path runs. *)
Definition no_kernels : Kernels :=
  {| is_fast_path_available := false;
     causal_conv1d_fn := None;
     mamba_chunk_scan_combined := fun _ _ _ _ _ _ _ => None;
     rearrange := fun _ _ _ => None |}.

(** One head of dimension two, state size two, one group, convolution
    kernel of width two, hidden size one. *)
Definition config_ex (num_hidden_layers : nat) : Mamba2Config :=
  {| config_num_heads := 1;
     config_hidden_size := 1;
     config_state_size := 2;
     config_conv_kernel := 2;
     config_intermediate_size := 2;
     config_n_groups := 1;
     config_head_dim := 2;
     config_num_hidden_layers := num_hidden_layers;
     config_use_cache := true;
     config_output_hidden_states := false;
     config_use_return_dict := true |}.

(** The mixer of layer 0 for [config_ex]: convolution weights one and no
    bias; the input projection has rows [gate; x; B; C; dt]. *)
Definition mixer_ex : Mamba2Mixer :=
  {| num_heads := 1;
     hidden_size := 1;
     ssm_state_size := 2;
     conv_kernel_size := 2;
     intermediate_size := 2;
     layer_idx := 0;
     use_conv_bias := false;
     activation := "silu";
     act := silu;
     n_groups := 1;
     state_size := 2;
     head_dim := 2;
     chunk_size := 256;
     conv1d := mkConv1d (ones [6; 1; 2]) None 1;
     in_proj := mkLinear (of_list [9; 1] [1; 1; 1; 0; 0; 1; 1; 0; 0]%R) None;
     dt_bias := zeros [1];
     A_log := zeros [1];
     norm := mkNormGated (ones [2]) (1 / 100000)%R true;
     D := ones [1];
     out_proj := mkLinear (ones [1; 2]) None;
     training := false |}.

Definition norm_ex : Mamba2RMSNorm := mkNorm (ones [1]) (1 / 100000)%R.

Definition model_ex : Mamba2Model :=
  {| config := config_ex 1;
     embeddings := ones [4; 1];
     layers := [mkBlock norm_ex mixer_ex];
     gradient_checkpointing := false;
     norm_f := norm_ex;
     model_training := false |}.

(** The same model without any layer. *)
Definition model_nolayers : Mamba2Model :=
  {| config := config_ex 0;
     embeddings := ones [4; 1];
     layers := [];
     gradient_checkpointing := false;
     norm_f := norm_ex;
     model_training := false |}.

(** A fresh cache for batch size [batch_size], and the same cache with one
    step already counted. *)
Definition cache_ex (batch_size : nat) : Mamba2Cache :=
  Mamba2Cache_init (config_ex 1) batch_size.

Definition cache_ex_decoding (batch_size : nat) : Mamba2Cache :=
  add_offset (cache_ex batch_size) 1.

(** ** Reading results *)

Definition result_elt (r : result tensor) (idx : list nat) : option R :=
  match r with
  | Ok t => Some (elt t idx)
  | Raise _ => None
  end.

Definition result_shape (r : result tensor) : option (list nat) :=
  match r with
  | Ok t => Some (shape t)
  | Raise _ => None
  end.

(** ** The gated normalization as the specification words it *)

(** Root of the mean square of [v 0 .. v (n-1)], floored by [eps]. *)
Definition rms (eps : R) (n : nat) (v : nat -> R) : R :=
  sqrt (rsum n (fun q => (v q * v q)%R) / INR n + eps).

(** Section 4.3, mode "gate before normalization", read literally:
    multiply by the gated branch, normalize once, rescale. *)
Definition spec_gate_then_normalize (self : MambaRMSNormGated)
    (hidden_states gate : tensor) : result tensor :=
  gated ← tmul hidden_states (tmap silu gate);
  normed ← rms_normalize (variance_epsilon self) gated;
  tmul (norm_weight self) normed.

Definition norm_after_gate_ex : MambaRMSNormGated :=
  mkNormGated (ones [1]) (1 / 100000)%R false.

(** An activation of one element whose square is a tenth of that
    epsilon. *)
Definition small_activation : tensor :=
  mkT [1; 1; 1] (fun _ => (1 / 1000)%R).

(** ** Inputs for the convolution *)

(** A convolution input of two time steps and six channels that is zero
    everywhere, and one that differs from it at the second step only. *)
Definition conv_input_zero : tensor := zeros [1; 2; 6].

Definition conv_input_later : tensor :=
  mkT [1; 2; 6] (fun idx => if ix idx 1 =? 1 then 1%R else 0%R).

(** A cache in single-step mode whose convolution buffer holds 5 in its
    older column and 6 in its newer one. *)
Definition cache_marked : Mamba2Cache :=
  {| seqlen_offset := 1;
     conv_states := {[ 0 := mkT [1; 6; 2] (fun idx => (5 + INR (ix idx 2))%R) ]};
     ssm_states := {[ 0 := zeros [1; 2; 2] ]} |}.

(** The buffer of layer [i] read at an index. *)
Definition conv_buffer_elt (c : Mamba2Cache) (i : nat) (idx : list nat)
  : option R :=
  match conv_states c !! i with
  | Some t => Some (elt t idx)
  | None => None
  end.

(** ** The recurrence as the specification words it (section 4.1)

    [step_size] is indexed [b, t, h], [decay_rate] and [skip_scale] by
    [h]; the input is read in its flat layout [b, t, h * head_dim + p]
    and the input gate and output readout in theirs,
    [b, t, g * state_size + n] with [g = h / heads_per_group]. *)
Section SpecRecurrence.
Variables (heads_per_group head_dim state_size : nat).
Variables (step_size decay_rate input_gate output_readout input : tensor).
(** The state before the first step. *)
Variable initial_state : nat -> nat -> nat -> nat -> R.

Definition spec_group (h : nat) : nat := h / heads_per_group.

Definition spec_discrete_decay (b t h : nat) : R :=
  exp (elt step_size [b; t; h] * elt decay_rate [h]).

Definition spec_inject (b t h p n : nat) : R :=
  (elt step_size [b; t; h]
   * elt input_gate [b; t; (spec_group h * state_size + n)%nat]
   * elt input [b; t; (h * head_dim + p)%nat])%R.

(** The state after step [t]. *)
Fixpoint spec_state (t : nat) (b h p n : nat) : R :=
  match t with
  | 0 =>
      (initial_state b h p n * spec_discrete_decay b 0%nat h
       + spec_inject b 0%nat h p n)%R
  | S t' =>
      (spec_state t' b h p n * spec_discrete_decay b t h
       + spec_inject b t h p n)%R
  end.

Definition spec_readout (b t h p : nat) : R :=
  rsum state_size (fun n =>
    (elt output_readout [b; t; (spec_group h * state_size + n)%nat]
     * spec_state t b h p n)%R).
End SpecRecurrence.

(** Step 4 of section 4.1: the readout plus the skip path, flattened
    across heads and passed with the gate through the gated
    normalization (the order of [cuda_kernels_forward]). *)
Definition spec_mixer_output (self : Mamba2Mixer) (p : Projected)
    (hidden_states scan_output : tensor) : result tensor :=
  u ← reshape [Z.of_nat (p_batch_size p); Z.of_nat (p_seq_len p);
                Z.of_nat (num_heads self); (-1)%Z] hidden_states;
  D3 ← index_none 1 0 (D self);
  D3 ← index_none 2 2 D3;
  skip ← tmul u D3;
  y ← tadd scan_output skip;
  y ← reshape [Z.of_nat (p_batch_size p); Z.of_nat (p_seq_len p); (-1)%Z] y;
  MambaRMSNormGated_forward (norm self) y (Some (p_gate p)).

(** [mixer_ex] with another input projection. *)
Definition with_in_proj (m : Mamba2Mixer) (l : Linear) : Mamba2Mixer :=
  {| num_heads := num_heads m;
     hidden_size := hidden_size m;
     ssm_state_size := ssm_state_size m;
     conv_kernel_size := conv_kernel_size m;
     intermediate_size := intermediate_size m;
     layer_idx := layer_idx m;
     use_conv_bias := use_conv_bias m;
     activation := activation m;
     act := act m;
     n_groups := n_groups m;
     state_size := state_size m;
     head_dim := head_dim m;
     chunk_size := chunk_size m;
     conv1d := conv1d m;
     in_proj := l;
     dt_bias := dt_bias m;
     A_log := A_log m;
     norm := norm m;
     D := D m;
     out_proj := out_proj m;
     training := training m |}.

(** The input projection sends nothing to [B] and [C]: the readout is
    zero and the output is the skip path alone. *)
Definition mixer_skip_only : Mamba2Mixer :=
  with_in_proj mixer_ex
    (mkLinear (of_list [9; 1] [1; 1; 1; 0; 0; 0; 0; 0; 0]%R) None).

(** ** The slow path without a cache, stage by stage *)

(** Lines 270-330 when no cache is passed: the projection, the
    convolution of line 308 and the scan from a zero state. *)
Definition scan_without_cache (self : Mamba2Mixer) (input_states : tensor)
  : result (Projected * tensor * tensor * tensor) :=
  p ← project_and_split self input_states;
  h ← conv_nocache self (p_hidden_states p);
  '(hidden_states, ssm_state, scan_output) ←
    scan_stage self p
      (zeros [p_batch_size p; intermediate_size self; ssm_state_size self]) h;
  Ok (p, hidden_states, ssm_state, scan_output).

(** What [slow_forward] hands to the output projection (before the
    transposition of line 339). *)
Definition slow_pre_projection (self : Mamba2Mixer) (input_states : tensor)
  : result tensor :=
  '(p, hidden_states, _, scan_output) ← scan_without_cache self input_states;
  skip_and_gate self p hidden_states scan_output.

(** What the specification asks for at the same place. *)
Definition spec_pre_projection (self : Mamba2Mixer) (input_states : tensor)
  : result tensor :=
  '(p, hidden_states, _, scan_output) ← scan_without_cache self input_states;
  spec_mixer_output self p hidden_states scan_output.

(** The stacked readouts of the code's loop. *)
Definition slow_readout (self : Mamba2Mixer) (input_states : tensor)
  : result tensor :=
  '(_, _, _, scan_output) ← scan_without_cache self input_states;
  Ok scan_output.

(** The readout the specification defines from the same step sizes, decay
    rates, input gates, output readouts and inputs, from a zero state. *)
Definition spec_readout_of (self : Mamba2Mixer) (input_states : tensor)
    (b t h pp : nat) : result R :=
  p ← project_and_split self input_states;
  hs ← conv_nocache self (p_hidden_states p);
  parts ← split_last
            [Z.of_nat (intermediate_size self);
             Z.of_nat (n_groups self * ssm_state_size self);
             Z.of_nat (n_groups self * ssm_state_size self)] hs;
  match parts with
  | [x; B; C] =>
      Ok (spec_readout (num_heads self / n_groups self) (head_dim self)
            (ssm_state_size self) (p_dt p)
            (tmap (fun a => (- exp a)%R) (A_log self)) B C x
            (fun _ _ _ _ => 0%R) b t h pp)
  | _ => Raise RuntimeError
  end.

(** ** What the constructors fix *)

(** The sizes [Mamba2Mixer.__init__] (lines 134-189) gives to the
    parameters of a mixer, in terms of the mixer's own attributes. *)
Record mixer_shapes (m : Mamba2Mixer) : Prop := mkMixerShapes {
  ms_state_size : ssm_state_size m = state_size m;
  ms_conv_weight :
    shape (conv_weight (conv1d m))
    = [intermediate_size m + 2 * n_groups m * state_size m; 1;
       conv_kernel_size m];
  ms_conv_padding : conv_padding (conv1d m) = conv_kernel_size m - 1;
  ms_conv_bias :
    match conv_bias (conv1d m) with
    | Some b =>
        use_conv_bias m = true
        /\ shape b = [intermediate_size m + 2 * n_groups m * state_size m]
    | None => use_conv_bias m = false
    end;
  ms_in_proj :
    shape (lin_weight (in_proj m))
    = [2 * intermediate_size m + 2 * n_groups m * state_size m + num_heads m;
       hidden_size m];
  ms_in_proj_bias :
    match lin_bias (in_proj m) with
    | Some b =>
        shape b
        = [2 * intermediate_size m + 2 * n_groups m * state_size m
           + num_heads m]
    | None => True
    end;
  ms_dt_bias : shape (dt_bias m) = [num_heads m];
  ms_A_log : shape (A_log m) = [num_heads m];
  ms_D : shape (D m) = [num_heads m];
  ms_norm : shape (norm_weight (norm m)) = [intermediate_size m];
  ms_out_proj :
    shape (lin_weight (out_proj m)) = [hidden_size m; intermediate_size m]
}.

(** A mixer as the constructor builds it for one head of dimension two,
    one group and state size three (so that the intermediate size, two,
    differs from the state size). *)
Definition mixer_wide_state : Mamba2Mixer :=
  {| num_heads := 1;
     hidden_size := 1;
     ssm_state_size := 3;
     conv_kernel_size := 2;
     intermediate_size := 2;
     layer_idx := 0;
     use_conv_bias := false;
     activation := "silu";
     act := silu;
     n_groups := 1;
     state_size := 3;
     head_dim := 2;
     chunk_size := 256;
     conv1d := mkConv1d (ones [8; 1; 2]) None 1;
     in_proj := mkLinear (ones [11; 1]) None;
     dt_bias := ones [1];
     A_log := zeros [1];
     norm := mkNormGated (ones [2]) (1 / 100000)%R true;
     D := ones [1];
     out_proj := mkLinear (ones [1; 2]) None;
     training := false |}.

(** The module never binds the name [rearrange] (it imports nothing that
    provides it), so every call of it fails. *)
Definition rearrange_unbound (ker : Kernels) : Prop :=
  forall t pattern axes, rearrange ker t pattern axes = None.

(** An environment in which the optional packages were imported, so that
    [causal_conv1d_fn] is bound and every mixer takes the fast path;
    [rearrange] is not bound, and the kernels themselves reject their
    arguments. *)
Definition fast_kernels : Kernels :=
  {| is_fast_path_available := true;
     causal_conv1d_fn := Some (fun _ _ _ _ => None);
     mamba_chunk_scan_combined := fun _ _ _ _ _ _ _ => None;
     rearrange := fun _ _ _ => None |}.

(** [mixer_ex] after [train()]. *)
Definition mixer_training : Mamba2Mixer :=
  {| num_heads := num_heads mixer_ex;
     hidden_size := hidden_size mixer_ex;
     ssm_state_size := ssm_state_size mixer_ex;
     conv_kernel_size := conv_kernel_size mixer_ex;
     intermediate_size := intermediate_size mixer_ex;
     layer_idx := layer_idx mixer_ex;
     use_conv_bias := use_conv_bias mixer_ex;
     activation := activation mixer_ex;
     act := act mixer_ex;
     n_groups := n_groups mixer_ex;
     state_size := state_size mixer_ex;
     head_dim := head_dim mixer_ex;
     chunk_size := chunk_size mixer_ex;
     conv1d := conv1d mixer_ex;
     in_proj := in_proj mixer_ex;
     dt_bias := dt_bias mixer_ex;
     A_log := A_log mixer_ex;
     norm := norm mixer_ex;
     D := D mixer_ex;
     out_proj := out_proj mixer_ex;
     training := true |}.

Definition model_training_ex : Mamba2Model :=
  {| config := config_ex 1;
     embeddings := ones [4; 1];
     layers := [mkBlock norm_ex mixer_training];
     gradient_checkpointing := false;
     norm_f := norm_ex;
     model_training := true |}.

(** ** Reading the output of the model *)

(** [outputs[0]] / [outputs.last_hidden_state] *)
Definition out_last_hidden_state (o : ModelOutput) : tensor :=
  match o with
  | TupleOutput h _ _ | Mamba2Output h _ _ => h
  end.

(** [outputs.hidden_states]; in the tuple form, the entry that is left
    out when it is [None]. *)
Definition out_hidden_states (o : ModelOutput) : option (list tensor) :=
  match o with
  | TupleOutput _ _ hs | Mamba2Output _ _ hs => hs
  end.

(** Whether the returned value holds the cache: the second entry of the
    tuple, or a [cache_params] field that is not [None]. *)
Definition out_with_cache (o : ModelOutput) : bool :=
  match o with
  | TupleOutput _ c _ | Mamba2Output _ c _ => c
  end.

(** Whether the returned value is a [Mamba2Output]. *)
Definition out_is_dict (o : ModelOutput) : bool :=
  match o with
  | TupleOutput _ _ _ => false
  | Mamba2Output _ _ _ => true
  end.

(** The one-layer model in training mode with gradient checkpointing. *)
Definition model_checkpointing : Mamba2Model :=
  {| config := config_ex 1;
     embeddings := ones [4; 1];
     layers := [mkBlock norm_ex mixer_training];
     gradient_checkpointing := true;
     norm_f := norm_ex;
     model_training := true |}.

(** Two layers with the block of the example. *)
Definition model_two_layers : Mamba2Model :=
  {| config := config_ex 2;
     embeddings := ones [4; 1];
     layers := [mkBlock norm_ex mixer_ex; mkBlock norm_ex mixer_ex];
     gradient_checkpointing := false;
     norm_f := norm_ex;
     model_training := false |}.

(** ** Initialization of the step-size bias

    The part of [Mamba2PreTrainedModel._init_weights] that draws the
    initial step sizes of a [Mamba2Mixer] and stores their inverse
    softplus in [dt_bias] (lines 409-417). *)

(** The fields of the configuration read there. *)
Record TimeStepConfig : Type := mkTimeStepConfig {
  config_time_step_min : R;
  config_time_step_max : R;
  config_time_step_floor : R
}.

Definition math_domain_error : string := "math domain error".

(** [math.log] *)
Definition math_log (x : R) : result R :=
  if Rlt_dec 0 x then Ok (ln x) else Raise (ValueError math_domain_error).

(** [torch.expm1] *)
Definition expm1 (x : R) : R := (exp x - 1)%R.

(** [t.clamp(min=m)] *)
Definition clamp_min (m : R) (t : tensor) : tensor :=
  tmap (fun x => Rmax x m) t.

Definition with_dt_bias (m : Mamba2Mixer) (t : tensor) : Mamba2Mixer :=
  {| num_heads := num_heads m;
     hidden_size := hidden_size m;
     ssm_state_size := ssm_state_size m;
     conv_kernel_size := conv_kernel_size m;
     intermediate_size := intermediate_size m;
     layer_idx := layer_idx m;
     use_conv_bias := use_conv_bias m;
     activation := activation m;
     act := act m;
     n_groups := n_groups m;
     state_size := state_size m;
     head_dim := head_dim m;
     chunk_size := chunk_size m;
     conv1d := conv1d m;
     in_proj := in_proj m;
     dt_bias := t;
     A_log := A_log m;
     norm := norm m;
     D := D m;
     out_proj := out_proj m;
     training := training m |}.

(** Lines 409-413: the initial step sizes; [rand] holds the values drawn
    by [torch.rand(self.config.num_heads)]. *)
Definition init_time_step (config : Mamba2Config) (ts : TimeStepConfig)
    (rand : list nat -> R) : result tensor :=
  log_max ← math_log (config_time_step_max ts);
  log_min ← math_log (config_time_step_min ts);
  offset ← math_log (config_time_step_min ts);
  let u := mkT [config_num_heads config] rand in
  Ok (clamp_min (config_time_step_floor ts)
        (tmap exp (tmap (fun r => (r * (log_max - log_min) + offset)%R) u))).

(** Line 415: [dt + torch.log(-torch.expm1(-dt))] *)
Definition inv_softplus (dt : tensor) : result tensor :=
  tadd dt (tmap ln (tmap Ropp (tmap expm1 (tmap Ropp dt)))).

(** Lines 409-417 on a mixer. *)
Definition init_dt_bias (config : Mamba2Config) (ts : TimeStepConfig)
    (rand : list nat -> R) (module : Mamba2Mixer) : result Mamba2Mixer :=
  dt ← init_time_step config ts rand;
  inv_dt ← inv_softplus dt;
  written ← copy_ (dt_bias module) inv_dt;
  Ok (with_dt_bias module written).

(** Step sizes between a thousandth and a tenth, floored at a
    ten-thousandth. *)
Definition time_step_ex : TimeStepConfig :=
  {| config_time_step_min := (1 / 1000)%R;
     config_time_step_max := (1 / 10)%R;
     config_time_step_floor := (1 / 10000)%R |}.

(** ** The state-dict hook of [Mamba2Model]

    A Python [dict] keeps its keys in insertion order and [load_hook]
    stops at the first matching key, so the state dict is an association
    list (with distinct keys). *)

(** [p in s] on strings. *)
Fixpoint str_in (p s : string) : bool :=
  String.prefix p s
  || match s with
     | EmptyString => false
     | String _ s' => str_in p s'
     end.

(** [s.replace(old, new)] for a non-empty [old]: the occurrences of [old]
    are replaced from the left, without overlap.  [skip] counts the
    characters of a matched occurrence that are still to be dropped. *)
Fixpoint str_replace_from (old new : string) (skip : nat) (s : string)
  : string :=
  match s with
  | EmptyString => EmptyString
  | String c s' =>
      match skip with
      | S k => str_replace_from old new k s'
      | O =>
          if String.prefix old s
          then String.append new
                 (str_replace_from old new (String.length old - 1) s')
          else String c (str_replace_from old new 0 s')
      end
  end.

Definition str_replace (old new s : string) : string :=
  str_replace_from old new 0 s.

Section StateDict.
Context {V : Type}.

Definition dict : Type := list (string * V).

Definition dict_keys (d : dict) : list string := List.map fst d.

(** [d[k]], when the key is present. *)
Fixpoint dict_get (d : dict) (k : string) : option V :=
  match d with
  | [] => None
  | (k', v) :: rest => if String.eqb k' k then Some v else dict_get rest k
  end.

(** [d.pop(k)]: the value and the dict without the key. *)
Definition dict_pop (d : dict) (k : string) : option (V * dict) :=
  match dict_get d k with
  | Some v => Some (v, List.filter (fun kv => negb (String.eqb (fst kv) k)) d)
  | None => None
  end.

(** [d[k] = v]: an existing key keeps its position, a new key goes to the
    end. *)
Fixpoint dict_setitem (d : dict) (k : string) (v : V) : dict :=
  match d with
  | [] => [(k, v)]
  | (k', v') :: rest =>
      if String.eqb k' k then (k, v) :: rest
      else (k', v') :: dict_setitem rest k v
  end.

(** [Mamba2Model.load_hook] (lines 563-567); the result is the state dict
    after the in-place update.  The loop leaves at the first key that
    contains ["embedding."]. *)
Definition load_hook (state_dict : dict) : result dict :=
  match List.find (str_in "embedding.") (dict_keys state_dict) with
  | Some k =>
      match dict_pop state_dict k with
      | Some (v, popped) =>
          Ok (dict_setitem popped
                (str_replace "embedding." "embeddings." k) v)
      | None => Raise KeyError
      end
  | None => Ok state_dict
  end.

End StateDict.
Arguments dict V : clear implicits.

(** A checkpoint with the old name of the embedding and two more
    entries. *)
Definition state_dict_ex : dict nat :=
  [("backbone.norm_f.weight"%string, 0);
   ("backbone.embedding.weight"%string, 1);
   ("old.embedding.weight"%string, 2)].

(** ** Preparing the inputs of a generation step *)

(** [ids[:, -1]] on an integer tensor. *)
Definition lselect_last1 (ids : ltensor) : result ltensor :=
  match lshape ids with
  | b :: n :: rest =>
      if n =? 0 then Raise IndexError
      else Ok (mkLT (b :: rest)
                 (fun idx => lelt ids (take 1 idx ++ (n - 1) :: drop 1 idx)))
  | _ => Raise IndexError
  end.

(** [ids.unsqueeze(-1)] *)
Definition lunsqueeze_last (ids : ltensor) : ltensor :=
  mkLT (lshape ids ++ [1]) (fun idx => lelt ids (removelast idx)).

(** The keyword arguments that [prepare_inputs_for_generation] returns
    for [forward]; a key that is absent from the returned dict and a key
    bound to [None] reach [forward] alike, as [None]. *)
Record ModelInputs : Type := mkInputs {
  mi_input_ids : option ltensor;
  mi_inputs_embeds : option tensor;
  mi_cache_params : option Mamba2Cache;
  mi_use_cache : option bool
}.

(** [Mamba2ForCausalLM.prepare_inputs_for_generation] (lines 677-700) *)
Definition prepare_inputs_for_generation (input_ids : option ltensor)
    (inputs_embeds : option tensor) (use_cache : option bool)
    (cache_params : option Mamba2Cache) : result ModelInputs :=
  input_ids ←
    (if is_Some_b cache_params then
       match input_ids with
       | Some ids =>
           last ← lselect_last1 ids;
           Ok (Some (lunsqueeze_last last))
       | None => Raise TypeError
       end
     else Ok input_ids);
  if is_Some_b inputs_embeds && negb (is_Some_b cache_params)
  then Ok (mkInputs None inputs_embeds cache_params use_cache)
  else Ok (mkInputs input_ids None cache_params use_cache).

(** Token ids [0, 1, 2] in a batch of one. *)
Definition ids_ex : ltensor :=
  mkLT [1; 3] (fun idx => Z.of_nat (ix idx 1)).

(** ** The language-modeling head: [Mamba2ForCausalLM] *)

Record Mamba2ForCausalLM : Type := mkCausalLM {
  backbone : Mamba2Model;
  lm_head : Linear
}.

(** A scalar loss: a number, or the NaN that a mean over no element
    gives. *)
Inductive loss_value : Type :=
  | Finite (r : R)
  | NaN.

(** [logits[..., :-1, :]] *)
Definition drop_last_position (t : tensor) : result tensor :=
  match rev (shape t) with
  | v :: l :: rest => Ok (mkT (rev rest ++ [l - 1; v]) (elt t))
  | _ => Raise IndexError
  end.

(** [labels[..., 1:]] *)
Definition ldrop_first_position (t : ltensor) : result ltensor :=
  match rev (lshape t) with
  | l :: rest =>
      Ok (mkLT (rev rest ++ [l - 1])
            (fun idx => lelt t (set_last idx (get_last idx + 1))))
  | [] => Raise IndexError
  end.

(** [labels.view(-1)] *)
Definition lflatten (t : ltensor) : ltensor :=
  mkLT [numel (lshape t)]
    (fun idx => lelt t (unravel (lshape t) (ix idx 0))).

Definition batch_size_msg (n m : nat) : string :=
  String.append "Expected input batch_size ("
    (String.append (str_of_nat n)
       (String.append ") to match target batch_size ("
          (String.append (str_of_nat m) ")."))).

(** The default [ignore_index] of [CrossEntropyLoss]. *)
Definition ignore_index : Z := (-100)%Z.

(** [-log_softmax(row)[t]] over [C] classes. *)
Definition nll_row (C : nat) (row : nat -> R) (t : nat) : R :=
  (ln (rsum C (fun c => exp (row c))) - row t)%R.

(** A target is a class index or [ignore_index]. *)
Definition valid_target (C : nat) (t : Z) : bool :=
  (t =? ignore_index)%Z || ((0 <=? t)%Z && (t <? Z.of_nat C)%Z).

(** [CrossEntropyLoss()(input, target)] with its defaults (mean over the
    targets that are not [ignore_index]) on an input of shape [N, C] and
    class indices of shape [N], which is what the call site passes. *)
Definition cross_entropy (input : tensor) (target : ltensor)
  : result loss_value :=
  match shape input, lshape target with
  | [N; C], [M] =>
      if negb (N =? M) then Raise (ValueError (batch_size_msg N M))
      else if forallb (fun i => valid_target C (lelt target [i])) (seq 0 N)
      then
        let kept :=
          List.filter (fun i => negb (lelt target [i] =? ignore_index)%Z)
            (seq 0 N) in
        match kept with
        | [] => Ok NaN
        | _ =>
            Ok (Finite
                  (fold_right
                     (fun i acc =>
                        (nll_row C (fun c => elt input [i; c])
                           (Z.to_nat (lelt target [i])) + acc)%R)
                     0%R kept
                   / INR (length kept))%R)
        end
      else Raise IndexError
  | _, _ => Raise RuntimeError
  end.

(** Lines 738-747: the loss of next-token prediction. *)
Definition causal_lm_loss (logits : tensor) (labels : ltensor)
  : result loss_value :=
  shift_logits ← drop_last_position logits;
  shift_labels ← ldrop_first_position labels;
  flat ← reshape [(-1)%Z; Z.of_nat (get_last (shape shift_logits))]
            shift_logits;
  cross_entropy flat (lflatten shift_labels).

(** What [Mamba2ForCausalLM.forward] returns: a plain tuple (the loss
    first when there is one) or a [Mamba2CausalLMOutput]. *)
Inductive CausalLMOutput : Type :=
  | CausalTuple (loss : option loss_value) (logits : tensor)
      (with_cache : bool) (hidden_states : option (list tensor))
  | Mamba2CausalLMOutput (loss : option loss_value) (logits : tensor)
      (with_cache : bool) (hidden_states : option (list tensor)).

Definition lm_loss (o : CausalLMOutput) : option loss_value :=
  match o with
  | CausalTuple l _ _ _ | Mamba2CausalLMOutput l _ _ _ => l
  end.

Definition lm_logits (o : CausalLMOutput) : tensor :=
  match o with
  | CausalTuple _ t _ _ | Mamba2CausalLMOutput _ t _ _ => t
  end.

(** [Mamba2ForCausalLM.forward] (lines 708-758) *)
Definition Mamba2ForCausalLM_forward (ker : Kernels)
    (self : Mamba2ForCausalLM)
    (input_ids : option ltensor) (inputs_embeds : option tensor)
    (cache_params : option Mamba2Cache) (labels : option ltensor)
    (output_hidden_states return_dict use_cache : option bool)
  : option Mamba2Cache * result CausalLMOutput :=
  let return_dict :=
    default (config_use_return_dict (config (backbone self))) return_dict in
  match Mamba2Model_forward ker (backbone self) input_ids inputs_embeds
          cache_params use_cache output_hidden_states (Some return_dict) with
  | (cache_params, Raise e) => (cache_params, Raise e)
  | (cache_params, Ok mamba2_outputs) =>
      (cache_params,
       let hidden_states := out_last_hidden_state mamba2_outputs in
       logits ← Linear_forward (lm_head self) hidden_states;
       loss ←
         match labels with
         | Some labels =>
             l ← causal_lm_loss logits labels;
             Ok (Some l)
         | None => Ok None
         end;
       if negb return_dict
       then Ok (CausalTuple loss logits (out_with_cache mamba2_outputs)
                  (out_hidden_states mamba2_outputs))
       else Ok (Mamba2CausalLMOutput loss logits
                  (out_with_cache mamba2_outputs)
                  (out_hidden_states mamba2_outputs)))
  end.

(** A head over two tokens on top of the model without layers, and
    labels for two positions. *)
Definition causal_lm_ex : Mamba2ForCausalLM :=
  {| backbone := model_nolayers; lm_head := mkLinear (ones [2; 1]) None |}.

Definition labels_ex : ltensor := mkLT [1; 2] (fun idx => Z.of_nat (ix idx 1)).

(** Logits that differ from [ones [1; 2; 2]] at the last position only,
    and labels that differ from [labels_ex] at the first position only. *)
Definition logits_other_end : tensor :=
  mkT [1; 2; 2] (fun idx => if ix idx 1 =? 1 then 5%R else 1%R).

Definition labels_other_start : ltensor :=
  mkLT [1; 2] (fun idx => if ix idx 1 =? 0 then 1%Z else Z.of_nat (ix idx 1)).

(** Whether a call returned with a loss that is a number. *)
Definition loss_is_number (r : result CausalLMOutput) : bool :=
  match r with
  | Ok out =>
      match lm_loss out with
      | Some (Finite _) => true
      | _ => false
      end
  | Raise _ => false
  end.

(** * Properties *)

(** ** In-place writes keep shapes *)

Lemma copy__shape (dst src w : tensor) :
  copy_ dst src = Ok w -> shape w = shape dst.
Proof.
  unfold copy_. destruct (broadcasts_to _ _); intros H; inversion H; reflexivity.
Qed.

Lemma set_conv_state_shapes (c : Mamba2Cache) (i : nat) (buf w : tensor) :
  conv_states c !! i = Some buf ->
  shape w = shape buf ->
  cache_shapes (set_conv_state c i w) = cache_shapes c.
Proof.
  intros Hl Hs. unfold cache_shapes, set_conv_state; simpl. f_equal.
  rewrite fmap_insert. apply insert_id.
  rewrite lookup_fmap, Hl. simpl. congruence.
Qed.

Lemma set_ssm_state_shapes (c : Mamba2Cache) (i : nat) (buf w : tensor) :
  ssm_states c !! i = Some buf ->
  shape w = shape buf ->
  cache_shapes (set_ssm_state c i w) = cache_shapes c.
Proof.
  intros Hl Hs. unfold cache_shapes, set_ssm_state; simpl. f_equal.
  rewrite fmap_insert. apply insert_id.
  rewrite lookup_fmap, Hl. simpl. congruence.
Qed.

Lemma conv_decode_frame (self : Mamba2Mixer) (c : Mamba2Cache) (h : tensor) :
  cache_shapes (conv_decode self c h).1 = cache_shapes c
  /\ seqlen_offset (conv_decode self c h).1 = seqlen_offset c.
Proof.
  unfold conv_decode.
  destruct (conv_states c !! layer_idx self) as [buf|] eqn:Hbuf; [|done].
  destruct (roll_left_last buf) as [rolled|]; simpl; [|done].
  destruct (setitem_last2 rolled h) as [cs|]; simpl; [|done].
  destruct (copy_ buf cs) as [w|] eqn:Hw; simpl; [|done].
  split; [|done].
  eapply set_conv_state_shapes; eauto using copy__shape.
Qed.

Lemma conv_prefill_frame (self : Mamba2Mixer) (c : Mamba2Cache) (h : tensor) :
  cache_shapes (conv_prefill self c h).1 = cache_shapes c
  /\ seqlen_offset (conv_prefill self c h).1 = seqlen_offset c.
Proof.
  unfold conv_prefill.
  destruct (transpose12 h) as [ht|]; simpl; [|done].
  destruct (pad_left_last _ ht) as [cs|]; simpl; [|done].
  destruct (conv_states c !! layer_idx self) as [buf|] eqn:Hbuf; [|done].
  destruct (copy_ buf cs) as [w|] eqn:Hw; simpl; [|done].
  split; [|done].
  eapply set_conv_state_shapes; eauto using copy__shape.
Qed.

Lemma conv_stage_frame (self : Mamba2Mixer) (cp : option Mamba2Cache)
    (b : nat) (h : tensor) :
  same_shapes cp (conv_stage self cp b h).1
  /\ same_offset cp (conv_stage self cp b h).1.
Proof.
  unfold conv_stage. destruct cp as [c|]; [|done].
  destruct (ssm_states c !! layer_idx self); [|done].
  destruct (0 <? seqlen_offset c)%Z.
  - pose proof (conv_decode_frame self c h) as [H1 H2].
    destruct (conv_decode self c h); simpl in *. done.
  - pose proof (conv_prefill_frame self c h) as [H1 H2].
    destruct (conv_prefill self c h); simpl in *. done.
Qed.

Lemma write_ssm_state_frame (self : Mamba2Mixer) (cp : option Mamba2Cache)
    (s : tensor) :
  same_shapes cp (write_ssm_state self cp s).1
  /\ same_offset cp (write_ssm_state self cp s).1.
Proof.
  unfold write_ssm_state. destruct cp as [c|]; [|done].
  destruct (ssm_states c !! layer_idx self) as [slot|] eqn:Hs; [|done].
  destruct (copy_ slot s) as [w|] eqn:Hw; simpl; [|done].
  split; [|done].
  eapply set_ssm_state_shapes; eauto using copy__shape.
Qed.

Lemma same_shapes_refl (cp : option Mamba2Cache) : same_shapes cp cp.
Proof. destruct cp; done. Qed.

Lemma same_offset_refl (cp : option Mamba2Cache) : same_offset cp cp.
Proof. destruct cp; done. Qed.

Lemma same_shapes_trans (a b c : option Mamba2Cache) :
  same_shapes a b -> same_shapes b c -> same_shapes a c.
Proof. destruct a, b, c; simpl; try done. congruence. Qed.

Lemma same_offset_trans (a b c : option Mamba2Cache) :
  same_offset a b -> same_offset b c -> same_offset a c.
Proof. destruct a, b, c; simpl; try done. congruence. Qed.

Lemma slow_forward_frame (self : Mamba2Mixer) (x : tensor)
    (cp : option Mamba2Cache) :
  same_shapes cp (slow_forward self x cp).1
  /\ same_offset cp (slow_forward self x cp).1.
Proof.
  unfold slow_forward.
  destruct (project_and_split self x) as [p|];
    [|split; [apply same_shapes_refl | apply same_offset_refl]].
  pose proof (conv_stage_frame self cp (p_batch_size p) (p_hidden_states p))
    as [H1 H2].
  destruct (conv_stage self cp (p_batch_size p) (p_hidden_states p))
    as [cp1 [[s h]|]]; simpl in *; [|done].
  destruct (ssm_stage self p s h) as [[s' o]|]; [|done].
  pose proof (write_ssm_state_frame self cp1 s') as [H3 H4].
  destruct (write_ssm_state self cp1 s') as [cp2 [u|]]; simpl in *;
    eauto using same_shapes_trans, same_offset_trans.
Qed.

Lemma Mamba2Mixer_forward_frame (ker : Kernels) (self : Mamba2Mixer)
    (x : tensor) (cp : option Mamba2Cache) :
  same_shapes cp (Mamba2Mixer_forward ker self x cp).1
  /\ same_offset cp (Mamba2Mixer_forward ker self x cp).1.
Proof.
  unfold Mamba2Mixer_forward. destruct (is_fast_path_available ker).
  - split; [apply same_shapes_refl | apply same_offset_refl].
  - apply slow_forward_frame.
Qed.

Lemma Mamba2Block_forward_frame (ker : Kernels) (self : Mamba2Block)
    (x : tensor) (cp : option Mamba2Cache) :
  same_shapes cp (Mamba2Block_forward ker self x cp).1
  /\ same_offset cp (Mamba2Block_forward ker self x cp).1.
Proof.
  unfold Mamba2Block_forward.
  destruct (Mamba2RMSNorm_forward _ x) as [h|];
    [|split; [apply same_shapes_refl | apply same_offset_refl]].
  pose proof (Mamba2Mixer_forward_frame ker (mixer self) h cp) as [H1 H2].
  destruct (Mamba2Mixer_forward ker (mixer self) h cp) as [cp1 [y|]]; done.
Qed.

Lemma run_layers_frame (ker : Kernels) (blocks : list Mamba2Block) (o : bool)
    (x : tensor) (acc : list tensor) (cp : option Mamba2Cache) :
  same_shapes cp (run_layers ker blocks o x acc cp).1
  /\ same_offset cp (run_layers ker blocks o x acc cp).1.
Proof.
  revert x acc cp. induction blocks as [|blk rest IH]; intros x acc cp; simpl.
  - split; [apply same_shapes_refl | apply same_offset_refl].
  - pose proof (Mamba2Block_forward_frame ker blk x cp) as [H1 H2].
    destruct (Mamba2Block_forward ker blk x cp) as [cp1 [y|]]; simpl in *;
      [|done].
    destruct (IH y (if o then acc ++ [y] else acc) cp1) as [H3 H4].
    eauto using same_shapes_trans, same_offset_trans.
Qed.

(** ** Facts about indices and broadcasting *)

Lemma in_range_length (s idx : list nat) :
  in_range s idx = true -> length idx = length s.
Proof.
  revert idx. induction s as [|d s IH]; intros [|i idx]; simpl; try done.
  intros H. apply andb_prop in H as [_ H]. f_equal. apply IH, H.
Qed.

Lemma bshape_rev_length (r1 r2 r : list nat) :
  bshape_rev r1 r2 = Some r -> length r = Nat.max (length r1) (length r2).
Proof.
  revert r2 r. induction r1 as [|a r1 IH]; intros r2 r; simpl.
  - intros H; inversion H; subst. lia.
  - destruct r2 as [|b r2]; [intros H; inversion H; subst; simpl; lia|].
    destruct (bshape_rev r1 r2) as [r'|] eqn:Hr; [|done].
    apply IH in Hr. intros H.
    repeat case_match; inversion H; subst; simpl; lia.
Qed.

Lemma bshape_length (s1 s2 s : list nat) :
  bshape s1 s2 = Some s -> length s = Nat.max (length s1) (length s2).
Proof.
  unfold bshape. destruct (bshape_rev (rev s1) (rev s2)) as [r|] eqn:Hr; [|done].
  intros H; inversion H; subst.
  apply bshape_rev_length in Hr. rewrite !length_rev in *. exact Hr.
Qed.

Lemma bidx_aligned_length (s idx : list nat) :
  length (bidx_aligned s idx) = Nat.min (length s) (length idx).
Proof.
  revert idx. induction s as [|d s IH]; intros [|i idx]; simpl; try done.
  f_equal. apply IH.
Qed.

Lemma bidx_length (s idx : list nat) :
  length s <= length idx -> length (bidx s idx) = length s.
Proof.
  intros H. unfold bidx. rewrite bidx_aligned_length, length_skipn. lia.
Qed.

Lemma map2_elt (f : R -> R -> R) (a b out : tensor) (idx : list nat) :
  map2 f a b = Ok out -> elt out idx = f (bget a idx) (bget b idx).
Proof.
  unfold map2. destruct (bshape _ _); [|done].
  intros H; inversion H; reflexivity.
Qed.

Lemma map2_shape (f : R -> R -> R) (a b out : tensor) :
  map2 f a b = Ok out -> bshape (shape a) (shape b) = Some (shape out).
Proof.
  unfold map2. destruct (bshape _ _); [|done].
  intros H; inversion H; reflexivity.
Qed.

Lemma select_shape (d i : nat) (t out : tensor) :
  select d i t = Ok out ->
  shape out = delete d (shape t) /\ d < rank t
  /\ forall idx, elt out idx = elt t (take d idx ++ i :: drop d idx).
Proof.
  unfold select. destruct (shape t !! d) as [n|] eqn:Hn; [|done].
  destruct (i <? n); [|done]. intros H; inversion H; subst; simpl.
  split; [done|]. split; [|done].
  unfold rank. eapply lookup_lt_Some, Hn.
Qed.

Lemma insert_dim_shape (d : nat) (t out : tensor) :
  insert_dim d t = Ok out ->
  shape out = take d (shape t) ++ 1 :: drop d (shape t)
  /\ forall idx, elt out idx = elt t (delete d idx).
Proof.
  unfold insert_dim. destruct (d <=? rank t); [|done].
  intros H; inversion H; subst; simpl. done.
Qed.

(** ** The cache across calls of the model *)

Lemma ensure_cache_some (self : Mamba2Model) (e : tensor) (c : Mamba2Cache)
    (u : bool) :
  ensure_cache self e (Some c) u = Ok (Some c).
Proof. reflexivity. Qed.

Lemma advance_offset_shapes (e : tensor) (cp cp' : option Mamba2Cache)
    (u : bool) :
  advance_offset e cp u = Ok cp' -> same_shapes cp cp'.
Proof.
  unfold advance_offset. destruct u.
  - destruct cp as [c|]; [|done].
    destruct (shape e) as [|? [|L ?]]; try done.
    intros H; inversion H; subst. reflexivity.
  - intros H; inversion H; subst. apply same_shapes_refl.
Qed.

Lemma forward_shapes_from (ker : Kernels) (self : Mamba2Model)
    (ids : option ltensor) (emb : option tensor) (c : Mamba2Cache)
    (uc ohs rd : option bool) :
  same_shapes (Some c) (Mamba2Model_forward ker self ids emb (Some c) uc ohs rd).1.
Proof.
  unfold Mamba2Model_forward.
  destruct (xorb _ _); [done|].
  destruct (resolve_inputs_embeds self ids emb) as [e|]; [|done].
  rewrite ensure_cache_some.
  pose proof (run_layers_frame ker (layers self)
                (default (config_output_hidden_states (config self)) ohs)
                e [] (Some c)) as [H1 _].
  destruct (run_layers _ _ _ _ _ _) as [cp1 [[h all]|]]; simpl in *; [|done].
  destruct (advance_offset e cp1 (effective_use_cache self uc)) as [cp2|] eqn:Ha;
    simpl; [|done].
  apply advance_offset_shapes in Ha.
  exact (same_shapes_trans (Some c) cp1 cp2 H1 Ha).
Qed.

Lemma forward_shapes_fresh (ker : Kernels) (self : Mamba2Model)
    (ids : option ltensor) (emb : option tensor) (uc ohs rd : option bool) :
  match (Mamba2Model_forward ker self ids emb None uc ohs rd).1 with
  | None => True
  | Some c' =>
      exists batch_size,
        cache_shapes c' = cache_shapes (Mamba2Cache_init (config self) batch_size)
  end.
Proof.
  unfold Mamba2Model_forward.
  destruct (xorb _ _); [done|].
  destruct (resolve_inputs_embeds self ids emb) as [e|]; [|done].
  destruct (ensure_cache self e None (effective_use_cache self uc))
    as [cp0|] eqn:He; [|done].
  assert (Hcp0 : cp0 = None \/ exists b, cp0 = Some (Mamba2Cache_init (config self) b)).
  { unfold ensure_cache in He. simpl in He.
    destruct (effective_use_cache self uc).
    - destruct (shape e); inversion He; eauto.
    - inversion He; eauto. }
  pose proof (run_layers_frame ker (layers self)
                (default (config_output_hidden_states (config self)) ohs)
                e [] cp0) as [H1 _].
  destruct (run_layers _ _ _ _ _ _) as [cp1 [[h all]|]]; simpl in *.
  - destruct (advance_offset e cp1 (effective_use_cache self uc)) as [cp2|] eqn:Ha;
      simpl.
    + apply advance_offset_shapes in Ha.
      pose proof (same_shapes_trans _ _ _ H1 Ha) as H.
      destruct Hcp0 as [->|[b ->]], cp2; simpl in H; try done. eauto.
    + destruct Hcp0 as [->|[b ->]], cp1; simpl in H1; try done. eauto.
  - destruct Hcp0 as [->|[b ->]], cp1; simpl in H1; try done. eauto.
Qed.

Lemma run_calls_shapes (ker : Kernels) (self : Mamba2Model)
    (calls : list ForwardArgs) (c : Mamba2Cache) :
  same_shapes (Some c) (run_calls ker self calls (Some c)).
Proof.
  revert c. induction calls as [|a rest IH]; intros c; simpl; [done|].
  pose proof (forward_shapes_from ker self (arg_input_ids a)
                (arg_inputs_embeds a) c (arg_use_cache a)
                (arg_output_hidden_states a) (arg_return_dict a)) as H.
  destruct (Mamba2Model_forward _ _ _ _ _ _ _ _).1 as [c1|]; [|done].
  exact (same_shapes_trans (Some c) (Some c1) _ H (IH c1)).
Qed.

(** C4. Whatever calls of the model are issued against a cache, and
    whatever its [seqlen_offset], every layer's [conv_states] and
    [ssm_states] tensor keeps the shape it had: the forward pass writes
    them with [copy_] only.  A cache created by the call itself has the
    shapes of [Mamba2Cache.__init__]. *)
Theorem cache_shapes_unchanged (ker : Kernels) (self : Mamba2Model) :
  (forall (calls : list ForwardArgs) (c : Mamba2Cache),
     exists c', run_calls ker self calls (Some c) = Some c'
                /\ cache_shapes c' = cache_shapes c)
  /\ (forall (ids : option ltensor) (emb : option tensor)
             (uc ohs rd : option bool),
        match (Mamba2Model_forward ker self ids emb None uc ohs rd).1 with
        | None => True
        | Some c' =>
            exists batch_size,
              cache_shapes c'
              = cache_shapes (Mamba2Cache_init (config self) batch_size)
        end).
Proof.
  split.
  - intros calls c. pose proof (run_calls_shapes ker self calls c) as H.
    destruct (run_calls ker self calls (Some c)) as [c'|]; [eauto|done].
  - intros ids emb uc ohs rd. apply forward_shapes_fresh.
Qed.

(** ** Where the [ValueError] of line 597 can come from *)

Lemma not_xor_bind {A B : Type} (m : result A) (k : A -> result B) :
  not_xor_error m -> (forall a, not_xor_error (k a)) -> not_xor_error (m ≫= k).
Proof.
  unfold not_xor_error. destruct m as [a|e]; simpl; intros Hm Hk.
  - apply Hk.
  - intros H. apply Hm. inversion H. reflexivity.
Qed.

Lemma not_xor_raise {A B : Type} (m : result A) (e : exn) :
  m = Raise e -> not_xor_error m -> not_xor_error (@Raise B e).
Proof.
  unfold not_xor_error. intros -> Hm H. apply Hm. inversion H. reflexivity.
Qed.

Lemma not_xor_Ok {A : Type} (a : A) : not_xor_error (Ok a).
Proof. unfold not_xor_error. discriminate. Qed.

Ltac nx_prim :=
  unfold not_xor_error; intros; repeat case_match; try discriminate.

Create HintDb noxor.

Lemma nx_external {A : Type} (r : option A) : not_xor_error (external r).
Proof. unfold external. nx_prim. Qed.
Lemma nx_map2 f a b : not_xor_error (map2 f a b).
Proof. unfold map2. nx_prim. Qed.
Lemma nx_tmul a b : not_xor_error (tmul a b).
Proof. apply nx_map2. Qed.
Lemma nx_tadd a b : not_xor_error (tadd a b).
Proof. apply nx_map2. Qed.
Lemma nx_copy_ a b : not_xor_error (copy_ a b).
Proof. unfold copy_. nx_prim. Qed.
Lemma nx_iadd a b : not_xor_error (iadd a b).
Proof. unfold iadd. nx_prim. Qed.
Lemma nx_infer_shape d n : not_xor_error (infer_shape d n).
Proof. unfold infer_shape. nx_prim. Qed.
Lemma nx_reshape d t : not_xor_error (reshape d t).
Proof.
  unfold reshape. apply not_xor_bind; [apply nx_infer_shape|].
  intros; apply not_xor_Ok.
Qed.
Lemma nx_transpose12 t : not_xor_error (transpose12 t).
Proof. unfold transpose12. nx_prim. Qed.
Lemma nx_select d i t : not_xor_error (select d i t).
Proof. unfold select. nx_prim. Qed.
Lemma nx_select_in n d i t : not_xor_error (select_in n d i t).
Proof. unfold select_in. destruct (_ <=? _); [apply nx_select|nx_prim]. Qed.
Lemma nx_insert_dim d t : not_xor_error (insert_dim d t).
Proof. unfold insert_dim. nx_prim. Qed.
Lemma nx_index_none n d t : not_xor_error (index_none n d t).
Proof. unfold index_none. destruct (_ <=? _); [apply nx_insert_dim|nx_prim]. Qed.
Lemma nx_slice1_from s t : not_xor_error (slice1_from s t).
Proof. unfold slice1_from. nx_prim. Qed.
Lemma nx_split_last s t : not_xor_error (split_last s t).
Proof. unfold split_last. nx_prim. Qed.
Lemma nx_sum_last t : not_xor_error (sum_last t).
Proof. unfold sum_last. nx_prim. Qed.
Lemma nx_mean_last_keepdim t : not_xor_error (mean_last_keepdim t).
Proof. unfold mean_last_keepdim. nx_prim. Qed.
Lemma nx_roll_left_last t : not_xor_error (roll_left_last t).
Proof. unfold roll_left_last. nx_prim. Qed.
Lemma nx_pad_left_last p t : not_xor_error (pad_left_last p t).
Proof. unfold pad_left_last. nx_prim. Qed.
Lemma nx_setitem_last2 a b : not_xor_error (setitem_last2 a b).
Proof. unfold setitem_last2. nx_prim. Qed.
Lemma nx_matmul a b : not_xor_error (matmul a b).
Proof. unfold matmul. nx_prim. Qed.
Lemma nx_stack1 l : not_xor_error (stack1 l).
Proof. unfold stack1. nx_prim. Qed.
Lemma nx_cat_last a b : not_xor_error (cat_last a b).
Proof. unfold cat_last. nx_prim. Qed.
Lemma nx_linear l x : not_xor_error (Linear_forward l x).
Proof.
  unfold Linear_forward. repeat case_match; try (unfold not_xor_error; discriminate).
  apply nx_tadd.
Qed.
Lemma nx_conv1d c x : not_xor_error (Conv1d_forward c x).
Proof. unfold Conv1d_forward. nx_prim. Qed.
Lemma nx_embedding w ids : not_xor_error (embedding w ids).
Proof. unfold embedding. nx_prim. Qed.

#[local] Hint Resolve nx_external nx_tmul nx_tadd nx_copy_ nx_iadd nx_reshape
  nx_transpose12 nx_select_in nx_index_none nx_slice1_from nx_split_last
  nx_sum_last nx_mean_last_keepdim nx_roll_left_last nx_pad_left_last
  nx_setitem_last2 nx_matmul nx_stack1 nx_cat_last nx_linear nx_conv1d
  nx_embedding not_xor_Ok : noxor.

(** Steps through a computation in the [result] monad. *)
Ltac nx :=
  repeat match goal with
  | |- not_xor_error (mbind _ _) => apply not_xor_bind; [|intros]
  | |- not_xor_error (Raise _) => unfold not_xor_error; discriminate
  | |- not_xor_error (match ?x with _ => _ end) => destruct x
  | |- not_xor_error (if ?b then _ else _) => destruct b
  | |- not_xor_error (let '(_, _) := ?x in _) => destruct x
  | |- not_xor_error _ => solve [eauto with noxor]
  end.

Lemma nx_rms_normalize eps h : not_xor_error (rms_normalize eps h).
Proof. unfold rms_normalize. nx. Qed.
#[local] Hint Resolve nx_rms_normalize : noxor.

Lemma nx_MambaRMSNormGated_forward self h g :
  not_xor_error (MambaRMSNormGated_forward self h g).
Proof. unfold MambaRMSNormGated_forward. nx. Qed.

Lemma nx_Mamba2RMSNorm_forward self h :
  not_xor_error (Mamba2RMSNorm_forward self h).
Proof. unfold Mamba2RMSNorm_forward. nx. Qed.
#[local] Hint Resolve nx_MambaRMSNormGated_forward nx_Mamba2RMSNorm_forward
  : noxor.

Lemma unpack_few_not_xor (got : nat) :
  ValueError (unpack_few got) <> ValueError xor_msg.
Proof. discriminate. Qed.

Lemma unpack_many_not_xor : ValueError unpack_many <> ValueError xor_msg.
Proof. discriminate. Qed.

Lemma nx_project_and_split self x : not_xor_error (project_and_split self x).
Proof.
  unfold project_and_split.
  repeat match goal with
  | |- not_xor_error (Raise (ValueError (unpack_few _))) =>
      intros H; inversion H
  | |- not_xor_error (Raise (ValueError unpack_many)) =>
      intros H; inversion H
  | |- not_xor_error (mbind _ _) => apply not_xor_bind; [|intros]
  | |- not_xor_error (Raise _) => unfold not_xor_error; discriminate
  | |- not_xor_error (match ?x with _ => _ end) => destruct x
  | |- not_xor_error _ => solve [eauto with noxor]
  end.
Qed.

Lemma nx_conv_decode self c h : not_xor_error (conv_decode self c h).2.
Proof.
  unfold conv_decode.
  destruct (conv_states c !! layer_idx self) as [buf|]; simpl; [|nx].
  destruct (roll_left_last buf) as [rolled|e] eqn:H1; simpl.
  - destruct (setitem_last2 rolled h) as [cs|e] eqn:H2; simpl.
    + destruct (copy_ buf cs) as [w|e] eqn:H3; simpl.
      * nx.
      * rewrite <- H3. apply nx_copy_.
    + rewrite <- H2. apply nx_setitem_last2.
  - rewrite <- H1. apply nx_roll_left_last.
Qed.

Lemma nx_conv_prefill self c h : not_xor_error (conv_prefill self c h).2.
Proof.
  unfold conv_prefill.
  destruct (transpose12 h) as [ht|e] eqn:H1; simpl.
  - destruct (pad_left_last _ ht) as [cs|e] eqn:H2; simpl.
    + destruct (conv_states c !! layer_idx self) as [buf|]; simpl; [|nx].
      destruct (copy_ buf cs) as [w|e] eqn:H3; simpl.
      * nx.
      * rewrite <- H3. apply nx_copy_.
    + rewrite <- H2. apply nx_pad_left_last.
  - rewrite <- H1. apply nx_transpose12.
Qed.

Lemma nx_conv_nocache self h : not_xor_error (conv_nocache self h).
Proof. unfold conv_nocache. nx. Qed.
#[local] Hint Resolve nx_conv_nocache : noxor.

Lemma nx_conv_stage self cp b h : not_xor_error (conv_stage self cp b h).2.
Proof.
  unfold conv_stage. destruct cp as [c|]; simpl; [|nx].
  destruct (ssm_states c !! layer_idx self); simpl; [|nx].
  destruct (0 <? seqlen_offset c)%Z.
  - pose proof (nx_conv_decode self c h).
    destruct (conv_decode self c h); simpl in *. nx.
  - pose proof (nx_conv_prefill self c h).
    destruct (conv_prefill self c h); simpl in *. nx.
Qed.

Lemma nx_discretize self b l dt h : not_xor_error (discretize self b l dt h).
Proof. unfold discretize. nx. Qed.

Lemma nx_state_update dA dBu i s : not_xor_error (state_update dA dBu i s).
Proof. unfold state_update. nx. Qed.
#[local] Hint Resolve nx_discretize nx_state_update : noxor.

Lemma nx_scan_step dA dBu C i s : not_xor_error (scan_step dA dBu C i s).
Proof. unfold scan_step. nx. Qed.
#[local] Hint Resolve nx_scan_step : noxor.

Lemma nx_scan_loop dA dBu C steps s outs :
  not_xor_error (scan_loop dA dBu C steps s outs).
Proof.
  revert s outs. induction steps as [|i rest IH]; intros s outs; simpl.
  - apply not_xor_Ok.
  - apply not_xor_bind; [apply nx_scan_step|]. intros [s' o]. apply IH.
Qed.
#[local] Hint Resolve nx_scan_loop : noxor.

Lemma nx_recurrence dA dBu C l s : not_xor_error (recurrence dA dBu C l s).
Proof. unfold recurrence. nx. Qed.

Lemma nx_skip_and_gate self p h o : not_xor_error (skip_and_gate self p h o).
Proof. unfold skip_and_gate. nx. Qed.
#[local] Hint Resolve nx_recurrence nx_skip_and_gate : noxor.

Lemma nx_scan_stage self p s h : not_xor_error (scan_stage self p s h).
Proof. unfold scan_stage. nx. Qed.
#[local] Hint Resolve nx_scan_stage : noxor.

Lemma nx_ssm_stage self p s h : not_xor_error (ssm_stage self p s h).
Proof. unfold ssm_stage. nx. Qed.

Lemma nx_write_ssm_state self cp s :
  not_xor_error (write_ssm_state self cp s).2.
Proof.
  unfold write_ssm_state. destruct cp as [c|]; simpl; [|nx].
  destruct (ssm_states c !! layer_idx self) as [slot|]; simpl; [|nx].
  destruct (copy_ slot s) as [w|e] eqn:H; simpl; [nx|].
  exact (not_xor_raise _ _ H (nx_copy_ slot s)).
Qed.

Lemma nx_slow_forward self x cp : not_xor_error (slow_forward self x cp).2.
Proof.
  unfold slow_forward.
  destruct (project_and_split self x) as [p|e] eqn:H1; simpl;
    [|exact (not_xor_raise _ _ H1 (nx_project_and_split self x))].
  pose proof (nx_conv_stage self cp (p_batch_size p) (p_hidden_states p)) as H2.
  destruct (conv_stage self cp (p_batch_size p) (p_hidden_states p))
    as [cp1 [[s h]|e]]; simpl in *;
    [|exact (not_xor_raise _ _ eq_refl H2)].
  destruct (ssm_stage self p s h) as [[s' o]|e] eqn:H3; simpl;
    [|exact (not_xor_raise _ _ H3 (nx_ssm_stage self p s h))].
  pose proof (nx_write_ssm_state self cp1 s') as H4.
  destruct (write_ssm_state self cp1 s') as [cp2 [u|e]] eqn:H5; simpl in *;
    [|exact (not_xor_raise _ _ eq_refl H4)].
  nx.
Qed.

Lemma nx_cuda_kernels_forward ker self x cp :
  not_xor_error (cuda_kernels_forward ker self x cp).
Proof. unfold cuda_kernels_forward. nx. Qed.

Lemma nx_Mamba2Mixer_forward ker self x cp :
  not_xor_error (Mamba2Mixer_forward ker self x cp).2.
Proof.
  unfold Mamba2Mixer_forward. destruct (is_fast_path_available ker); simpl.
  - apply nx_cuda_kernels_forward.
  - apply nx_slow_forward.
Qed.

Lemma nx_Mamba2Block_forward ker self x cp :
  not_xor_error (Mamba2Block_forward ker self x cp).2.
Proof.
  unfold Mamba2Block_forward.
  destruct (Mamba2RMSNorm_forward _ x) as [h|e] eqn:H1; simpl;
    [|rewrite <- H1; apply nx_Mamba2RMSNorm_forward].
  pose proof (nx_Mamba2Mixer_forward ker (mixer self) h cp) as H2.
  destruct (Mamba2Mixer_forward ker (mixer self) h cp) as [cp1 [y|e]];
    simpl in *; [apply nx_tadd | exact H2].
Qed.

Lemma nx_run_layers ker blocks o x acc cp :
  not_xor_error (run_layers ker blocks o x acc cp).2.
Proof.
  revert x acc cp. induction blocks as [|blk rest IH]; intros x acc cp; simpl.
  - apply not_xor_Ok.
  - pose proof (nx_Mamba2Block_forward ker blk x cp) as H.
    destruct (Mamba2Block_forward ker blk x cp) as [cp1 [y|e]]; simpl in *.
    + apply IH.
    + exact (not_xor_raise _ _ eq_refl H).
Qed.

Lemma nx_resolve_inputs_embeds self ids emb :
  not_xor_error (resolve_inputs_embeds self ids emb).
Proof. unfold resolve_inputs_embeds. nx. Qed.

Lemma nx_ensure_cache self e cp u : not_xor_error (ensure_cache self e cp u).
Proof. unfold ensure_cache. nx. Qed.

Lemma nx_advance_offset e cp u : not_xor_error (advance_offset e cp u).
Proof. unfold advance_offset. nx_prim. Qed.

(** Once the check of line 596 has passed, nothing in the rest of the
    forward pass raises that exception. *)
Lemma forward_past_guard (ker : Kernels) (self : Mamba2Model)
    (ids : option ltensor) (emb : option tensor) (cp : option Mamba2Cache)
    (uc ohs rd : option bool) :
  xorb (negb (is_Some_b ids)) (is_Some_b emb) = false ->
  not_xor_error (Mamba2Model_forward ker self ids emb cp uc ohs rd).2.
Proof.
  intros Hx. unfold Mamba2Model_forward. rewrite Hx.
  destruct (resolve_inputs_embeds self ids emb) as [e|err] eqn:H1; simpl;
    [|exact (not_xor_raise _ _ H1 (nx_resolve_inputs_embeds self ids emb))].
  destruct (ensure_cache self e cp (effective_use_cache self uc))
    as [cp0|err] eqn:H2; simpl;
    [|exact (not_xor_raise _ _ H2 (nx_ensure_cache self e cp _))].
  pose proof (nx_run_layers ker (layers self)
                (default (config_output_hidden_states (config self)) ohs)
                e [] cp0) as H3.
  destruct (run_layers _ _ _ _ _ _) as [cp1 [[h all]|err]]; simpl in *;
    [|exact (not_xor_raise _ _ eq_refl H3)].
  destruct (advance_offset e cp1 (effective_use_cache self uc))
    as [cp2|err] eqn:H4; simpl;
    [|exact (not_xor_raise _ _ H4 (nx_advance_offset e cp1 _))].
  nx.
Qed.

(** C10. [Mamba2Model.forward] raises the [ValueError] of line 597 exactly
    when [input_ids] and [inputs_embeds] are both given or both missing,
    and then before anything else happened; with exactly one of them the
    call goes past the check and that exception is not raised. *)
Theorem forward_value_error_iff (ker : Kernels) (self : Mamba2Model)
    (input_ids : option ltensor) (inputs_embeds : option tensor)
    (cache_params : option Mamba2Cache) (uc ohs rd : option bool) :
  let r := Mamba2Model_forward ker self input_ids inputs_embeds cache_params
             uc ohs rd in
  (r.2 = Raise (ValueError xor_msg)
   <-> (input_ids <> None /\ inputs_embeds <> None)
       \/ (input_ids = None /\ inputs_embeds = None))
  /\ (r.2 = Raise (ValueError xor_msg) -> r.1 = cache_params).
Proof.
  cbv zeta.
  destruct input_ids as [ids|], inputs_embeds as [emb|].
  - unfold Mamba2Model_forward; simpl. split; [|done].
    split; [intros _; left; split; discriminate | done].
  - pose proof (forward_past_guard ker self (Some ids) None cache_params
                  uc ohs rd eq_refl) as H.
    split; [|intros H'; destruct (H H')].
    split; [intros H'; destruct (H H')|].
    intros [[_ Hn]|[Hn _]]; [destruct Hn; reflexivity | discriminate Hn].
  - pose proof (forward_past_guard ker self None (Some emb) cache_params
                  uc ohs rd eq_refl) as H.
    split; [|intros H'; destruct (H H')].
    split; [intros H'; destruct (H H')|].
    intros [[Hn _]|[_ Hn]]; [destruct Hn; reflexivity | discriminate Hn].
  - unfold Mamba2Model_forward; simpl. split; [|done].
    split; [intros _; right; split; reflexivity | done].
Qed.

(** ** The sequence offset *)

Lemma advance_offset_spec (e : tensor) (cp cp' : option Mamba2Cache)
    (u : bool) :
  advance_offset e cp u = Ok cp' ->
  same_shapes cp cp' /\
  match cp, cp' with
  | Some c, Some c' =>
      if u
      then exists b L rest,
             shape e = b :: L :: rest
             /\ seqlen_offset c' = (seqlen_offset c + Z.of_nat L)%Z
      else seqlen_offset c' = seqlen_offset c
  | _, _ => True
  end.
Proof.
  intros H. split; [eauto using advance_offset_shapes|].
  unfold advance_offset in H. destruct u.
  - destruct cp as [c|]; [|done].
    destruct (shape e) as [|b [|L rest]]; try done.
    inversion H; subst; simpl. eauto.
  - inversion H; subst. destruct cp'; done.
Qed.

Lemma forward_offset (ker : Kernels) (self : Mamba2Model)
    (ids : option ltensor) (emb : option tensor) (c : Mamba2Cache)
    (uc ohs rd : option bool) :
  let r := Mamba2Model_forward ker self ids emb (Some c) uc ohs rd in
  exists c',
    r.1 = Some c'
    /\ (seqlen_offset c' = seqlen_offset c
        /\ (effective_use_cache self uc = true -> is_ok r.2 = false)
        \/ effective_use_cache self uc = true
           /\ exists e b L rest,
                resolve_inputs_embeds self ids emb = Ok e
                /\ shape e = b :: L :: rest
                /\ seqlen_offset c' = (seqlen_offset c + Z.of_nat L)%Z).
Proof.
  cbv zeta. unfold Mamba2Model_forward.
  destruct (xorb _ _); [exists c; simpl; split; [done|by left]|].
  destruct (resolve_inputs_embeds self ids emb) as [e|err];
    [|exists c; simpl; split; [done|by left]].
  rewrite ensure_cache_some.
  pose proof (run_layers_frame ker (layers self)
                (default (config_output_hidden_states (config self)) ohs)
                e [] (Some c)) as [_ H1].
  destruct (run_layers _ _ _ _ _ _) as [cp1 [[h all]|err]]; simpl in H1;
    destruct cp1 as [c1|]; try done.
  - destruct (advance_offset e (Some c1) (effective_use_cache self uc))
      as [cp2|err] eqn:Ha; simpl.
    + apply advance_offset_spec in Ha as [Hs Ho].
      destruct cp2 as [c2|]; [|done]. exists c2. split; [done|].
      destruct (effective_use_cache self uc).
      * destruct Ho as (b & L & rest & Hshape & Hoff).
        right. split; [done|]. exists e, b, L, rest.
        rewrite Hoff, H1. done.
      * left. split; [congruence|discriminate].
    + exists c1. simpl. split; [done|by left].
  - exists c1. simpl. split; [done|by left].
Qed.

Lemma conv_stage_path (self : Mamba2Mixer) (c : Mamba2Cache) (s : tensor)
    (batch_size : nat) (h : tensor) :
  ssm_states c !! layer_idx self = Some s ->
  conv_stage self (Some c) batch_size h
  = if (0 <? seqlen_offset c)%Z
    then (Some (conv_decode self c h).1,
          h' ← (conv_decode self c h).2; Ok (s, h'))
    else (Some (conv_prefill self c h).1,
          h' ← (conv_prefill self c h).2; Ok (s, h')).
Proof.
  intros Hs. unfold conv_stage. rewrite Hs.
  destruct (0 <? seqlen_offset c)%Z.
  - destruct (conv_decode self c h); reflexivity.
  - destruct (conv_prefill self c h); reflexivity.
Qed.

(** C7 (as amended). The offset of a cache passed to
    [Mamba2Model.forward] never decreases; the call leaves it unchanged
    when caching is off ([use_cache] false after the defaults of lines 593
    and 604), and a call that returns with caching on has added the
    sequence length of the embeddings to it.  In [slow_forward], a cache
    whose offset is positive sends the convolution through the
    single-step branch, any other through the whole-sequence branch. *)
Theorem seqlen_offset_after_forward (ker : Kernels) (self : Mamba2Model)
    (ids : option ltensor) (emb : option tensor) (c : Mamba2Cache)
    (uc ohs rd : option bool) :
  let r := Mamba2Model_forward ker self ids emb (Some c) uc ohs rd in
  (exists c',
     r.1 = Some c'
     /\ (seqlen_offset c <= seqlen_offset c')%Z
     /\ (effective_use_cache self uc = false ->
         seqlen_offset c' = seqlen_offset c)
     /\ (effective_use_cache self uc = true -> is_ok r.2 = true ->
         exists e b L rest,
           resolve_inputs_embeds self ids emb = Ok e
           /\ shape e = b :: L :: rest
           /\ seqlen_offset c' = (seqlen_offset c + Z.of_nat L)%Z))
  /\ (forall (m : Mamba2Mixer) (s : tensor) (batch_size : nat) (h : tensor),
        ssm_states c !! layer_idx m = Some s ->
        ((0 < seqlen_offset c)%Z ->
         conv_stage m (Some c) batch_size h
         = (Some (conv_decode m c h).1,
            h' ← (conv_decode m c h).2; Ok (s, h')))
        /\ ((seqlen_offset c <= 0)%Z ->
            conv_stage m (Some c) batch_size h
            = (Some (conv_prefill m c h).1,
               h' ← (conv_prefill m c h).2; Ok (s, h')))).
Proof.
  cbv zeta. split.
  - destruct (forward_offset ker self ids emb c uc ohs rd)
      as (c' & Hc' & Hcase).
    exists c'. split; [exact Hc'|].
    destruct Hcase as [[Heq Hraise]|[Hu (e & b & L & rest & He & Hs & Hoff)]].
    + split; [lia|]. split; [done|].
      intros Hu Hok. rewrite (Hraise Hu) in Hok. discriminate Hok.
    + split; [lia|]. split; [congruence|]. intros _ _. eauto 10.
  - intros m s batch_size h Hs.
    rewrite (conv_stage_path m c s batch_size h Hs).
    split; intros Ho.
    + apply Z.ltb_lt in Ho. rewrite Ho. reflexivity.
    + apply Z.ltb_ge in Ho. rewrite Ho. reflexivity.
Qed.

(** The offset after a call on a model without layers, caching on. *)
Lemma seqlen_offset_after_forward_witness :
  exists c',
    (Mamba2Model_forward no_kernels model_nolayers None (Some (ones [1; 2; 1]))
       (Some (cache_ex 1)) (Some true) None None).1 = Some c'
    /\ seqlen_offset c' = 2%Z.
Proof.
  destruct (seqlen_offset_after_forward no_kernels model_nolayers None
              (Some (ones [1; 2; 1])) (cache_ex 1) (Some true) None None)
    as [(c' & Hc' & _ & _ & Hadv) _].
  exists c'. split; [exact Hc'|].
  destruct (Hadv eq_refl eq_refl) as (e & b & L & rest & He & Hs & Hoff).
  inversion He; subst e. inversion Hs; subst. exact Hoff.
Defined.

(** C7 (as stated) fails: a call that passes a cache with [use_cache]
    false returns normally on a sequence of length two and leaves the
    offset at zero. *)
Lemma offset_not_advanced_without_use_cache :
  exists c',
    (Mamba2Model_forward no_kernels model_nolayers None (Some (ones [1; 2; 1]))
       (Some (cache_ex 1)) (Some false) None None).1 = Some c'
    /\ is_ok (Mamba2Model_forward no_kernels model_nolayers None
                (Some (ones [1; 2; 1])) (Some (cache_ex 1)) (Some false)
                None None).2 = true
    /\ seqlen_offset (cache_ex 1) = 0%Z
    /\ seqlen_offset c' <> (seqlen_offset (cache_ex 1) + 2)%Z.
Proof.
  eexists. split; [reflexivity|]. split; [reflexivity|].
  split; [reflexivity|]. simpl. lia.
Qed.

(** ** The single-step path of [slow_forward] *)

Lemma conv_decode_last_dim (self : Mamba2Mixer) (c : Mamba2Cache)
    (h out : tensor) :
  (conv_decode self c h).2 = Ok out -> last_dim (shape out) = Some 1.
Proof.
  unfold conv_decode.
  destruct (conv_states c !! layer_idx self) as [buf|]; [|done].
  destruct (roll_left_last buf) as [rolled|]; simpl; [|done].
  destruct (setitem_last2 rolled h) as [cs|]; simpl; [|done].
  destruct (copy_ buf cs) as [w|]; simpl; [|done].
  destruct (select_in 3 1 0 _) as [wt|]; simpl; [|done].
  destruct (tmul cs wt) as [prod|]; simpl; [|done].
  destruct (sum_last prod) as [sm|]; simpl; [|done].
  destruct (if use_conv_bias self then _ else _) as [hb|]; simpl; [|done].
  intros H; inversion H; subst; simpl.
  unfold last_dim. apply last_snoc.
Qed.

Lemma split_last_wrong_total (sizes : list Z) (t : tensor) (n : nat) :
  last_dim (shape t) = Some n ->
  fold_right Z.add 0%Z sizes <> Z.of_nat n ->
  exists e, split_last sizes t = Raise e.
Proof.
  intros Hl Hs. unfold split_last. rewrite Hl.
  destruct (existsb _ sizes); [eauto|].
  destruct (Z.eqb_spec (fold_right Z.add 0%Z sizes) (Z.of_nat n)); [done|eauto].
Qed.

Lemma discretize_after_decode (self : Mamba2Mixer) (b l : nat)
    (dt h : tensor) :
  last_dim (shape h) = Some 1 ->
  intermediate_size self + 2 * (n_groups self * ssm_state_size self) <> 1 ->
  exists e, discretize self b l dt h = Raise e.
Proof.
  intros Hl Hn. unfold discretize.
  destruct (split_last_wrong_total
              [Z.of_nat (intermediate_size self);
               Z.of_nat (n_groups self * ssm_state_size self);
               Z.of_nat (n_groups self * ssm_state_size self)] h 1 Hl)
    as [e He].
  - simpl. lia.
  - rewrite He. simpl. eauto.
Qed.

(** C1 (the code against it). With a cache whose offset is positive, the
    single-step mode of [slow_forward] never returns an output: whatever
    the input, the call raises.  (The sizes exclude only the degenerate
    convolution width of one channel.)  Feeding tokens one at a time
    therefore cannot reproduce the outputs of a whole-sequence call. *)
Theorem single_step_mode_raises (self : Mamba2Mixer) (x : tensor)
    (c : Mamba2Cache) :
  (0 < seqlen_offset c)%Z ->
  intermediate_size self + 2 * (n_groups self * ssm_state_size self) <> 1 ->
  exists e, (slow_forward self x (Some c)).2 = Raise e.
Proof.
  intros Ho Hn. unfold slow_forward.
  destruct (project_and_split self x) as [p|e]; [|simpl; eauto].
  unfold conv_stage.
  destruct (ssm_states c !! layer_idx self) as [s|]; [|simpl; eauto].
  apply Z.ltb_lt in Ho. rewrite Ho.
  pose proof (conv_decode_last_dim self c (p_hidden_states p)) as Hl.
  destruct (conv_decode self c (p_hidden_states p)) as [c1 [h|e]];
    simpl in *; [|eauto].
  unfold ssm_stage, scan_stage.
  destruct (discretize_after_decode self (p_batch_size p) (p_seq_len p)
              (p_dt p) h (Hl h eq_refl) Hn) as [e He].
  rewrite He. simpl. eauto.
Qed.

(** One token against a cache that has already counted one step. *)
Lemma single_step_mode_raises_witness :
  (0 < seqlen_offset (cache_ex_decoding 1))%Z
  /\ exists e,
       (slow_forward mixer_ex (ones [1; 1; 1])
          (Some (cache_ex_decoding 1))).2 = Raise e.
Proof.
  split; [reflexivity|].
  apply (single_step_mode_raises mixer_ex (ones [1; 1; 1])
           (cache_ex_decoding 1)).
  - reflexivity.
  - simpl. lia.
Defined.

(** The whole-sequence call that would fill a fresh cache raises as well:
    the state it computes has one more dimension than the cache slot. *)
Lemma prefill_into_fresh_cache_raises :
  (slow_forward mixer_ex (ones [1; 2; 1]) (Some (cache_ex 1))).2
  = Raise RuntimeError.
Proof. vm_compute. reflexivity. Qed.

(** The same mixer without a cache returns on a sequence whose length is
    the kernel width minus one. *)
Lemma slow_forward_without_cache_returns :
  is_ok (slow_forward mixer_ex (ones [1; 1; 1]) None).2 = true.
Proof. vm_compute. reflexivity. Qed.

(** ** The state update *)

Lemma ix_insert_1 (j : list nat) (i : nat) :
  1 <= length j -> ix (take 1 j ++ i :: drop 1 j) 1 = i.
Proof. destruct j as [|a j]; simpl; [lia|]. reflexivity. Qed.

Lemma length_insert_one (d : nat) (s : list nat) :
  length (take d s ++ 1 :: drop d s) = S (length s).
Proof.
  rewrite length_app, length_take. simpl. rewrite length_drop. lia.
Qed.

(** C9. If the discrete decay factors of time step [i] are zero, the
    state after the update of that step is that step's input injection
    (broadcast to the state's shape), whatever the prior state was. *)
Theorem zero_decay_forgets_state (discrete_A deltaB_u : tensor) (i : nat)
    (ssm_state new_state : tensor) :
  (forall idx, ix idx 1 = i -> elt discrete_A idx = 0%R) ->
  state_update discrete_A deltaB_u i ssm_state = Ok new_state ->
  exists inject,
    select_in 4 1 i deltaB_u = Ok inject
    /\ forall idx, in_range (shape new_state) idx = true ->
                   elt new_state idx = bget inject idx.
Proof.
  intros Hz. unfold state_update.
  destruct (select_in 3 1 i discrete_A) as [d1|] eqn:H1; simpl; [|done].
  destruct (index_none 2 2 d1) as [d2|] eqn:H2; simpl; [|done].
  destruct (index_none 2 2 d2) as [d3|] eqn:H3; simpl; [|done].
  destruct (tmul ssm_state d3) as [decayed|] eqn:H4; simpl; [|done].
  destruct (select_in 4 1 i deltaB_u) as [inject|] eqn:H5; simpl; [|done].
  intros H6. exists inject. split; [reflexivity|].
  intros idx Hidx.
  rewrite (map2_elt _ _ _ _ idx H6).
  unfold bget at 1. rewrite (map2_elt _ _ _ _ _ H4).
  (* the decay factor read for this entry belongs to step [i] *)
  assert (Hd : bget d3 (bidx (shape decayed) idx) = 0%R).
  { unfold select_in in H1. destruct (3 <=? rank discrete_A) eqn:Hr; [|done].
    apply Nat.leb_le in Hr.
    apply select_shape in H1 as (Hs1 & _ & He1).
    unfold index_none in H2, H3.
    destruct (2 <=? rank d1) eqn:Hr1; [|done].
    destruct (2 <=? rank d2) eqn:Hr2; [|done].
    apply insert_dim_shape in H2 as (Hs2 & He2).
    apply insert_dim_shape in H3 as (Hs3 & He3).
    apply Nat.leb_le in Hr1, Hr2. unfold rank in *.
    assert (Hl3 : length (shape d3) = length (shape d1) + 2).
    { rewrite Hs3, length_insert_one, Hs2, length_insert_one. lia. }
    apply in_range_length in Hidx.
    apply map2_shape, bshape_length in H6.
    apply map2_shape, bshape_length in H4.
    unfold bget. rewrite He3, He2, He1. apply Hz.
    apply ix_insert_1.
    assert (Hb : length (bidx (shape d3) (bidx (shape decayed) idx))
                 = length (shape d3)).
    { apply bidx_length. rewrite bidx_length; lia. }
    assert (Hdel : forall l : list nat, 3 <= length l ->
                     2 <= length (delete 2 l)).
    { intros [|a [|b [|c l]]]; simpl; lia. }
    assert (Hdel' : forall l : list nat, 2 <= length l ->
                      1 <= length (delete 2 l)).
    { intros [|a [|b [|c l]]]; simpl; lia. }
    apply Hdel', Hdel. lia. }
  rewrite Hd. lra.
Qed.

(** A state of ones, a zero decay and an injection of twos: the new state
    is the injection. *)
Lemma zero_decay_forgets_state_witness :
  exists new_state,
    state_update (zeros [1; 1; 1]) (mkT [1; 1; 1; 2; 2] (fun _ => 2%R)) 0
      (ones [1; 2; 2]) = Ok new_state
    /\ elt new_state [0; 0; 1; 1] = 2%R.
Proof.
  eexists. split; [reflexivity|].
  destruct (zero_decay_forgets_state (zeros [1; 1; 1])
              (mkT [1; 1; 1; 2; 2] (fun _ => 2%R)) 0 (ones [1; 2; 2]) _
              (fun _ _ => eq_refl) eq_refl) as (inject & Hi & He).
  rewrite (He [0; 0; 1; 1] eq_refl).
  inversion Hi; subst inject. reflexivity.
Defined.

(** ** Real-number facts about the pointwise functions *)

Tactic Notation "teval" :=
  lazy -[Rplus Rmult Ropp Rinv Rminus Rdiv exp ln sqrt Rlt_dec IZR INR
         silu softplus rsqrt].
Tactic Notation "teval" "in" hyp(H) :=
  lazy -[Rplus Rmult Ropp Rinv Rminus Rdiv exp ln sqrt Rlt_dec IZR INR
         silu softplus rsqrt] in H.

Local Open Scope R_scope.

Lemma silu_0 : silu 0 = 0.
Proof. unfold silu. lra. Qed.

Lemma silu_pos (x : R) : 0 < x -> 0 < silu x.
Proof.
  intros Hx. unfold silu. apply Rdiv_lt_0_compat; [exact Hx|].
  pose proof (exp_pos (- x)). lra.
Qed.

Lemma silu_1_lt_1 : silu 1 < 1.
Proof.
  unfold silu. pose proof (exp_pos (- 1)) as He.
  apply Rmult_lt_reg_r with (1 + exp (- 1)); [lra|].
  unfold Rdiv. rewrite Rmult_assoc, Rinv_l; lra.
Qed.

Lemma softplus_pos (x : R) : 0 < softplus x.
Proof.
  unfold softplus. destruct (Rlt_dec 20 x); [lra|].
  rewrite <- ln_1. apply ln_increasing; [lra|].
  pose proof (exp_pos x). lra.
Qed.

Lemma sqrt_sq_pos (x : R) : 0 < x -> 0 < sqrt x /\ sqrt x * sqrt x = x.
Proof.
  intros Hx. split; [apply sqrt_lt_R0, Hx | apply sqrt_sqrt; lra].
Qed.

Lemma silu_1_gt_half : 1 / 2 < silu 1.
Proof.
  unfold silu. set (E := exp _).
  assert (He : 0 < E < 1).
  { unfold E. split; [apply exp_pos|].
    apply Rlt_le_trans with (exp 0); [apply exp_increasing; lra|].
    rewrite exp_0. lra. }
  apply Rmult_lt_reg_r with (1 + E); [lra|].
  replace (1 / (1 + E) * (1 + E)) with 1 by (field; lra).
  lra.
Qed.

(** Bounds on [u / sqrt (u^2 + e)] from bounds on its square. *)
Lemma normalized_above (u e c : R) :
  0 < u -> 0 < e -> 0 < c ->
  c * c * (u * u + e) < u * u -> c < u * rsqrt (u * u + e).
Proof.
  intros Hu He Hc H. unfold rsqrt.
  destruct (sqrt_sq_pos (u * u + e)) as [Ht Ht2]; [nra|].
  set (t := sqrt (u * u + e)) in *.
  apply Rmult_lt_reg_r with t; [exact Ht|].
  rewrite Rmult_assoc, Rinv_l by lra.
  assert (Hct : 0 < c * t) by (apply Rmult_lt_0_compat; assumption).
  destruct (Rlt_dec (c * t) u) as [Hlt|Hge]; [lra|]. exfalso.
  assert (Hsq : u * u <= (c * t) * (c * t)) by (apply Rmult_le_compat; lra).
  replace ((c * t) * (c * t)) with (c * c * (t * t)) in Hsq by ring.
  rewrite Ht2 in Hsq. lra.
Qed.

Lemma normalized_below (u e c : R) :
  0 < u -> 0 < e -> 0 < c ->
  u * u < c * c * (u * u + e) -> u * rsqrt (u * u + e) < c.
Proof.
  intros Hu He Hc H. unfold rsqrt.
  destruct (sqrt_sq_pos (u * u + e)) as [Ht Ht2]; [nra|].
  set (t := sqrt (u * u + e)) in *.
  apply Rmult_lt_reg_r with t; [exact Ht|].
  rewrite Rmult_assoc, Rinv_l by lra.
  assert (Hct : 0 < c * t) by (apply Rmult_lt_0_compat; assumption).
  destruct (Rlt_dec u (c * t)) as [Hlt|Hge]; [lra|]. exfalso.
  assert (Hsq : (c * t) * (c * t) <= u * u) by (apply Rmult_le_compat; lra).
  replace ((c * t) * (c * t)) with (c * c * (t * t)) in Hsq by ring.
  rewrite Ht2 in Hsq. lra.
Qed.

(** ** The gated normalization, element by element *)

Local Close Scope R_scope.

Lemma rsum_ext (n : nat) (f g : nat -> R) :
  (forall q, q < n -> f q = g q) -> rsum n f = rsum n g.
Proof.
  intros H. unfold rsum.
  assert (Hin : forall q, In q (seq 0 n) -> f q = g q).
  { intros q Hq. apply in_seq in Hq. apply H. lia. }
  induction (seq 0 n) as [|q qs IH]; simpl; [reflexivity|].
  rewrite (Hin q) by (left; reflexivity).
  rewrite IH; [reflexivity|]. intros q' Hq'. apply Hin. right. exact Hq'.
Qed.

Lemma bshape_same3 (b l n : nat) : bshape [b; l; n] [b; l; n] = Some [b; l; n].
Proof. unfold bshape; simpl. rewrite !Nat.eqb_refl. reflexivity. Qed.

Lemma bshape_keepdim3 (b l n : nat) :
  bshape [b; l; n] [b; l; 1] = Some [b; l; n].
Proof.
  unfold bshape; simpl. rewrite !Nat.eqb_refl.
  destruct (Nat.eqb_spec n 1); [subst|]; reflexivity.
Qed.

Lemma bshape_vec3 (b l n : nat) : bshape [n] [b; l; n] = Some [b; l; n].
Proof. unfold bshape; simpl. rewrite !Nat.eqb_refl. reflexivity. Qed.

Ltac bidx_dims :=
  unfold bidx; simpl;
  repeat f_equal; case_match; try reflexivity;
  match goal with H : (_ =? 1) = true |- _ => apply Nat.eqb_eq in H; lia end.

Lemma bidx_same3 (b l n i j k : nat) :
  i < b -> j < l -> k < n -> bidx [b; l; n] [i; j; k] = [i; j; k].
Proof. intros Hi Hj Hk. bidx_dims. Qed.

Lemma bidx_keepdim3 (b l i j k : nat) :
  i < b -> j < l -> bidx [b; l; 1] [i; j; k] = [i; j; 0].
Proof. intros Hi Hj. bidx_dims. Qed.

Lemma bidx_vec3 (n i j k : nat) : k < n -> bidx [n] [i; j; k] = [k].
Proof. intros Hk. bidx_dims. Qed.

(** [rms_normalize] on a rank-three tensor divides every row by its
    floored root mean square. *)
Lemma rms_normalize_elt (eps : R) (x : tensor) (b l n : nat) :
  shape x = [b; l; n] ->
  exists y,
    rms_normalize eps x = Ok y
    /\ shape y = [b; l; n]
    /\ forall i j k, i < b -> j < l -> k < n ->
         elt y [i; j; k]
         = (elt x [i; j; k] / rms eps n (fun q => elt x [i; j; q]))%R.
Proof.
  intros Hs. unfold rms_normalize, mean_last_keepdim, tmap; simpl.
  rewrite Hs; simpl. unfold tmul, map2; simpl.
  rewrite Hs, bshape_keepdim3.
  eexists. split; [reflexivity|]. split; [reflexivity|].
  intros i j k Hi Hj Hk; simpl. unfold bget. rewrite Hs.
  rewrite bidx_same3, bidx_keepdim3 by assumption.
  simpl. unfold rsqrt, rms, Rdiv. reflexivity.
Qed.

(** What [MambaRMSNormGated.forward] computes for a positive epsilon, on
    a rank-three activation with a gate of the same shape.  In the mode
    [norm_before_gate] it is the weight times the normalized activation
    times silu of the gate.  In the other mode the activation has been
    normalized by lines 113-114 before it is gated and normalized
    (lines 119-121). *)
Lemma gated_rms_norm_elementwise (self : MambaRMSNormGated)
    (x gate : tensor) (b l n : nat) :
  shape x = [b; l; n] -> shape gate = [b; l; n] ->
  shape (norm_weight self) = [n] ->
  (0 < variance_epsilon self)%R ->
  exists out,
    MambaRMSNormGated_forward self x (Some gate) = Ok out
    /\ shape out = [b; l; n]
    /\ forall i j k, i < b -> j < l -> k < n ->
         let eps := variance_epsilon self in
         let gated q :=
           (elt x [i; j; q] / rms eps n (fun q' => elt x [i; j; q'])
            * silu (elt gate [i; j; q]))%R in
         elt out [i; j; k]
         = if norm_before_gate self
           then (elt (norm_weight self) [k] * gated k)%R
           else (elt (norm_weight self) [k] * (gated k / rms eps n gated))%R.
Proof.
  intros Hx Hg Hw _. unfold MambaRMSNormGated_forward.
  destruct (rms_normalize_elt (variance_epsilon self) x b l n Hx)
    as (y & Hy & Hys & Hye).
  rewrite Hy; simpl.
  assert (Hgated : exists z,
             tmul y (tmap silu gate) = Ok z /\ shape z = [b; l; n]
             /\ forall i j k, i < b -> j < l -> k < n ->
                  elt z [i; j; k]
                  = (elt x [i; j; k]
                     / rms (variance_epsilon self) n (fun q => elt x [i; j; q])
                     * silu (elt gate [i; j; k]))%R).
  { unfold tmul, map2; simpl. rewrite Hys, Hg, bshape_same3.
    eexists. split; [reflexivity|]. split; [reflexivity|].
    intros i j k Hi Hj Hk; simpl. unfold bget; simpl. rewrite Hys.
    rewrite bidx_same3 by assumption.
    rewrite Hye by assumption. reflexivity. }
  destruct Hgated as (z & Hz & Hzs & Hze).
  destruct (norm_before_gate self).
  - rewrite Hz; simpl. unfold tmul, map2. rewrite Hw, Hzs, bshape_vec3.
    eexists. split; [reflexivity|]. split; [reflexivity|].
    intros i j k Hi Hj Hk; simpl. unfold bget. rewrite Hw, Hzs.
    rewrite bidx_vec3, bidx_same3 by assumption.
    rewrite Hze by assumption. reflexivity.
  - rewrite Hz; simpl.
    destruct (rms_normalize_elt (variance_epsilon self) z b l n Hzs)
      as (y2 & Hy2 & Hy2s & Hy2e).
    rewrite Hy2; simpl. unfold tmul, map2. rewrite Hw, Hy2s, bshape_vec3.
    eexists. split; [reflexivity|]. split; [reflexivity|].
    intros i j k Hi Hj Hk; simpl. unfold bget. rewrite Hw, Hy2s.
    rewrite bidx_vec3, bidx_same3 by assumption.
    rewrite Hy2e, Hze by assumption.
    unfold rms. do 5 f_equal.
    apply rsum_ext. intros q Hq. rewrite Hze by assumption. reflexivity.
Qed.

(** C8.  In the mode without [norm_before_gate] the unit does not
    multiply by the gate before the normalization: on an activation
    [0.001] with gate [1] and epsilon [1e-5] (weight one, one channel)
    the code returns more than [9/10], where gating first and normalizing
    once, as the claim words that mode, gives less than [1/3].  The
    activation has already been normalized when it is gated (lines
    113-114 stand before the branch on [norm_before_gate]). *)
Theorem gate_before_norm_normalizes_twice :
  exists a b : R,
    result_elt (MambaRMSNormGated_forward norm_after_gate_ex small_activation
                  (Some (ones [1; 1; 1]))) [0; 0; 0] = Some a
    /\ result_elt (spec_gate_then_normalize norm_after_gate_ex
                     small_activation (ones [1; 1; 1])) [0; 0; 0] = Some b
    /\ (9 / 10 < a)%R /\ (b < 1 / 3)%R.
Proof.
  eexists. eexists. split; [teval; reflexivity|]. split; [teval; reflexivity|].
  replace (INR 1) with 1%R by reflexivity.
  rewrite !Rmult_1_l, !Rplus_0_r, !Rdiv_1_r.
  pose proof silu_1_gt_half as Hs1. pose proof silu_1_lt_1 as Hs2.
  set (s := silu 1) in *.
  assert (Hss : (1 / 4 < s * s < 1)%R) by nra.
  assert (Hy : (0 < 1 / 1000 * rsqrt (1 / 1000 * (1 / 1000) + 1 / 100000)
                /\ 1 / 1000 * rsqrt (1 / 1000 * (1 / 1000) + 1 / 100000)
                   * (1 / 1000 * rsqrt (1 / 1000 * (1 / 1000) + 1 / 100000))
                   = 1 / 11)%R).
  { unfold rsqrt.
    destruct (sqrt_sq_pos (1 / 1000 * (1 / 1000) + 1 / 100000)%R)
      as [Hr Hr2]; [lra|].
    set (r := sqrt _) in *. split.
    - apply Rmult_lt_0_compat; [lra | apply Rinv_0_lt_compat; exact Hr].
    - replace (1 / 1000 * / r * (1 / 1000 * / r))%R
        with (1 / 1000000 * / (r * r))%R by (field; lra).
      rewrite Hr2. field. }
  set (y := (1 / 1000 * rsqrt _)%R) in *. destruct Hy as [Hy Hyy].
  split.
  - apply normalized_above; [apply Rmult_lt_0_compat; lra | lra | lra |].
    replace (y * s * (y * s))%R with (y * y * (s * s))%R by ring.
    rewrite Hyy. lra.
  - apply normalized_below; [lra | lra | lra |].
    replace (1 / 1000 * s * (1 / 1000 * s))%R
      with (1 / 1000000 * (s * s))%R by field.
    lra.
Qed.

(** ** The convolution *)

(** C5 (the code against it). In both whole-sequence branches of
    [slow_forward] the convolution output at the first position depends
    on the input at the second position: two inputs that agree at
    position 0 and differ only at position 1 give different outputs at
    position 0, with a cache (lines 296-302) and without (line 308). *)
Theorem prefill_convolution_looks_ahead :
  (forall c, elt conv_input_zero [0; 0; c] = elt conv_input_later [0; 0; c])
  /\ (exists a b : R,
        result_elt (conv_prefill mixer_ex (cache_ex 1) conv_input_zero).2
          [0; 0; 0] = Some a
        /\ result_elt (conv_prefill mixer_ex (cache_ex 1) conv_input_later).2
             [0; 0; 0] = Some b
        /\ a <> b)
  /\ (exists a b : R,
        result_elt (conv_nocache mixer_ex conv_input_zero) [0; 0; 0] = Some a
        /\ result_elt (conv_nocache mixer_ex conv_input_later) [0; 0; 0]
           = Some b
        /\ a <> b).
Proof.
  assert (Hne : forall x y : R, x = 0%R -> y = 1%R -> silu x <> silu y).
  { intros x y -> ->. rewrite silu_0. pose proof (silu_pos 1). lra. }
  split; [reflexivity|]. split.
  - eexists. eexists. split; [teval; reflexivity|].
    split; [teval; reflexivity|]. apply Hne; lra.
  - eexists. eexists. split; [teval; reflexivity|].
    split; [teval; reflexivity|]. apply Hne; lra.
Qed.

(** One token of batch one against [cache_marked]: the buffer moves one
    column to the left, the new frame enters on the right, and the output
    is the activation of the dot product with the kernel. *)
Lemma conv_decode_batch_one_example :
  let r := conv_decode mixer_ex cache_marked (ones [1; 1; 6]) in
  conv_buffer_elt r.1 0 [0; 3; 0] = Some (5 + INR 1)%R
  /\ conv_buffer_elt r.1 0 [0; 3; 1] = Some 1%R
  /\ result_shape r.2 = Some [1; 6; 1]
  /\ result_elt r.2 [0; 3; 0] = Some (silu ((5 + INR 1) * 1 + (1 * 1 + 0)))%R.
Proof.
  cbv zeta. repeat split; teval; reflexivity.
Qed.

(** C6 (the code against it). With a batch of two, the single-step
    convolution raises at the insertion of the new frame (line 289): the
    frame has shape [2, 1, 6] and the column it is assigned to has shape
    [2, 6].  The buffer in the cache is left as it was. *)
Theorem conv_decode_batch_two_raises :
  exists p,
    project_and_split mixer_ex (ones [2; 1; 1]) = Ok p
    /\ shape (p_hidden_states p) = [2; 1; 6]
    /\ conv_decode mixer_ex (cache_ex_decoding 2) (p_hidden_states p)
       = (cache_ex_decoding 2, Raise RuntimeError).
Proof.
  eexists. split; [reflexivity|]. split; reflexivity.
Qed.


(** ** The output of the slow path *)

Lemma slow_forward_without_cache (self : Mamba2Mixer) (x : tensor) :
  slow_forward self x None
  = (None,
     out ← slow_pre_projection self x;
     y ← transpose12 out;
     Linear_forward (out_proj self) y).
Proof.
  unfold slow_forward, slow_pre_projection, scan_without_cache, conv_stage,
    ssm_stage.
  destruct (project_and_split self x) as [p|]; simpl; [|reflexivity].
  destruct (conv_nocache self (p_hidden_states p)) as [h|]; simpl;
    [|reflexivity].
  destruct (scan_stage self p _ h) as [[[hs st] y]|]; simpl; [|reflexivity].
  destruct (skip_and_gate self p hs y) as [out|]; simpl; reflexivity.
Qed.

Local Open Scope R_scope.

Lemma rsqrt_below_one (v : R) : 0 < v < 1 -> 1 < rsqrt v.
Proof.
  intros [H0 H1]. unfold rsqrt.
  destruct (sqrt_sq_pos v H0) as [Hs Hs2].
  assert (Hlt : sqrt v < 1).
  { destruct (Rlt_dec (sqrt v) 1) as [|Hge]; [assumption|].
    assert (1 <= sqrt v) by lra. nra. }
  rewrite <- Rinv_1 at 1. apply Rinv_lt_contravar; lra.
Qed.

Local Close Scope R_scope.

(** C3 (the code against it). On the slow path the value handed to the
    output projection is the readout plus the skip path multiplied by the
    activation of the gate: it is neither normalized nor flattened across
    heads.  On [mixer_skip_only] and a one-token input it differs from the
    gated normalization of the same readout and skip path, which is what
    [cuda_kernels_forward] applies. *)
Theorem slow_path_output_is_not_normalized :
  result_shape (slow_pre_projection mixer_skip_only (ones [1; 1; 1]))
  = Some [1; 1; 1; 2]
  /\ result_shape (spec_pre_projection mixer_skip_only (ones [1; 1; 1]))
     = Some [1; 1; 2]
  /\ exists a b : R,
       result_elt (slow_pre_projection mixer_skip_only (ones [1; 1; 1]))
         [0; 0; 0; 0] = Some a
       /\ result_elt (spec_pre_projection mixer_skip_only (ones [1; 1; 1]))
            [0; 0; 0] = Some b
       /\ a <> b.
Proof.
  split; [vm_compute; reflexivity|]. split; [vm_compute; reflexivity|].
  eexists. eexists. split; [teval; reflexivity|]. split; [teval; reflexivity|].
  replace (1 * (1 * 0 + 0) + (1 * 0 + 0))%R with 0%R by lra.
  replace (1 * (1 * 1 + 0) + (1 * 0 + 0))%R with 1%R by lra.
  replace (1 * 1 + 0)%R with 1%R by lra.
  replace (INR 2) with 2%R by (simpl; lra).
  rewrite silu_0.
  pose proof (silu_pos 1 ltac:(lra)) as Hs. pose proof silu_1_lt_1 as Hs1.
  set (s := silu 1) in *.
  match goal with
  | |- context [rsqrt ?v] =>
      assert (Hv : (0 < v < 1)%R) by (split; nra);
      pose proof (rsqrt_below_one v Hv) as Hr; set (r := rsqrt v) in *
  end.
  assert (Hpos : (0 < s * s * (r - 1))%R).
  { apply Rmult_lt_0_compat; [apply Rmult_lt_0_compat|]; lra. }
  intros Heq. ring_simplify in Heq. nra.
Qed.

(** ** The recurrence of the slow path *)

Lemma bshape_3_vec (b l n : nat) : bshape [b; l; n] [n] = Some [b; l; n].
Proof. unfold bshape; simpl. rewrite !Nat.eqb_refl. reflexivity. Qed.

(** The discrete decay of line 315 is the one of the specification:
    [exp(dt[b,t,h] * -exp(A_log[h]))]. *)
Lemma discrete_decay_as_specified (self : Mamba2Mixer) (b l H : nat)
    (dt h hs C dA dBu : tensor) :
  shape dt = [b; l; H] -> shape (A_log self) = [H] ->
  discretize self b l dt h = Ok (hs, C, dA, dBu) ->
  shape dA = [b; l; H]
  /\ forall i j k, i < b -> j < l -> k < H ->
       elt dA [i; j; k]
       = spec_discrete_decay dt (tmap (fun a => (- exp a)%R) (A_log self))
           i j k.
Proof.
  intros Hdt HA. unfold discretize.
  destruct (split_last _ h) as [parts|]; simpl; [|done].
  destruct parts as [|x [|B [|C' [|? ?]]]]; try done.
  destruct (tmul dt _) as [dtA|] eqn:HdtA; simpl; [|done].
  destruct (index_none 3 3 dt) as [dt4|]; simpl; [|done].
  destruct (reshape _ B) as [B4|]; simpl; [|done].
  destruct (tmul dt4 B4) as [dB|]; simpl; [|done].
  destruct (reshape _ x) as [u|]; simpl; [|done].
  destruct (index_none 4 3 dB) as [dB5|]; simpl; [|done].
  destruct (tmul u dB5) as [dBu0|]; simpl; [|done].
  destruct (reshape _ dBu0) as [dBu1|]; simpl; [|done].
  intros Heq; inversion Heq; subst; simpl.
  pose proof (map2_shape _ _ _ _ HdtA) as Hsh. simpl in Hsh.
  rewrite Hdt, HA, bshape_3_vec in Hsh. inversion Hsh as [Hsh'].
  split; [reflexivity|].
  intros i j k Hi Hj Hk. rewrite (map2_elt _ _ _ _ _ HdtA).
  unfold spec_discrete_decay, bget; simpl. rewrite Hdt, HA.
  assert (Hb1 : bidx [b; l; H] [i; j; k] = [i; j; k]) by bidx_dims.
  assert (Hb2 : bidx [H] [i; j; k] = [k]) by bidx_dims.
  rewrite Hb1, Hb2. reflexivity.
Qed.

(** C2 (the code against it). For [mixer_ex] on a one-token input (one
    head, head dimension and state size two, one group, zero initial
    state) the readout of the loop of lines 326-329 differs from the
    readout of the specification's recurrence at feature [p = 1]: the
    [matmul] of line 328 sums the state over its feature axis and leaves
    the state axis, where the specification sums over the state axis. *)
Theorem slow_readout_is_not_spec_readout :
  result_shape (slow_readout mixer_ex (ones [1; 1; 1])) = Some [1; 1; 1; 2]
  /\ exists a b : R,
       result_elt (slow_readout mixer_ex (ones [1; 1; 1])) [0; 0; 0; 1]
       = Some a
       /\ spec_readout_of mixer_ex (ones [1; 1; 1]) 0 0 0 1 = Ok b
       /\ a <> b.
Proof.
  split; [vm_compute; reflexivity|].
  eexists. eexists. split; [teval; reflexivity|]. split; [teval; reflexivity|].
  replace (1 * (1 * 0 + 0) + (1 * 0 + 0))%R with 0%R by lra.
  replace (1 * (1 * 1 + 0) + (1 * 0 + 0))%R with 1%R by lra.
  rewrite silu_0.
  pose proof (silu_pos 1 ltac:(lra)) as Hs.
  pose proof (softplus_pos (1 * 0 + 0 + 0)) as Hd.
  set (s := silu 1) in *. set (d := softplus (1 * 0 + 0 + 0)) in *.
  assert (Hpos : (0 < s * (s * (d * s)))%R).
  { apply Rmult_lt_0_compat; [exact Hs|].
    apply Rmult_lt_0_compat; [exact Hs|].
    apply Rmult_lt_0_compat; [exact Hd | exact Hs]. }
  intros Heq. ring_simplify in Heq. ring_simplify in Hpos. lra.
Qed.

(** * Further properties of the code *)

(** ** The input projection and its split (lines 270-280) *)

Lemma rbind_ok {A B : Type} (a : A) (k : A -> result B) : (Ok a ≫= k) = k a.
Proof. reflexivity. Qed.

Lemma rbind_raise {A B : Type} (e : exn) (k : A -> result B) :
  (Raise e ≫= k) = Raise e.
Proof. reflexivity. Qed.

Lemma get_last_3 (a b c : nat) : get_last [a; b; c] = c.
Proof. reflexivity. Qed.

Lemma last_dim_3 (a b c : nat) : last_dim [a; b; c] = Some c.
Proof. reflexivity. Qed.

Lemma removelast_3 (a b c : nat) : removelast [a; b; c] = [a; b].
Proof. reflexivity. Qed.

Lemma elt_last_eq (t : tensor) (i j a b : nat) :
  a = b -> elt t [i; j; a] = elt t [i; j; b].
Proof. intros ->. reflexivity. Qed.

Lemma mixer_ex_shapes : mixer_shapes mixer_ex.
Proof. constructor; simpl; auto. Qed.

(** The projection of a rank-three input by a mixer with the shapes of
    the constructor. *)
Lemma in_proj_shape (self : Mamba2Mixer) (x : tensor) (b l : nat) :
  mixer_shapes self -> shape x = [b; l; hidden_size self] ->
  exists y,
    Linear_forward (in_proj self) x = Ok y
    /\ shape y
       = [b; l;
          2 * intermediate_size self + 2 * n_groups self * state_size self
          + num_heads self].
Proof.
  intros Hm Hx. unfold Linear_forward.
  rewrite (ms_in_proj _ Hm), Hx. simpl. rewrite Nat.eqb_refl.
  pose proof (ms_in_proj_bias _ Hm) as Hb.
  destruct (lin_bias (in_proj self)) as [bias|].
  - unfold tadd, map2. simpl. rewrite Hb, bshape_3_vec.
    eexists. split; reflexivity.
  - eexists. split; reflexivity.
Qed.

Lemma d_mlp_of_shapes (I N G H : nat) :
  ((Z.of_nat (2 * I + 2 * G * N + H) - 2 * Z.of_nat N
    - 2 * Z.of_nat G * Z.of_nat N - Z.of_nat H) / 2)%Z
  = (Z.of_nat I - Z.of_nat N)%Z.
Proof.
  replace (Z.of_nat (2 * I + 2 * G * N + H) - 2 * Z.of_nat N
           - 2 * Z.of_nat G * Z.of_nat N - Z.of_nat H)%Z
    with ((Z.of_nat I - Z.of_nat N) * 2)%Z by lia.
  apply Z.div_mul. lia.
Qed.

Lemma project_single_token_raises (self : Mamba2Mixer) (x : tensor)
    (b : nat) :
  mixer_shapes self ->
  shape x = [b; 1; hidden_size self] ->
  intermediate_size self <> state_size self ->
  project_and_split self x = Raise RuntimeError.
Proof.
  intros Hm Hx Hne. unfold project_and_split. rewrite Hx.
  destruct (in_proj_shape self x b 1 Hm Hx) as (y & Hy & Hys).
  rewrite Hy, rbind_ok. cbv beta zeta. rewrite Hys, get_last_3.
  rewrite (ms_state_size _ Hm), d_mlp_of_shapes.
  change (negb (1 =? 1)) with false. cbv iota.
  unfold split_last. rewrite Hys, last_dim_3.
  destruct (existsb _ _); [reflexivity|].
  match goal with |- context [Z.eqb ?a ?c] =>
    destruct (Z.eqb_spec a c) as [Heq|]; [exfalso|reflexivity] end.
  cbn [fold_right] in Heq. lia.
Qed.

(** X1. A single-token input is rejected by a mixer whose intermediate
    size differs from its state size, with or without a cache, and the
    cache is not touched: [d_mlp] (line 274) is then
    [intermediate_size - state_size], not zero, and the split of line 277
    asks for a total width the projection does not have. *)
Theorem single_token_needs_equal_sizes (self : Mamba2Mixer) (x : tensor)
    (b : nat) (cache_params : option Mamba2Cache) :
  mixer_shapes self ->
  shape x = [b; 1; hidden_size self] ->
  intermediate_size self <> state_size self ->
  slow_forward self x cache_params = (cache_params, Raise RuntimeError).
Proof.
  intros Hm Hx Hne. unfold slow_forward.
  rewrite (project_single_token_raises self x b Hm Hx Hne). reflexivity.
Qed.

(** One token through a mixer of intermediate size two and state size
    three. *)
Lemma single_token_needs_equal_sizes_witness :
  slow_forward mixer_wide_state (ones [1; 1; 1]) None
  = (None, Raise RuntimeError).
Proof.
  apply (single_token_needs_equal_sizes mixer_wide_state (ones [1; 1; 1]) 1).
  - constructor; simpl; auto.
  - reflexivity.
  - simpl. lia.
Defined.

(** The segments of the projection when [d_mlp] is zero. *)
Lemma project_and_split_segments (self : Mamba2Mixer) (x : tensor) (b l : nat) :
  mixer_shapes self ->
  shape x = [b; l; hidden_size self] ->
  l <> 1 \/ intermediate_size self = state_size self ->
  exists y p,
    Linear_forward (in_proj self) x = Ok y
    /\ project_and_split self x = Ok p
    /\ p_batch_size p = b /\ p_seq_len p = l /\ p_d_mlp p = 0%Z
    /\ shape (p_gate p) = [b; l; intermediate_size self]
    /\ shape (p_hidden_states p)
       = [b; l; intermediate_size self + 2 * n_groups self * state_size self]
    /\ shape (p_dt p) = [b; l; num_heads self]
    /\ forall i j k,
         elt (p_gate p) [i; j; k] = elt y [i; j; k]
         /\ elt (p_hidden_states p) [i; j; k]
            = elt y [i; j; intermediate_size self + k]
         /\ (i < b -> j < l -> k < num_heads self ->
             elt (p_dt p) [i; j; k]
             = softplus
                 (elt y [i; j;
                         2 * intermediate_size self
                         + 2 * n_groups self * state_size self + k]
                  + elt (dt_bias self) [k])).
Proof.
  intros Hm Hx Hl. unfold project_and_split. rewrite Hx.
  destruct (in_proj_shape self x b l Hm Hx) as (y & Hy & Hys).
  exists y. rewrite Hy, rbind_ok. cbv beta zeta. rewrite Hys, get_last_3.
  rewrite (ms_state_size _ Hm), d_mlp_of_shapes.
  assert (Hd : (if negb (l =? 1) then 0%Z
                else (Z.of_nat (intermediate_size self)
                      - Z.of_nat (state_size self))%Z) = 0%Z).
  { destruct (Nat.eqb_spec l 1); simpl; [|reflexivity].
    destruct Hl as [Hl|Hl]; [done|]. lia. }
  rewrite Hd. unfold split_last. rewrite Hys, last_dim_3, removelast_3.
  cbn [existsb Z.ltb Z.compare orb fold_right].
  rewrite !(proj2 (Z.ltb_ge _ 0)) by lia. cbn [orb].
  match goal with |- context [Z.eqb ?a ?c] =>
    destruct (Z.eqb_spec a c) as [_|Hne]; [|exfalso; lia] end.
  cbn [List.map split_offsets Z.to_nat]. rewrite !Nat2Z.id.
  cbn [List.map]. rewrite rbind_ok. cbv beta iota.
  unfold tadd, map2. cbn [shape app]. rewrite (ms_dt_bias _ Hm), bshape_3_vec.
  rewrite rbind_ok. eexists. split; [reflexivity|]. split; [reflexivity|].
  cbn [p_batch_size p_seq_len p_d_mlp p_gate p_hidden_states p_dt shape tmap
       app].
  repeat (split; [reflexivity|]).
  intros i j k. cbn [elt]. split; [|split].
  - unfold set_last, get_last. simpl. apply elt_last_eq. lia.
  - unfold set_last, get_last. simpl. apply elt_last_eq. lia.
  - intros Hi Hj Hk. unfold bget. cbn [shape elt].
    rewrite (ms_dt_bias _ Hm).
    unfold tmap. cbn [elt].
    rewrite (bidx_same3 _ _ _ _ _ _ Hi Hj Hk), (bidx_vec3 _ i j _ Hk). unfold set_last, get_last. simpl.
    do 2 f_equal. apply elt_last_eq. lia.
Qed.

(** X2. For any other input of rank three (more than one token, or equal
    intermediate and state sizes) the projection is cut, along its last
    axis, into the gate (the first [intermediate_size] columns), the
    convolution input (the next [intermediate_size + 2 * n_groups *
    state_size]) and the step-size logits (the last [num_heads]), to
    which [dt_bias] is added before the softplus; [d_mlp] is zero. *)
Theorem projection_segments (self : Mamba2Mixer) (x : tensor) (b l : nat) :
  mixer_shapes self ->
  shape x = [b; l; hidden_size self] ->
  l <> 1 \/ intermediate_size self = state_size self ->
  exists y p,
    Linear_forward (in_proj self) x = Ok y
    /\ project_and_split self x = Ok p
    /\ p_batch_size p = b /\ p_seq_len p = l /\ p_d_mlp p = 0%Z
    /\ shape (p_gate p) = [b; l; intermediate_size self]
    /\ shape (p_hidden_states p)
       = [b; l; intermediate_size self + 2 * n_groups self * state_size self]
    /\ shape (p_dt p) = [b; l; num_heads self]
    /\ forall i j k,
         elt (p_gate p) [i; j; k] = elt y [i; j; k]
         /\ elt (p_hidden_states p) [i; j; k]
            = elt y [i; j; intermediate_size self + k]
         /\ (i < b -> j < l -> k < num_heads self ->
             elt (p_dt p) [i; j; k]
             = softplus
                 (elt y [i; j;
                         2 * intermediate_size self
                         + 2 * n_groups self * state_size self + k]
                  + elt (dt_bias self) [k])).
Proof. apply project_and_split_segments. Qed.

(** Two tokens through the mixer of intermediate size two and state size
    three. *)
Lemma projection_segments_witness :
  exists y p,
    Linear_forward (in_proj mixer_wide_state) (ones [1; 2; 1]) = Ok y
    /\ project_and_split mixer_wide_state (ones [1; 2; 1]) = Ok p
    /\ shape (p_gate p) = [1; 2; 2]
    /\ shape (p_hidden_states p) = [1; 2; 8]
    /\ shape (p_dt p) = [1; 2; 1].
Proof.
  destruct (projection_segments mixer_wide_state (ones [1; 2; 1]) 1 2)
    as (y & p & Hy & Hp & _ & _ & _ & Hg & Hh & Hdt & _).
  - constructor; simpl; auto.
  - reflexivity.
  - left. lia.
  - exists y, p. auto.
Defined.

(** ** The fast path and the cache *)

Lemma Mamba2Block_forward_fast (ker : Kernels) (blk : Mamba2Block)
    (x : tensor) (cp : option Mamba2Cache) :
  is_fast_path_available ker = true ->
  (Mamba2Block_forward ker blk x cp).1 = cp.
Proof.
  intros Hf. unfold Mamba2Block_forward, Mamba2Mixer_forward. rewrite Hf.
  destruct (Mamba2RMSNorm_forward _ x) as [h|]; [|done].
  destruct (cuda_kernels_forward ker (mixer blk) h cp); done.
Qed.

Lemma run_layers_fast (ker : Kernels) (blocks : list Mamba2Block) (o : bool)
    (x : tensor) (acc : list tensor) (cp : option Mamba2Cache) :
  is_fast_path_available ker = true ->
  (run_layers ker blocks o x acc cp).1 = cp.
Proof.
  intros Hf. revert x acc.
  induction blocks as [|blk rest IH]; intros x acc; simpl; [done|].
  pose proof (Mamba2Block_forward_fast ker blk x cp Hf) as Hb.
  destruct (Mamba2Block_forward ker blk x cp) as [cp1 [y|]]; simpl in Hb;
    subst cp1; [apply IH|done].
Qed.

(** X3. On the fast path a forward pass of the model never writes a
    buffer of the cache it is given: whatever the inputs, and whether the
    call returns or raises, the convolution buffers and the recurrent
    states of every layer are afterwards what they were before (only the
    offset can change). *)
Theorem fast_path_never_writes_states (ker : Kernels) (self : Mamba2Model)
    (ids : option ltensor) (emb : option tensor) (c : Mamba2Cache)
    (uc ohs rd : option bool) :
  is_fast_path_available ker = true ->
  exists c',
    (Mamba2Model_forward ker self ids emb (Some c) uc ohs rd).1 = Some c'
    /\ conv_states c' = conv_states c
    /\ ssm_states c' = ssm_states c.
Proof.
  intros Hf. unfold Mamba2Model_forward.
  destruct (xorb _ _); [by exists c|].
  destruct (resolve_inputs_embeds self ids emb) as [e|]; [|by exists c].
  rewrite ensure_cache_some.
  pose proof (run_layers_fast ker (layers self)
                (default (config_output_hidden_states (config self)) ohs)
                e [] (Some c) Hf) as H1.
  destruct (run_layers _ _ _ _ _ _) as [cp1 [[h all]|]]; simpl in H1;
    subst cp1; [|by exists c].
  unfold advance_offset. destruct (effective_use_cache self uc).
  - destruct (shape e) as [|b [|L rest]]; simpl; try by exists c.
    by eexists.
  - by exists c.
Qed.

(** A call of the one-layer model on the fast path, against a cache. *)
Lemma fast_path_never_writes_states_witness :
  exists c',
    (Mamba2Model_forward fast_kernels model_ex None (Some (ones [1; 2; 1]))
       (Some (cache_ex 1)) (Some true) None None).1 = Some c'
    /\ conv_states c' = conv_states (cache_ex 1)
    /\ ssm_states c' = ssm_states (cache_ex 1).
Proof.
  apply (fast_path_never_writes_states fast_kernels model_ex None
           (Some (ones [1; 2; 1])) (cache_ex 1) (Some true) None None).
  reflexivity.
Defined.

(** One step through a computation that cannot return. *)
Ltac raise_or_step :=
  match goal with
  | |- exists e, Raise ?x = Raise e => eexists; reflexivity
  | |- exists e, (Raise ?x ≫= _) = Raise e => rewrite rbind_raise
  | |- exists e, (Ok ?x ≫= _) = Raise e => rewrite rbind_ok
  | |- exists e, (?m ≫= _) = Raise e =>
      let r := fresh "r" in destruct m as [r|]
  | |- exists e, (if ?b then _ else _) = Raise e => destruct b
  | |- exists e, match ?x with _ => _ end = Raise e => destruct x
  end.

(** [cuda_kernels_forward] cannot return: the training branch leaves
    [out] unbound, and the other branch calls [rearrange] on every way to
    its end (lines 247-259; line 237 before them when
    [causal_conv1d_fn] is used). *)
Lemma cuda_kernels_forward_unbound (ker : Kernels) (self : Mamba2Mixer)
    (h : tensor) (cp : option Mamba2Cache) :
  rearrange_unbound ker ->
  exists e, cuda_kernels_forward ker self h cp = Raise e.
Proof.
  intros Hr. unfold cuda_kernels_forward.
  repeat (rewrite ?Hr; cbn [external]; raise_or_step).
Qed.

(** X4. With the optional packages installed, so that the mixers take
    the fast path, and [rearrange] unbound as the module leaves it, a
    forward pass of a model with at least one layer never returns: for
    every input, every cache and every flag the call raises.  (The first
    layer's [cuda_kernels_forward] ends in the unbound [out] in training
    without a cache and in a call of [rearrange] otherwise, unless an
    earlier step has raised already.) *)
Theorem fast_path_with_layers_never_returns (ker : Kernels)
    (self : Mamba2Model) (blk : Mamba2Block) (rest : list Mamba2Block)
    (ids : option ltensor) (emb : option tensor)
    (cp : option Mamba2Cache) (uc ohs rd : option bool) :
  is_fast_path_available ker = true ->
  rearrange_unbound ker ->
  layers self = blk :: rest ->
  exists err,
    (Mamba2Model_forward ker self ids emb cp uc ohs rd).2 = Raise err.
Proof.
  intros Hf Hr Hl. unfold Mamba2Model_forward.
  destruct (xorb _ _); [eexists; reflexivity|].
  destruct (resolve_inputs_embeds self ids emb) as [e|];
    [|eexists; reflexivity].
  destruct (ensure_cache self e cp (effective_use_cache self uc)) as [cp1|];
    [|eexists; reflexivity].
  rewrite Hl. cbn [run_layers].
  unfold Mamba2Block_forward, Mamba2Mixer_forward. rewrite Hf.
  destruct (Mamba2RMSNorm_forward (block_norm blk) e) as [h|];
    [|eexists; reflexivity].
  destruct (cuda_kernels_forward_unbound ker (mixer blk) h cp1 Hr) as [err He].
  rewrite He. eexists; reflexivity.
Qed.

(** The one-layer model on two positions, without a cache. *)
Lemma fast_path_with_layers_never_returns_witness :
  exists err,
    (Mamba2Model_forward fast_kernels model_ex None (Some (ones [1; 2; 1]))
       None None None None).2 = Raise err.
Proof.
  apply (fast_path_with_layers_never_returns fast_kernels model_ex
           (mkBlock norm_ex mixer_ex) [] None (Some (ones [1; 2; 1]))
           None None None None).
  - reflexivity.
  - intros t pattern axes. reflexivity.
  - reflexivity.
Defined.

(** X5. In training mode ([self.training] set on the mixer) and without a
    cache, the fast path computes nothing: the branch of line 201 is
    [pass] and [out] is unbound at the [return], so a forward pass of a
    model whose first layer is in that state raises. *)
Theorem fast_path_training_raises (ker : Kernels) (self : Mamba2Model)
    (blk : Mamba2Block) (rest : list Mamba2Block)
    (ids : option ltensor) (emb : option tensor) (uc ohs rd : option bool) :
  is_fast_path_available ker = true ->
  layers self = blk :: rest ->
  training (mixer blk) = true ->
  effective_use_cache self uc = false ->
  exists e,
    Mamba2Model_forward ker self ids emb None uc ohs rd = (None, Raise e)
    /\ forall e0 h y,
         resolve_inputs_embeds self ids emb = Ok e0 ->
         Mamba2RMSNorm_forward (block_norm blk) e0 = Ok h ->
         Linear_forward (in_proj (mixer blk)) h = Ok y ->
         xorb (negb (is_Some_b ids)) (is_Some_b emb) = false ->
         e = UnboundLocalError.
Proof.
  intros Hf Hl Ht Hu. unfold Mamba2Model_forward.
  destruct (xorb _ _) eqn:Hx;
    [eexists; split; [reflexivity|]; intros; congruence|].
  destruct (resolve_inputs_embeds self ids emb) as [e|err] eqn:He;
    [|eexists; split; [reflexivity|]; intros; congruence].
  unfold ensure_cache. rewrite Hu, andb_false_r, Hl. simpl.
  unfold Mamba2Block_forward, Mamba2Mixer_forward. rewrite Hf.
  destruct (Mamba2RMSNorm_forward (block_norm blk) e) as [h|err] eqn:Hn;
    [|eexists; split; [reflexivity|]; intros; congruence].
  unfold cuda_kernels_forward.
  destruct (Linear_forward (in_proj (mixer blk)) h) as [y|err] eqn:Hy; simpl;
    [|eexists; split; [reflexivity|]; intros; congruence].
  rewrite Ht. simpl. eexists. split; [reflexivity|].
  intros e0 h0 y0 He0 Hh0 Hy0 _. reflexivity.
Qed.

(** The one-layer model in training mode. *)
Lemma fast_path_training_raises_witness :
  Mamba2Model_forward fast_kernels model_training_ex None
    (Some (ones [1; 2; 1])) None None None None
  = (None, Raise UnboundLocalError).
Proof.
  destruct (fast_path_training_raises fast_kernels model_training_ex
              (mkBlock norm_ex mixer_training) [] None
              (Some (ones [1; 2; 1])) None None None)
    as (e & He & Hwhich).
  - reflexivity.
  - reflexivity.
  - reflexivity.
  - reflexivity.
  - rewrite He. f_equal. f_equal.
    eapply (Hwhich (ones [1; 2; 1])); [reflexivity | | | reflexivity].
    + unfold Mamba2RMSNorm_forward, rms_normalize, tmul, map2; simpl.
      reflexivity.
    + unfold Linear_forward; simpl. reflexivity.
Defined.

(** ** The slow path without a cache: the admissible sequence length *)

Lemma slice_start_tail (k n : nat) :
  2 <= k -> k - 1 <= n ->
  n - slice_start (- (Z.of_nat k - 1)) n = k - 1.
Proof.
  intros Hk Hn. unfold slice_start.
  destruct (Z.ltb_spec (- (Z.of_nat k - 1)) 0); lia.
Qed.

Lemma transpose12_3 (t : tensor) (a b c : nat) :
  shape t = [a; b; c] ->
  transpose12 t = Ok (mkT [a; c; b] (fun idx => elt t (swap12 idx))).
Proof. intros Ht. unfold transpose12, rank. rewrite Ht. reflexivity. Qed.

(** Line 308 on a convolution input of [l > 0] positions: the
    convolution pads to [l + K - 1] positions and the slice keeps the
    last [K - 1]. *)
Lemma conv_nocache_shape (self : Mamba2Mixer) (h : tensor) (b l : nat) :
  mixer_shapes self ->
  2 <= conv_kernel_size self ->
  0 < l ->
  shape h
  = [b; l; intermediate_size self + 2 * n_groups self * state_size self] ->
  exists y,
    conv_nocache self h = Ok y
    /\ shape y
       = [b; conv_kernel_size self - 1;
          intermediate_size self + 2 * n_groups self * state_size self].
Proof.
  intros Hm HK Hl Hh.
  pose proof (ms_conv_weight _ Hm) as Hw.
  pose proof (ms_conv_padding _ Hm) as Hp.
  pose proof (ms_conv_bias _ Hm) as Hb.
  remember (intermediate_size self + 2 * n_groups self * state_size self)
    as C eqn:HC.
  unfold conv_nocache. rewrite (transpose12_3 h b l C Hh), rbind_ok.
  unfold Conv1d_forward. cbn [shape]. rewrite Hw, Nat.eqb_refl, Hp.
  cbn [negb].
  destruct (Nat.ltb_spec (l + 2 * (conv_kernel_size self - 1))
              (conv_kernel_size self)) as [Hlt|_]; [lia|].
  rewrite (proj2 (Nat.eqb_neq l 0)) by lia. cbn [andb].
  assert (Hsl : forall y0 : tensor,
            shape y0
            = [b; C; l + 2 * (conv_kernel_size self - 1)
                     - (conv_kernel_size self - 1)] ->
            exists y,
              (y ← transpose12 y0;
               slice1_from (- (Z.of_nat (conv_kernel_size self) - 1))
                 (tmap (act self) y)) = Ok y
              /\ shape y = [b; conv_kernel_size self - 1; C]).
  { intros y0 Hy0. rewrite (transpose12_3 y0 _ _ _ Hy0), rbind_ok.
    unfold slice1_from. cbn [tmap shape].
    eexists. split; [reflexivity|]. cbn [shape].
    rewrite slice_start_tail by lia. reflexivity. }
  destruct (conv_bias (conv1d self)) as [bs|].
  - destruct Hb as [_ Hbs]. rewrite Hbs, Nat.eqb_refl, rbind_ok.
    apply Hsl. reflexivity.
  - rewrite rbind_ok. apply Hsl. reflexivity.
Qed.

(** Line 308 on an empty sequence: the convolution refuses it. *)
Lemma conv_nocache_empty (self : Mamba2Mixer) (h : tensor) (b : nat) :
  mixer_shapes self ->
  2 <= conv_kernel_size self ->
  0 < b -> 0 < n_groups self * state_size self ->
  shape h
  = [b; 0; intermediate_size self + 2 * n_groups self * state_size self] ->
  conv_nocache self h = Raise RuntimeError.
Proof.
  intros Hm HK Hb Hgn Hh.
  pose proof (ms_conv_weight _ Hm) as Hw.
  pose proof (ms_conv_padding _ Hm) as Hp.
  remember (intermediate_size self + 2 * n_groups self * state_size self)
    as C eqn:HC.
  unfold conv_nocache. rewrite (transpose12_3 h b 0 C Hh), rbind_ok.
  unfold Conv1d_forward. cbn [shape]. rewrite Hw, Nat.eqb_refl, Hp.
  cbn [negb].
  destruct (Nat.ltb_spec (0 + 2 * (conv_kernel_size self - 1))
              (conv_kernel_size self)) as [Hlt|_]; [lia|].
  rewrite (proj2 (Nat.eqb_neq b 0)), (proj2 (Nat.eqb_neq C 0)) by lia.
  reflexivity.
Qed.

Lemma split_last_3 (t : tensor) (b l a c d : nat) :
  shape t = [b; l; a + c + d] ->
  exists ta tc td,
    split_last [Z.of_nat a; Z.of_nat c; Z.of_nat d] t = Ok [ta; tc; td]
    /\ shape ta = [b; l; a] /\ shape tc = [b; l; c] /\ shape td = [b; l; d].
Proof.
  intros Ht. unfold split_last. rewrite Ht, last_dim_3, removelast_3.
  cbn [existsb fold_right]. rewrite !(proj2 (Z.ltb_ge _ 0)) by lia.
  cbn [orb].
  destruct (Z.eqb_spec (Z.of_nat a + (Z.of_nat c + (Z.of_nat d + 0)))
              (Z.of_nat (a + c + d))) as [_|Hne]; [|lia].
  cbn [List.map split_offsets]. rewrite !Nat2Z.id. cbn [app].
  do 3 eexists. split; [reflexivity|]. done.
Qed.

Lemma map2_3_vec (f : R -> R -> R) (t v : tensor) (a b c : nat) :
  shape t = [a; b; c] -> shape v = [c] ->
  map2 f t v = Ok (mkT [a; b; c] (fun idx => f (bget t idx) (bget v idx))).
Proof.
  intros Ht Hv. unfold map2. rewrite Ht, Hv, bshape_3_vec. reflexivity.
Qed.

(** Lines 312-318 when the convolved sequence has a length other than
    the sequence length: [B] cannot be reshaped. *)
Lemma discretize_wrong_length (self : Mamba2Mixer) (b l l' : nat)
    (dt h : tensor) :
  mixer_shapes self ->
  shape dt = [b; l; num_heads self] ->
  shape h
  = [b; l'; intermediate_size self + 2 * n_groups self * state_size self] ->
  0 < b -> 0 < n_groups self * state_size self -> l <> l' ->
  discretize self b l dt h = Raise RuntimeError.
Proof.
  intros Hm Hdt Hh Hb Hgn Hl. unfold discretize.
  rewrite (ms_state_size _ Hm).
  destruct (split_last_3 h b l' (intermediate_size self)
              (n_groups self * state_size self)
              (n_groups self * state_size self)) as (hs & B & C & -> & _ & HB & _).
  { rewrite Hh. do 2 f_equal. f_equal. lia. }
  rewrite rbind_ok. cbv beta iota.
  unfold tmul.
  rewrite (map2_3_vec Rmult dt (tmap (fun a => (- exp a)%R) (A_log self))
             b l (num_heads self) Hdt (ms_A_log _ Hm)), rbind_ok.
  replace (index_none 3 3 dt)
    with (Ok (mkT [b; l; num_heads self; 1]
                (fun idx => elt dt (delete 3 idx))))
    by (unfold index_none, insert_dim, rank; rewrite Hdt; reflexivity).
  rewrite rbind_ok.
  replace (reshape [Z.of_nat b; Z.of_nat l; 1%Z;
                    Z.of_nat (n_groups self * state_size self)] B)
    with (@Raise tensor RuntimeError); [reflexivity|].
  symmetry. unfold reshape. rewrite HB. unfold infer_shape.
  cbn [existsb List.filter].
  rewrite !(proj2 (Z.ltb_ge _ (-1))) by lia. cbn [orb].
  rewrite !(proj2 (Z.eqb_neq _ (-1))) by lia.
  destruct (Z.eqb_spec
              (prodZ [Z.of_nat b; Z.of_nat l; 1%Z;
                      Z.of_nat (n_groups self * state_size self)])
              (Z.of_nat (numel [b; l'; n_groups self * state_size self])))
    as [Heq|_]; [|reflexivity].
  exfalso. unfold prodZ, numel in Heq. cbn [fold_right] in Heq.
  set (GN := n_groups self * state_size self) in *.
  assert (Hn : b * (l * GN) = b * (l' * GN)).
  { apply Nat2Z.inj. rewrite !Nat2Z.inj_mul in *. lia. }
  apply Nat.mul_cancel_l in Hn; [|lia].
  apply Nat.mul_cancel_r in Hn; [|lia]. done.
Qed.

(** X6. Without a cache, [slow_forward] of a mixer built by the
    constructor (kernel width at least two) raises for every input whose
    sequence length is not [conv_kernel_size - 1]: line 308 keeps the
    last [conv_kernel_size - 1] positions of the padded convolution,
    whatever the length of the input, and the reshape of [B] to
    [batch, seq_len, ...] (line 318) then fails. *)
Theorem slow_forward_needs_kernel_minus_one (self : Mamba2Mixer)
    (x : tensor) (b l : nat) :
  mixer_shapes self ->
  shape x = [b; l; hidden_size self] ->
  2 <= conv_kernel_size self ->
  0 < b -> 0 < n_groups self * state_size self ->
  l <> conv_kernel_size self - 1 ->
  slow_forward self x None = (None, Raise RuntimeError).
Proof.
  intros Hm Hx HK Hb Hgn Hl.
  destruct (Nat.eq_dec l 1) as [->|Hl1].
  - destruct (Nat.eq_dec (intermediate_size self) (state_size self))
      as [HI|HI].
    + destruct (project_and_split_segments self x b 1 Hm Hx (or_intror HI))
        as (y & p & _ & Hp & Hpb & Hpl & _ & _ & Hph & Hpd & _).
      destruct (conv_nocache_shape self (p_hidden_states p) b 1 Hm HK
                  Nat.lt_0_1 Hph)
        as (hc & Hhc & Hhcs).
      unfold slow_forward. rewrite Hp. unfold conv_stage. rewrite Hhc.
      rewrite rbind_ok. unfold ssm_stage, scan_stage. rewrite Hpb, Hpl.
      rewrite (discretize_wrong_length self b 1 (conv_kernel_size self - 1)
                 (p_dt p) hc Hm Hpd Hhcs Hb Hgn Hl).
      reflexivity.
    + unfold slow_forward.
      rewrite (project_single_token_raises self x b Hm Hx HI). reflexivity.
  - destruct (project_and_split_segments self x b l Hm Hx (or_introl Hl1))
      as (y & p & _ & Hp & Hpb & Hpl & _ & _ & Hph & Hpd & _).
    destruct (Nat.eq_dec l 0) as [->|Hl0].
    { unfold slow_forward. rewrite Hp. unfold conv_stage.
      rewrite (conv_nocache_empty self (p_hidden_states p) b Hm HK Hb Hgn
                 Hph).
      reflexivity. }
    destruct (conv_nocache_shape self (p_hidden_states p) b l Hm HK
                ltac:(lia) Hph)
      as (hc & Hhc & Hhcs).
    unfold slow_forward. rewrite Hp. unfold conv_stage. rewrite Hhc.
    rewrite rbind_ok. unfold ssm_stage, scan_stage. rewrite Hpb, Hpl.
    rewrite (discretize_wrong_length self b l (conv_kernel_size self - 1)
               (p_dt p) hc Hm Hpd Hhcs Hb Hgn Hl).
    reflexivity.
Qed.

(** Two positions through [mixer_ex], whose kernel has width two. *)
Lemma slow_forward_needs_kernel_minus_one_witness :
  slow_forward mixer_ex (ones [1; 2; 1]) None = (None, Raise RuntimeError).
Proof.
  apply (slow_forward_needs_kernel_minus_one mixer_ex (ones [1; 2; 1]) 1 2).
  - constructor; simpl; auto.
  - reflexivity.
  - simpl. lia.
  - lia.
  - simpl. lia.
  - simpl. lia.
Defined.

(** ** The convolution buffer of the cache *)

Lemma copy__same3 (dst src : tensor) (a b c : nat) :
  shape dst = [a; b; c] -> shape src = [a; b; c] ->
  exists w,
    copy_ dst src = Ok w
    /\ shape w = [a; b; c]
    /\ forall i j k, i < a -> j < b -> k < c ->
         elt w [i; j; k] = elt src [i; j; k].
Proof.
  intros Hd Hs. unfold copy_, broadcasts_to. rewrite Hd, Hs, bshape_same3.
  unfold shape_eqb. rewrite bool_decide_eq_true_2 by reflexivity.
  eexists. split; [reflexivity|]. split; [reflexivity|].
  intros i j k Hi Hj Hk. cbn [elt]. unfold bget. rewrite Hs.
  rewrite bidx_same3 by assumption. reflexivity.
Qed.

(** X7. In whole-sequence mode with a cache (lines 296-301), the
    convolution buffer of the layer is overwritten, before anything else
    can fail, with the last [conv_kernel_size] positions of the
    convolution input, right-aligned and padded with zeros on the left
    when the sequence is shorter than the kernel; nothing else of the
    cache is touched. *)
Theorem prefill_fills_conv_buffer (self : Mamba2Mixer) (c : Mamba2Cache)
    (h buffer : tensor) (b l C : nat) :
  shape h = [b; l; C] ->
  conv_states c !! layer_idx self = Some buffer ->
  shape buffer = [b; C; conv_kernel_size self] ->
  exists written,
    (conv_prefill self c h).1 = set_conv_state c (layer_idx self) written
    /\ shape written = [b; C; conv_kernel_size self]
    /\ forall i ch j, i < b -> ch < C -> j < conv_kernel_size self ->
         elt written [i; ch; j]
         = if conv_kernel_size self <=? l + j
           then elt h [i; l + j - conv_kernel_size self; ch]
           else 0%R.
Proof.
  intros Hh Hbuf Hbs. unfold conv_prefill.
  rewrite (transpose12_3 h b l C Hh), rbind_ok. cbn [shape].
  rewrite get_last_3. unfold pad_left_last. cbn [shape].
  rewrite last_dim_3, removelast_3.
  destruct (Z.ltb_spec
              (Z.of_nat l
               + (Z.of_nat (conv_kernel_size self) - Z.of_nat l)) 0)
    as [Hneg|_]; [lia|].
  rewrite !rbind_ok. rewrite Hbuf.
  set (conv_state := mkT _ _).
  assert (Hcs : shape conv_state = [b; C; conv_kernel_size self]).
  { unfold conv_state. cbn [shape app]. do 2 f_equal. f_equal. lia. }
  destruct (copy__same3 buffer conv_state b C (conv_kernel_size self)
              Hbs Hcs) as (w & Hw & Hws & Hwe).
  rewrite Hw. exists w. split; [reflexivity|]. split; [exact Hws|].
  intros i ch j Hi Hch Hj. rewrite Hwe by assumption.
  unfold conv_state. cbn [elt]. unfold get_last, set_last. cbn.
  destruct (Nat.leb_spec (conv_kernel_size self) (l + j)) as [Hle|Hgt].
  - rewrite (proj2 (Z.leb_le 0 _)) by lia.
    rewrite (proj2 (Z.ltb_lt _ (Z.of_nat l))) by lia.
    cbn. do 2 f_equal. f_equal. lia.
  - rewrite (proj2 (Z.leb_gt 0 _)) by lia. reflexivity.
Qed.

(** Two positions into the buffer of width two of the example cache. *)
Lemma prefill_fills_conv_buffer_witness :
  exists written,
    (conv_prefill mixer_ex (cache_ex 1) (ones [1; 2; 6])).1
    = set_conv_state (cache_ex 1) 0 written
    /\ elt written [0; 3; 1] = 1%R.
Proof.
  destruct (prefill_fills_conv_buffer mixer_ex (cache_ex 1) (ones [1; 2; 6])
              (zeros [1; 6; 2]) 1 2 6) as (w & Hw & _ & He).
  - reflexivity.
  - reflexivity.
  - reflexivity.
  - exists w. split; [exact Hw|].
    rewrite (He 0 3 1) by (simpl; lia). reflexivity.
Defined.

Lemma bshape_13_2 (C K : nat) : bshape [1; C; K] [C; K] = Some [1; C; K].
Proof. unfold bshape; simpl. rewrite !Nat.eqb_refl. reflexivity. Qed.

Lemma bshape_12_1 (C : nat) : bshape [1; C] [C] = Some [1; C].
Proof. unfold bshape; simpl. rewrite !Nat.eqb_refl. reflexivity. Qed.

Lemma bidx_2_of_3 (C K i ch k : nat) :
  ch < C -> k < K -> bidx [C; K] [i; ch; k] = [ch; k].
Proof. intros Hc Hk. bidx_dims. Qed.

Lemma bidx_1_of_2 (C i ch : nat) : ch < C -> bidx [C] [i; ch] = [ch].
Proof. intros Hc. bidx_dims. Qed.

(** The frame [hidden_states] of shape [1, 1, C] as [setitem] sees it:
    without its leading dimensions of size one it fits a column of the
    buffer of a batch of one. *)
Lemma single_frame_view (C : nat) :
  broadcasts_to (strip_leading_ones [1; 1; C]) [1; C] = true
  /\ forall ch, ch < C ->
       replicate (3 - length (strip_leading_ones [1; 1; C])) 0
       ++ bidx (strip_leading_ones [1; 1; C]) [0; ch]
       = [0; 0; ch].
Proof.
  destruct C as [|[|C]].
  - split; [reflexivity|]. intros ch Hch. lia.
  - split; [reflexivity|]. intros ch Hch.
    assert (ch = 0) as -> by lia. reflexivity.
  - split.
    + unfold broadcasts_to. cbn [strip_leading_ones].
      rewrite bshape_12_1. unfold shape_eqb.
      apply bool_decide_eq_true_2. reflexivity.
    + intros ch Hch. reflexivity.
Qed.

(** X8. For a batch of one, the single-step convolution (lines 287-294)
    of a mixer with the constructor's shapes does what a rolling buffer
    should: the buffer written back to the cache is the old one moved one
    column to the left with the new frame in its last column, and the
    output for a channel is the activation of the dot product of that
    channel's buffer row with its kernel, plus the bias when there is
    one. *)
Theorem conv_decode_batch_one (self : Mamba2Mixer) (c : Mamba2Cache)
    (h buffer : tensor) :
  let C := intermediate_size self + 2 * n_groups self * state_size self in
  let K := conv_kernel_size self in
  mixer_shapes self ->
  0 < K ->
  conv_states c !! layer_idx self = Some buffer ->
  shape buffer = [1; C; K] ->
  shape h = [1; 1; C] ->
  exists written out,
    conv_decode self c h
    = (set_conv_state c (layer_idx self) written, Ok out)
    /\ shape written = [1; C; K]
    /\ shape out = [1; C; 1]
    /\ (forall ch j, ch < C -> j < K ->
          elt written [0; ch; j]
          = if j =? K - 1 then elt h [0; 0; ch]
            else elt buffer [0; ch; j + 1])
    /\ forall ch, ch < C ->
         let dot :=
           rsum K (fun k =>
             (elt written [0%nat; ch; k]
              * elt (conv_weight (conv1d self)) [ch; 0%nat; k])%R) in
         elt out [0; ch; 0]
         = match conv_bias (conv1d self) with
           | Some bias => act self (dot + elt bias [ch])%R
           | None => act self dot
           end.
Proof.
  cbv zeta. intros Hm HK Hbuf Hbs Hh.
  pose proof (ms_conv_weight _ Hm) as Hw.
  pose proof (ms_conv_bias _ Hm) as Hbias.
  remember (intermediate_size self + 2 * n_groups self * state_size self)
    as C eqn:HC.
  remember (conv_kernel_size self) as K eqn:HKdef.
  destruct (single_frame_view C) as [Hview Hframe].
  unfold conv_decode. rewrite Hbuf.
  unfold roll_left_last. rewrite Hbs, last_dim_3, rbind_ok.
  unfold setitem_last2. cbn [shape]. rewrite Hh.
  destruct (Nat.eqb_spec K 0) as [HK0|_]; [lia|].
  cbv zeta. rewrite Hview, rbind_ok.
  set (conv_state := mkT _ _).
  assert (Hcs : shape conv_state = [1; C; K]) by reflexivity.
  destruct (copy__same3 buffer conv_state 1 C K Hbs Hcs)
    as (w & Hcopy & Hws & Hwe).
  rewrite Hcopy, rbind_ok.
  (* what the new buffer holds *)
  assert (Hcse : forall ch j, ch < C -> j < K ->
            elt conv_state [0; ch; j]
            = if j =? K - 1 then elt h [0; 0; ch]
              else elt buffer [0; ch; j + 1]).
  { intros ch j Hch Hj. unfold conv_state. cbn [elt].
    unfold ix, rank. rewrite Hh. cbn [nth length delete].
    destruct (Nat.eqb_spec j (K - 1)) as [Hlast|Hnot].
    - change (list_delete 2 [0; ch; j]) with [0; ch].
      rewrite (Hframe ch Hch). reflexivity.
    - unfold set_last, get_last. cbn.
      rewrite Nat.mod_small by lia. reflexivity. }
  cbv beta iota.
  replace (select_in 3 1 0 (conv_weight (conv1d self)))
    with (Ok (mkT [C; K]
                (fun idx => elt (conv_weight (conv1d self))
                              (take 1 idx ++ 0 :: drop 1 idx))))
    by (unfold select_in, select, rank; rewrite Hw; reflexivity).
  rewrite rbind_ok. unfold tmul, map2. rewrite Hcs. cbn [shape].
  rewrite bshape_13_2, rbind_ok.
  unfold sum_last. cbn [shape]. rewrite last_dim_3, removelast_3, rbind_ok.
  assert (Hdot : forall ch, ch < C ->
            rsum K (fun k =>
              Rmult
                (bget conv_state ([0; ch] ++ [k]))
                (bget (mkT [C; K]
                         (fun idx => elt (conv_weight (conv1d self))
                                       (take 1 idx ++ 0 :: drop 1 idx)))
                   ([0; ch] ++ [k])))
            = rsum K (fun k =>
                (elt w [0%nat; ch; k]
                 * elt (conv_weight (conv1d self)) [ch; 0%nat; k])%R)).
  { intros ch Hch. apply rsum_ext. intros k Hk. unfold bget.
    rewrite Hcs. cbn [shape app].
    rewrite (bidx_same3 1 C K 0 ch k) by lia.
    rewrite (bidx_2_of_3 C K 0 ch k) by assumption.
    rewrite (Hwe 0 ch k) by lia. reflexivity. }
  assert (Hwritten : forall ch j, ch < C -> j < K ->
            elt w [0; ch; j]
            = if j =? K - 1 then elt h [0; 0; ch]
              else elt buffer [0; ch; j + 1]).
  { intros ch j Hch Hj. rewrite (Hwe 0 ch j) by lia. apply Hcse; assumption. }
  destruct (conv_bias (conv1d self)) as [bias|].
  - destruct Hbias as [Hub Hbshape]. rewrite Hub.
    unfold iadd, broadcasts_to. cbn [shape]. rewrite Hbshape, bshape_12_1.
    unfold shape_eqb. rewrite bool_decide_eq_true_2 by reflexivity.
    rewrite !rbind_ok.
    eexists w, _. split; [reflexivity|]. split; [exact Hws|].
    split; [reflexivity|]. split; [exact Hwritten|].
    intros ch Hch. cbv zeta. cbn [unsqueeze_last tmap elt shape removelast].
    rewrite (Hdot ch Hch).
    unfold bget. rewrite Hbshape, (bidx_1_of_2 C 0 ch Hch). reflexivity.
  - rewrite Hbias, !rbind_ok.
    eexists w, _. split; [reflexivity|]. split; [exact Hws|].
    split; [reflexivity|]. split; [exact Hwritten|].
    intros ch Hch. cbv zeta. cbn [unsqueeze_last tmap elt shape removelast].
    rewrite (Hdot ch Hch). reflexivity.
Qed.

(** One token against [cache_marked], whose buffer holds 5 and 6. *)
Lemma conv_decode_batch_one_witness :
  exists written out,
    conv_decode mixer_ex cache_marked (ones [1; 1; 6])
    = (set_conv_state cache_marked 0 written, Ok out)
    /\ elt written [0; 3; 0] = (5 + INR 1)%R
    /\ elt written [0; 3; 1] = 1%R.
Proof.
  destruct (conv_decode_batch_one mixer_ex cache_marked (ones [1; 1; 6])
              (mkT [1; 6; 2] (fun idx => (5 + INR (ix idx 2))%R)))
    as (w & out & Hd & _ & _ & Hw & _).
  - constructor; simpl; auto.
  - simpl. lia.
  - reflexivity.
  - reflexivity.
  - reflexivity.
  - exists w, out. split; [exact Hd|].
    rewrite (Hw 3 0), (Hw 3 1) by (simpl; lia).
    split; reflexivity.
Defined.


(** ** The slow path with a cache: the rank of the recurrent state *)

Lemma select_in_rank (n d i : nat) (t out : tensor) :
  select_in n d i t = Ok out -> n <= rank t /\ S (rank out) = rank t.
Proof.
  unfold select_in. destruct (Nat.leb_spec n (rank t)) as [Hn|]; [|done].
  intros H. apply select_shape in H as (Hs & Hd & _).
  split; [exact Hn|]. unfold rank in *. rewrite Hs, length_delete.
  - lia.
  - apply lookup_lt_is_Some. exact Hd.
Qed.

Lemma index_none_rank (n d : nat) (t out : tensor) :
  index_none n d t = Ok out -> rank out = S (rank t).
Proof.
  unfold index_none. destruct (n <=? rank t); [|done].
  unfold insert_dim. destruct (Nat.leb_spec d (rank t)) as [Hd|]; [|done].
  intros H; inversion H; subst. unfold rank in *. simpl.
  rewrite length_app, length_take. simpl. rewrite length_drop. lia.
Qed.

Lemma map2_rank (f : R -> R -> R) (a b out : tensor) :
  map2 f a b = Ok out -> rank out = Nat.max (rank a) (rank b).
Proof. intros H. apply map2_shape, bshape_length in H. exact H. Qed.

(** The state after one update (line 327) has at least four dimensions:
    the decay is indexed as [discrete_A[:, i, :, None, None]]. *)
Lemma state_update_rank (dA dBu : tensor) (i : nat) (s s' : tensor) :
  state_update dA dBu i s = Ok s' -> 4 <= rank s'.
Proof.
  unfold state_update.
  destruct (select_in 3 1 i dA) as [a1|] eqn:H1; rewrite ?rbind_ok, ?rbind_raise; [|done].
  destruct (index_none 2 2 a1) as [a2|] eqn:H2; rewrite ?rbind_ok, ?rbind_raise; [|done].
  destruct (index_none 2 2 a2) as [a3|] eqn:H3; rewrite ?rbind_ok, ?rbind_raise; [|done].
  destruct (tmul s a3) as [d|] eqn:H4; rewrite ?rbind_ok, ?rbind_raise; [|done].
  destruct (select_in 4 1 i dBu) as [u|] eqn:H5; rewrite ?rbind_ok, ?rbind_raise; [|done].
  simpl. intros H6.
  apply select_in_rank in H1 as [H1 H1'].
  apply index_none_rank in H2. apply index_none_rank in H3.
  apply map2_rank in H4. apply map2_rank in H6. lia.
Qed.

Lemma scan_step_rank (dA dBu C : tensor) (i : nat) (s s' o : tensor) :
  scan_step dA dBu C i s = Ok (s', o) -> 4 <= rank s'.
Proof.
  unfold scan_step.
  destruct (state_update dA dBu i s) as [s1|] eqn:H1; rewrite ?rbind_ok, ?rbind_raise; [|done].
  apply state_update_rank in H1.
  destruct (select_in 3 1 i C) as [Ci|]; rewrite ?rbind_ok, ?rbind_raise; [|done].
  destruct (matmul Ci s1) as [m|]; rewrite ?rbind_ok, ?rbind_raise; [|done].
  destruct (select_in 4 2 0 m) as [m'|]; rewrite ?rbind_ok, ?rbind_raise; [|done].
  simpl. intros H; inversion H; subst. exact H1.
Qed.

Lemma scan_loop_rank (dA dBu C : tensor) (steps : list nat)
    (s : tensor) (outs : list tensor) (s' : tensor) (outs' : list tensor) :
  scan_loop dA dBu C steps s outs = Ok (s', outs') ->
  steps <> [] \/ 4 <= rank s -> 4 <= rank s'.
Proof.
  revert s outs. induction steps as [|i steps IH]; intros s outs; simpl.
  - intros H [Hne|Hr]; [done|]. inversion H; subst. exact Hr.
  - destruct (scan_step dA dBu C i s) as [[s1 o]|] eqn:H1; rewrite ?rbind_ok, ?rbind_raise; [|done].
    apply scan_step_rank in H1. simpl. intros H _.
    eapply IH; [exact H|]. right. exact H1.
Qed.

Lemma recurrence_rank (dA dBu C : tensor) (l : nat) (s s' o : tensor) :
  0 < l -> recurrence dA dBu C l s = Ok (s', o) -> 4 <= rank s'.
Proof.
  intros Hl. unfold recurrence.
  destruct (scan_loop dA dBu C (seq 0 l) s []) as [[s1 outs]|] eqn:H1;
    rewrite ?rbind_ok, ?rbind_raise; [|done].
  simpl. destruct (stack1 outs) as [st|]; rewrite ?rbind_ok, ?rbind_raise; [|done]. simpl.
  intros H; inversion H; subst.
  eapply scan_loop_rank; [exact H1|]. left.
  destruct l; [lia|]. done.
Qed.

Lemma ssm_stage_rank (self : Mamba2Mixer) (p : Projected)
    (s h s' o : tensor) :
  0 < p_seq_len p -> ssm_stage self p s h = Ok (s', o) -> 4 <= rank s'.
Proof.
  intros Hl. unfold ssm_stage, scan_stage.
  destruct (discretize self _ _ _ h) as [[[[hs C] dA] dBu]|]; rewrite ?rbind_ok, ?rbind_raise; [|done].
  simpl.
  destruct (recurrence dA dBu C (p_seq_len p) s) as [[s1 o1]|] eqn:H1;
    rewrite ?rbind_ok, ?rbind_raise; [|done].
  simpl. destruct (skip_and_gate self p hs o1) as [g|]; rewrite ?rbind_ok, ?rbind_raise; [|done].
  simpl. intros H; inversion H; subst.
  eapply recurrence_rank; eauto.
Qed.

(** [copy_] refuses a source of higher rank than its destination. *)
Lemma copy__rank (dst src w : tensor) :
  copy_ dst src = Ok w -> rank src <= rank dst.
Proof.
  unfold copy_, broadcasts_to.
  destruct (bshape (shape dst) (shape src)) as [s|] eqn:Hs; [|done].
  unfold shape_eqb. destruct (bool_decide_reflect (s = shape dst)); [|done].
  intros _. subst s. apply bshape_length in Hs. unfold rank. lia.
Qed.

Lemma project_and_split_sizes (self : Mamba2Mixer) (x : tensor)
    (p : Projected) (b l h : nat) :
  shape x = [b; l; h] -> project_and_split self x = Ok p ->
  p_batch_size p = b /\ p_seq_len p = l.
Proof.
  intros Hx. unfold project_and_split. rewrite Hx.
  destruct (Linear_forward (in_proj self) x) as [y|]; rewrite ?rbind_ok, ?rbind_raise; [|done].
  destruct (split_last _ y) as [parts|]; rewrite ?rbind_ok, ?rbind_raise; [|done].
  destruct parts as [|z0 [|x0 [|g [|hs [|dt [|? ?]]]]]]; try done.
  destruct (tadd dt (dt_bias self)); rewrite ?rbind_ok, ?rbind_raise; [|done].
  intros H; inversion H; subst. done.
Qed.

(** The slot of the recurrent state keeps its shape through the
    convolution stage. *)
Lemma conv_stage_slot (self : Mamba2Mixer) (c : Mamba2Cache) (b : nat)
    (h : tensor) (cp1 : option Mamba2Cache) (r : result (tensor * tensor)) :
  conv_stage self (Some c) b h = (cp1, r) ->
  exists c1,
    cp1 = Some c1
    /\ forall slot1, ssm_states c1 !! layer_idx self = Some slot1 ->
         exists slot, ssm_states c !! layer_idx self = Some slot
                      /\ shape slot = shape slot1.
Proof.
  intros Hc. pose proof (conv_stage_frame self (Some c) b h) as [Hs _].
  rewrite Hc in Hs. simpl in Hs. destruct cp1 as [c1|]; [|done].
  exists c1. split; [done|]. intros slot1 H1.
  unfold cache_shapes in Hs. injection Hs as _ Hss.
  assert (Hl : (shape <$> ssm_states c1) !! layer_idx self
               = (shape <$> ssm_states c) !! layer_idx self)
    by (rewrite Hss; reflexivity).
  rewrite !lookup_fmap, H1 in Hl. simpl in Hl.
  destruct (ssm_states c !! layer_idx self) as [slot|]; [|done].
  exists slot. split; [done|]. simpl in Hl. congruence.
Qed.

(** With a cache whose slot for the layer has at most three dimensions,
    [slow_forward] cannot return on a sequence that is not empty. *)
Lemma slow_forward_small_slot (self : Mamba2Mixer) (x : tensor)
    (c : Mamba2Cache) (b l h : nat) :
  shape x = [b; l; h] -> 0 < l ->
  (forall slot, ssm_states c !! layer_idx self = Some slot ->
                rank slot <= 3) ->
  exists e, (slow_forward self x (Some c)).2 = Raise e.
Proof.
  intros Hx Hl Hslot. unfold slow_forward.
  destruct (project_and_split self x) as [p|e] eqn:Hp; [|simpl; eauto].
  destruct (project_and_split_sizes self x p b l h Hx Hp) as [_ Hpl].
  destruct (conv_stage self (Some c) (p_batch_size p) (p_hidden_states p))
    as [cp1 [[s hc]|e]] eqn:Hc; [|simpl; eauto].
  destruct (ssm_stage self p s hc) as [[s' o]|e] eqn:Hs; [|simpl; eauto].
  apply ssm_stage_rank in Hs; [|lia].
  destruct (conv_stage_slot self c _ _ _ _ Hc) as (c1 & -> & Hc1).
  unfold write_ssm_state.
  destruct (ssm_states c1 !! layer_idx self) as [slot1|] eqn:H1;
    [|simpl; eauto].
  destruct (copy_ slot1 s') as [w|e] eqn:Hw; [|simpl; eauto].
  exfalso. apply copy__rank in Hw.
  destruct (Hc1 slot1 eq_refl) as (slot & Hsl & Hsh).
  apply Hslot in Hsl. unfold rank in *. rewrite Hsh in Hsl. lia.
Qed.

(** X9. A cache slot for the recurrent state with three dimensions, as
    [Mamba2Cache.__init__] allocates it, can never be written by
    [slow_forward]: after the first step of the loop the state has four
    dimensions (the decay is indexed [discrete_A[:, i, :, None, None]]),
    and the [copy_] of line 336 refuses it.  So with such a cache every
    call on a non-empty sequence raises, whatever the offset, the weights
    and the sizes. *)
Theorem slow_forward_with_cache_raises (self : Mamba2Mixer) (x : tensor)
    (c : Mamba2Cache) (b l h : nat) :
  shape x = [b; l; h] -> 0 < l ->
  (forall slot, ssm_states c !! layer_idx self = Some slot ->
                rank slot <= 3) ->
  exists e, (slow_forward self x (Some c)).2 = Raise e.
Proof. apply slow_forward_small_slot. Qed.

(** Two positions into the fresh cache of [mixer_ex]. *)
Lemma slow_forward_with_cache_raises_witness :
  exists e,
    (slow_forward mixer_ex (ones [1; 2; 1]) (Some (cache_ex 1))).2 = Raise e.
Proof.
  apply (slow_forward_with_cache_raises mixer_ex (ones [1; 2; 1])
           (cache_ex 1) 1 2 1).
  - reflexivity.
  - lia.
  - intros slot H. vm_compute in H. inversion H; subst.
    unfold rank. simpl. lia.
Defined.

(** ** The rank of what the slow path returns *)

Lemma matmul_rank (a b out : tensor) :
  matmul a b = Ok out -> rank b <= rank out.
Proof.
  unfold matmul, rank.
  rewrite <- (length_rev (shape b)).
  destruct (rev (shape a)) as [|k1 [|m ba]]; try done.
  destruct (rev (shape b)) as [|p [|k2 bb]]; try done.
  destruct (k1 =? k2); [|done].
  destruct (bshape (rev ba) (rev bb)) as [bs|] eqn:Hbs; [|done].
  apply bshape_length in Hbs. rewrite !length_rev in Hbs.
  intros H; inversion H; subst. cbn [shape length].
  rewrite length_app. simpl. lia.
Qed.

Lemma stack1_rank (ts : list tensor) (out : tensor) :
  stack1 ts = Ok out ->
  exists t0 rest, ts = t0 :: rest /\ rank out = S (rank t0).
Proof.
  unfold stack1. destruct ts as [|t0 rest]; [done|].
  destruct (forallb _ (t0 :: rest)); [|done].
  destruct (Nat.leb_spec 1 (rank t0)) as [Hr|]; [|done].
  intros H; inversion H; subst. exists t0, rest. split; [reflexivity|].
  unfold rank in *. cbn [shape].
  rewrite length_app, length_take. cbn [length]. rewrite length_drop. lia.
Qed.

Lemma scan_step_output_rank (dA dBu C : tensor) (i : nat) (s s' o : tensor) :
  scan_step dA dBu C i s = Ok (s', o) -> 3 <= rank o.
Proof.
  unfold scan_step.
  destruct (state_update dA dBu i s) as [s1|] eqn:H1;
    rewrite ?rbind_ok, ?rbind_raise; [|done].
  apply state_update_rank in H1.
  destruct (select_in 3 1 i C) as [Ci|];
    rewrite ?rbind_ok, ?rbind_raise; [|done].
  destruct (matmul Ci s1) as [m|] eqn:Hm;
    rewrite ?rbind_ok, ?rbind_raise; [|done].
  apply matmul_rank in Hm.
  destruct (select_in 4 2 0 m) as [m'|] eqn:Hs;
    rewrite ?rbind_ok, ?rbind_raise; [|done].
  apply select_in_rank in Hs as [_ Hs].
  intros H; inversion H; subst. lia.
Qed.

Lemma scan_loop_outputs_rank (dA dBu C : tensor) (steps : list nat)
    (s : tensor) (outs : list tensor) (s' : tensor) (outs' : list tensor) :
  scan_loop dA dBu C steps s outs = Ok (s', outs') ->
  Forall (fun t => 3 <= rank t) outs ->
  Forall (fun t => 3 <= rank t) outs'.
Proof.
  revert s outs. induction steps as [|i steps IH]; intros s outs; simpl.
  - intros H; inversion H; subst. done.
  - destruct (scan_step dA dBu C i s) as [[s1 o]|] eqn:H1;
      rewrite ?rbind_ok, ?rbind_raise; [|done].
    apply scan_step_output_rank in H1. intros H Hall.
    eapply IH; [exact H|]. apply Forall_app. split; [exact Hall|].
    constructor; [exact H1 | constructor].
Qed.

Lemma recurrence_output_rank (dA dBu C : tensor) (l : nat) (s s' o : tensor) :
  recurrence dA dBu C l s = Ok (s', o) -> 4 <= rank o.
Proof.
  unfold recurrence.
  destruct (scan_loop dA dBu C (seq 0 l) s []) as [[s1 outs]|] eqn:H1;
    rewrite ?rbind_ok, ?rbind_raise; [|done].
  apply scan_loop_outputs_rank in H1; [|constructor].
  cbv beta iota.
  destruct (stack1 outs) as [st|] eqn:Hst;
    rewrite ?rbind_ok, ?rbind_raise; [|done].
  apply stack1_rank in Hst as (t0 & rest & -> & Hr).
  intros H; inversion H; subst.
  apply Forall_cons in H1 as [H0 _]. lia.
Qed.

Lemma cat_last_rank (a b out : tensor) :
  cat_last a b = Ok out -> rank out = rank b.
Proof.
  unfold cat_last, last_dim, rank.
  destruct (last (shape a)) as [na|] eqn:Ha; [|done].
  destruct (last (shape b)) as [nb|] eqn:Hb; [|done].
  unfold shape_eqb.
  destruct (bool_decide_reflect
              (removelast (shape a) = removelast (shape b))) as [He|];
    [|done].
  intros H; inversion H; subst. cbn [shape].
  rewrite He, length_app. cbn [length].
  destruct (shape b) as [|d sb] using rev_ind; [done|].
  rewrite removelast_last, length_app. reflexivity.
Qed.

Lemma skip_and_gate_rank (self : Mamba2Mixer) (p : Projected)
    (hs so out : tensor) :
  skip_and_gate self p hs so = Ok out -> rank so <= rank out.
Proof.
  unfold skip_and_gate. cbv zeta.
  destruct (reshape _ hs) as [u|];
    rewrite ?rbind_ok, ?rbind_raise; [|done].
  destruct (index_none 1 0 (D self)) as [d1|];
    rewrite ?rbind_ok, ?rbind_raise; [|done].
  destruct (index_none 2 2 d1) as [d2|];
    rewrite ?rbind_ok, ?rbind_raise; [|done].
  destruct (tmul u d2) as [skip|];
    rewrite ?rbind_ok, ?rbind_raise; [|done].
  destruct (tadd so skip) as [so1|] eqn:H1;
    rewrite ?rbind_ok, ?rbind_raise; [|done].
  apply map2_rank in H1.
  destruct (reshape _ (tmap (act self) (p_gate p))) as [g|];
    rewrite ?rbind_ok, ?rbind_raise; [|done].
  destruct (tmul so1 g) as [so2|] eqn:H2;
    rewrite ?rbind_ok, ?rbind_raise; [|done].
  apply map2_rank in H2.
  destruct (0 <? p_d_mlp p)%Z.
  - destruct (tmul _ (p_x0 p)) as [mlp|];
      rewrite ?rbind_ok, ?rbind_raise; [|done].
    intros H. apply cat_last_rank in H. lia.
  - intros H; inversion H; subst. lia.
Qed.

Lemma transpose12_rank (t out : tensor) :
  transpose12 t = Ok out -> rank out = rank t.
Proof.
  unfold transpose12. destruct (3 <=? rank t); [|done].
  intros H; inversion H; subst. unfold rank. cbn [shape].
  destruct (shape t) as [|a [|b [|c r]]]; reflexivity.
Qed.

Lemma Linear_forward_rank (lin : Linear) (x out : tensor) :
  Linear_forward lin x = Ok out -> rank x <= rank out.
Proof.
  unfold Linear_forward, last_dim.
  destruct (shape (lin_weight lin)) as [|o [|i [|? ?]]]; try done.
  destruct (last (shape x)) as [n|] eqn:Hl; [|done].
  destruct (n =? i); [|done].
  assert (Hy : forall f, rank (mkT (removelast (shape x) ++ [o]) f) = rank x).
  { intros f. unfold rank. cbn [shape]. rewrite length_app. cbn [length].
    destruct (shape x) as [|d sx] using rev_ind; [done|].
    rewrite removelast_last, length_app. reflexivity. }
  destruct (lin_bias lin) as [bias|].
  - intros H. apply map2_rank in H. rewrite Hy in H. lia.
  - intros H; inversion H; subst. rewrite Hy. lia.
Qed.

(** Whatever [slow_forward] returns has at least four dimensions. *)
Lemma slow_forward_rank (self : Mamba2Mixer) (x : tensor)
    (cp : option Mamba2Cache) (out : tensor) :
  (slow_forward self x cp).2 = Ok out -> 4 <= rank out.
Proof.
  unfold slow_forward.
  destruct (project_and_split self x) as [p|]; [|done].
  destruct (conv_stage self cp (p_batch_size p) (p_hidden_states p))
    as [cp1 [[s hc]|]]; [|done].
  unfold ssm_stage, scan_stage.
  destruct (discretize self _ _ _ hc) as [[[[hs C] dA] dBu]|];
    rewrite ?rbind_ok, ?rbind_raise; [|done].
  cbv beta iota.
  destruct (recurrence dA dBu C (p_seq_len p) s) as [[s1 o1]|] eqn:Hr;
    rewrite ?rbind_ok, ?rbind_raise; [|done].
  apply recurrence_output_rank in Hr. cbv beta iota.
  rewrite ?rbind_ok.
  destruct (skip_and_gate self p hs o1) as [g|] eqn:Hg;
    rewrite ?rbind_ok, ?rbind_raise; [|done].
  apply skip_and_gate_rank in Hg. cbv beta iota.
  destruct (write_ssm_state self cp1 s1) as [cp2 [u|]]; [|done].
  cbn [snd].
  destruct (transpose12 g) as [gt|] eqn:Ht;
    rewrite ?rbind_ok, ?rbind_raise; [|done].
  apply transpose12_rank in Ht.
  intros H. apply Linear_forward_rank in H. lia.
Qed.

(** X10. Whatever [slow_forward] returns has at least four dimensions,
    not the three of [batch, seq_len, hidden_size]: the readouts of the
    loop are stacked into a tensor of rank four (line 330) that is never
    flattened across heads before [out_proj]. *)
Theorem slow_forward_output_rank (self : Mamba2Mixer) (x : tensor)
    (cp : option Mamba2Cache) (out : tensor) :
  (slow_forward self x cp).2 = Ok out -> 4 <= rank out.
Proof. apply slow_forward_rank. Qed.

(** One position through [mixer_ex] without a cache. *)
Lemma slow_forward_output_rank_witness :
  exists out,
    (slow_forward mixer_ex (ones [1; 1; 1]) None).2 = Ok out
    /\ 4 <= rank out.
Proof.
  destruct (slow_forward mixer_ex (ones [1; 1; 1]) None).2 as [out|e] eqn:E.
  - exists out. split; [reflexivity|].
    exact (slow_forward_output_rank mixer_ex (ones [1; 1; 1]) None out E).
  - exfalso.
    assert (H : is_ok (slow_forward mixer_ex (ones [1; 1; 1]) None).2 = true)
      by (vm_compute; reflexivity).
    rewrite E in H. discriminate H.
Defined.

Lemma Mamba2RMSNorm_forward_rank (self : Mamba2RMSNorm) (x y : tensor) :
  Mamba2RMSNorm_forward self x = Ok y -> rank x <= rank y.
Proof.
  unfold Mamba2RMSNorm_forward, rms_normalize.
  destruct (mean_last_keepdim _) as [v|];
    rewrite ?rbind_ok, ?rbind_raise; [|done].
  destruct (tmul x _) as [h|] eqn:H1;
    rewrite ?rbind_ok, ?rbind_raise; [|done].
  apply map2_rank in H1. intros H2. apply map2_rank in H2. lia.
Qed.

Lemma slow_forward_high_rank (self : Mamba2Mixer) (x : tensor)
    (cp : option Mamba2Cache) :
  4 <= rank x ->
  slow_forward self x cp = (cp, Raise (ValueError unpack_many)).
Proof.
  intros Hr. unfold slow_forward, project_and_split. unfold rank in Hr.
  destruct (shape x) as [|a [|b [|c [|d r]]]]; simpl in Hr; try lia.
  reflexivity.
Qed.

Lemma Mamba2Block_forward_slow_rank (ker : Kernels) (blk : Mamba2Block)
    (x : tensor) (cp : option Mamba2Cache) (y : tensor) :
  is_fast_path_available ker = false ->
  (Mamba2Block_forward ker blk x cp).2 = Ok y -> 4 <= rank y.
Proof.
  intros Hf. unfold Mamba2Block_forward, Mamba2Mixer_forward. rewrite Hf.
  destruct (Mamba2RMSNorm_forward (block_norm blk) x) as [h|]; [|done].
  pose proof (slow_forward_rank (mixer blk) h cp) as Hr.
  destruct (slow_forward (mixer blk) h cp) as [cp1 [o|]]; [|done].
  cbn [snd] in *. specialize (Hr o eq_refl).
  intros H. apply map2_rank in H. lia.
Qed.

Lemma Mamba2Block_forward_high_rank (ker : Kernels) (blk : Mamba2Block)
    (x : tensor) (cp : option Mamba2Cache) :
  is_fast_path_available ker = false -> 4 <= rank x ->
  exists e, (Mamba2Block_forward ker blk x cp).2 = Raise e.
Proof.
  intros Hf Hr. unfold Mamba2Block_forward, Mamba2Mixer_forward. rewrite Hf.
  destruct (Mamba2RMSNorm_forward (block_norm blk) x) as [h|] eqn:Hn;
    [|cbn; eauto].
  apply Mamba2RMSNorm_forward_rank in Hn.
  rewrite slow_forward_high_rank by lia. cbn. eauto.
Qed.

(** X11. On the slow path a model with two or more layers never returns,
    whatever its inputs, its weights and its cache: what the first layer
    hands on has at least four dimensions, and the second layer's
    [slow_forward] cannot unpack its shape into
    [batch_size, seq_len, _] (line 270). *)
Theorem slow_path_two_layers_never_return (ker : Kernels)
    (self : Mamba2Model) (b1 b2 : Mamba2Block) (rest : list Mamba2Block)
    (ids : option ltensor) (emb : option tensor)
    (cp : option Mamba2Cache) (uc ohs rd : option bool) :
  is_fast_path_available ker = false ->
  layers self = b1 :: b2 :: rest ->
  exists e, (Mamba2Model_forward ker self ids emb cp uc ohs rd).2 = Raise e.
Proof.
  intros Hf Hl. unfold Mamba2Model_forward.
  destruct (xorb _ _); [cbn; eauto|].
  destruct (resolve_inputs_embeds self ids emb) as [e|]; [|cbn; eauto].
  destruct (ensure_cache self e cp _) as [cp0|]; [|cbn; eauto].
  rewrite Hl. cbn [run_layers].
  pose proof (Mamba2Block_forward_slow_rank ker b1 e cp0) as H1.
  destruct (Mamba2Block_forward ker b1 e cp0) as [cp1 [y|]]; [|cbn; eauto].
  cbn [snd] in H1. specialize (H1 y Hf eq_refl).
  destruct (Mamba2Block_forward_high_rank ker b2 y cp1 Hf H1) as [err Herr].
  destruct (Mamba2Block_forward ker b2 y cp1) as [cp2 r2].
  cbn [snd] in Herr. subst r2. cbn. eauto.
Qed.

(** Two layers of the example block, one position, no cache. *)
Lemma slow_path_two_layers_never_return_witness :
  exists e,
    (Mamba2Model_forward no_kernels model_two_layers None
       (Some (ones [1; 1; 1])) None (Some false) None None).2 = Raise e.
Proof.
  apply (slow_path_two_layers_never_return no_kernels model_two_layers
           (mkBlock norm_ex mixer_ex) (mkBlock norm_ex mixer_ex) [] None
           (Some (ones [1; 1; 1])) None (Some false) None None).
  - reflexivity.
  - reflexivity.
Defined.

(** ** [Mamba2RMSNorm] *)

Lemma fold_sum_nonneg (f : nat -> R) (l : list nat) :
  (forall q, 0 <= f q)%R ->
  (0 <= fold_right (fun k acc => f k + acc) 0 l)%R.
Proof.
  intros Hf. induction l as [|a l IH]; simpl; [lra|].
  pose proof (Hf a). lra.
Qed.

Lemma fold_sum_ge_term (f : nat -> R) (l : list nat) (k : nat) :
  (forall q, 0 <= f q)%R -> In k l ->
  (f k <= fold_right (fun k acc => f k + acc) 0 l)%R.
Proof.
  intros Hf. induction l as [|a l IH]; simpl; [done|].
  pose proof (fold_sum_nonneg f l Hf) as Hl. pose proof (Hf a) as Ha.
  intros [->|Hin]; [lra|]. apply IH in Hin. lra.
Qed.

Lemma rsum_ge_term (f : nat -> R) (n k : nat) :
  (forall q, 0 <= f q)%R -> k < n -> (f k <= rsum n f)%R.
Proof.
  intros Hf Hk. unfold rsum. apply fold_sum_ge_term; [exact Hf|].
  apply in_seq. lia.
Qed.

(** An entry is at most [sqrt n] times the floored root mean square of
    its row. *)
Lemma entry_le_rms (eps : R) (n k : nat) (v : nat -> R) :
  (0 <= eps)%R -> k < n ->
  (Rabs (v k) <= sqrt (INR n) * rms eps n v)%R.
Proof.
  intros He Hk. unfold rms.
  assert (Hn : (0 < INR n)%R) by (apply lt_0_INR; lia).
  set (S := rsum n (fun q => (v q * v q)%R)).
  assert (HS : (v k * v k <= S)%R).
  { apply (rsum_ge_term (fun q => (v q * v q)%R) n k); [|exact Hk].
    intros q. nra. }
  rewrite <- sqrt_mult_alt by lra.
  rewrite <- sqrt_Rsqr_abs. apply sqrt_le_1_alt. unfold Rsqr.
  replace (INR n * (S / INR n + eps))%R with (S + INR n * eps)%R
    by (field; lra).
  nra.
Qed.

Lemma rms_pos (eps : R) (n : nat) (v : nat -> R) :
  (0 < eps)%R -> (0 < rms eps n v)%R.
Proof.
  intros He. unfold rms. apply sqrt_lt_R0.
  assert (H : (0 <= rsum n (fun q => v q * v q) / INR n)%R).
  { unfold Rdiv. apply Rmult_le_pos.
    - apply fold_sum_nonneg. intros q. nra.
    - destruct n; [simpl; rewrite Rinv_0; lra|].
      left. apply Rinv_0_lt_compat, lt_0_INR. lia. }
  lra.
Qed.

(** [Mamba2RMSNorm.forward] on a rank-three activation. *)
Lemma Mamba2RMSNorm_forward_elt (self : Mamba2RMSNorm) (x : tensor)
    (b l n : nat) :
  shape x = [b; l; n] -> shape (rms_weight self) = [n] ->
  exists y,
    Mamba2RMSNorm_forward self x = Ok y
    /\ shape y = [b; l; n]
    /\ forall i j k, i < b -> j < l -> k < n ->
         elt y [i; j; k]
         = (elt (rms_weight self) [k]
            * (elt x [i; j; k]
               / rms (rms_variance_epsilon self) n
                   (fun q => elt x [i; j; q])))%R.
Proof.
  intros Hx Hw. unfold Mamba2RMSNorm_forward.
  destruct (rms_normalize_elt (rms_variance_epsilon self) x b l n Hx)
    as (y & Hy & Hys & Hye).
  rewrite Hy, rbind_ok. unfold tmul, map2. rewrite Hw, Hys, bshape_vec3.
  eexists. split; [reflexivity|]. split; [reflexivity|].
  intros i j k Hi Hj Hk. cbn [elt]. unfold bget. rewrite Hw, Hys.
  rewrite bidx_vec3, bidx_same3 by assumption.
  rewrite Hye by assumption. reflexivity.
Qed.

(** X12. [Mamba2RMSNorm.forward] keeps the shape of a rank-three
    activation and its output is bounded whatever the magnitude of the
    input: with a positive epsilon, every entry is at most
    [|weight[k]| * sqrt(hidden_size)] in absolute value. *)
Theorem rms_norm_output_bounded (self : Mamba2RMSNorm) (x : tensor)
    (b l n : nat) :
  shape x = [b; l; n] -> shape (rms_weight self) = [n] ->
  (0 < rms_variance_epsilon self)%R ->
  exists y,
    Mamba2RMSNorm_forward self x = Ok y
    /\ shape y = [b; l; n]
    /\ forall i j k, i < b -> j < l -> k < n ->
         (Rabs (elt y [i; j; k])
          <= Rabs (elt (rms_weight self) [k]) * sqrt (INR n))%R.
Proof.
  intros Hx Hw He.
  destruct (Mamba2RMSNorm_forward_elt self x b l n Hx Hw)
    as (y & Hy & Hys & Hye).
  exists y. split; [exact Hy|]. split; [exact Hys|].
  intros i j k Hi Hj Hk. rewrite Hye by assumption.
  set (r := rms (rms_variance_epsilon self) n (fun q => elt x [i; j; q])).
  assert (Hr : (0 < r)%R) by (apply rms_pos; exact He).
  pose proof (entry_le_rms (rms_variance_epsilon self) n k
                (fun q => elt x [i; j; q]) (Rlt_le _ _ He) Hk) as Hle.
  fold r in Hle. cbv beta in Hle.
  rewrite Rabs_mult. apply Rmult_le_compat_l; [apply Rabs_pos|].
  unfold Rdiv. rewrite Rabs_mult, (Rabs_right (/ r)).
  - apply Rmult_le_reg_r with r; [exact Hr|].
    rewrite Rmult_assoc, Rinv_l by lra. lra.
  - left. apply Rinv_0_lt_compat. exact Hr.
Qed.

(** The norm of the example model on two positions. *)
Lemma rms_norm_output_bounded_witness :
  exists y,
    Mamba2RMSNorm_forward norm_ex (ones [1; 2; 1]) = Ok y
    /\ (Rabs (elt y [0; 1; 0]%nat) <= Rabs 1 * sqrt (INR 1))%R.
Proof.
  destruct (rms_norm_output_bounded norm_ex (ones [1; 2; 1]) 1 2 1)
    as (y & Hy & _ & Hb).
  - reflexivity.
  - reflexivity.
  - simpl. lra.
  - exists y. split; [exact Hy|]. apply (Hb 0 1 0); lia.
Defined.

(** ** The cache of [Mamba2Cache.__init__] *)

Lemma layer_dict_lookup (n : nat) (t : tensor) (i : nat) :
  layer_dict n t !! i = if i <? n then Some t else None.
Proof.
  unfold layer_dict. induction n as [|n IH].
  - simpl. apply lookup_empty.
  - rewrite seq_S, map_app, list_to_map_app. simpl.
    destruct (Nat.ltb_spec i (S n)) as [Hlt|Hge].
    + destruct (decide (i = n)) as [->|Hne].
      * apply lookup_union_Some_raw. right.
        rewrite IH. rewrite (proj2 (Nat.ltb_ge n n)) by lia.
        split; [reflexivity|]. apply lookup_insert_eq.
      * apply lookup_union_Some_raw. left.
        rewrite IH. rewrite (proj2 (Nat.ltb_lt i n)) by lia. reflexivity.
    + apply lookup_union_None. split.
      * rewrite IH. rewrite (proj2 (Nat.ltb_ge i n)) by lia. reflexivity.
      * rewrite lookup_insert_ne by lia. apply lookup_empty.
Qed.

(** ** The slow path under a model that caches *)

Lemma cache_init_slot_rank (cfg : Mamba2Config) (batch_size i : nat)
    (slot : tensor) :
  ssm_states (Mamba2Cache_init cfg batch_size) !! i = Some slot ->
  rank slot <= 3.
Proof.
  unfold Mamba2Cache_init. cbn [ssm_states]. rewrite layer_dict_lookup.
  destruct (i <? _); [|done]. intros H; inversion H; subst.
  unfold rank. simpl. lia.
Qed.

Lemma Mamba2Block_forward_small_slot (ker : Kernels) (blk : Mamba2Block)
    (x : tensor) (c : Mamba2Cache) (b l h : nat) :
  is_fast_path_available ker = false ->
  shape x = [b; l; h] -> 0 < l ->
  shape (rms_weight (block_norm blk)) = [h] ->
  (forall i slot, ssm_states c !! i = Some slot -> rank slot <= 3) ->
  exists e, (Mamba2Block_forward ker blk x (Some c)).2 = Raise e.
Proof.
  intros Hf Hx Hl Hw Hslot. unfold Mamba2Block_forward.
  destruct (Mamba2RMSNorm_forward_elt (block_norm blk) x b l h Hx Hw)
    as (y & Hy & Hys & _).
  rewrite Hy. unfold Mamba2Mixer_forward. rewrite Hf.
  destruct (slow_forward_small_slot (mixer blk) y c b l h Hys Hl
              (Hslot (layer_idx (mixer blk)))) as [e He].
  destruct (slow_forward (mixer blk) y (Some c)) as [cp1 r].
  simpl in He. subst r. simpl. eauto.
Qed.

(** X14. On the slow path, a forward pass of the model that uses a cache
    never returns on a non-empty sequence: neither with the cache it
    creates itself (no cache passed, caching on) nor with a passed cache
    whose recurrent-state slots have three dimensions, as those of
    [Mamba2Cache.__init__] do.  The first layer raises (needs only that
    its norm weight has the hidden size). *)
Theorem slow_path_with_cache_never_returns (ker : Kernels)
    (self : Mamba2Model) (blk : Mamba2Block) (rest : list Mamba2Block)
    (ids : option ltensor) (emb : option tensor) (e : tensor)
    (b l h : nat) (cp : option Mamba2Cache) (uc ohs rd : option bool) :
  is_fast_path_available ker = false ->
  layers self = blk :: rest ->
  resolve_inputs_embeds self ids emb = Ok e ->
  shape e = [b; l; h] -> 0 < l ->
  shape (rms_weight (block_norm blk)) = [h] ->
  (cp = None /\ effective_use_cache self uc = true)
  \/ (exists c, cp = Some c
                /\ forall i slot, ssm_states c !! i = Some slot ->
                                  rank slot <= 3) ->
  exists err,
    (Mamba2Model_forward ker self ids emb cp uc ohs rd).2 = Raise err.
Proof.
  intros Hf Hlayers He Hs Hl Hw Hcp. unfold Mamba2Model_forward.
  destruct (xorb _ _); [simpl; eauto|]. rewrite He.
  assert (Hc0 : exists c0,
             ensure_cache self e cp (effective_use_cache self uc)
             = Ok (Some c0)
             /\ forall i slot, ssm_states c0 !! i = Some slot ->
                               rank slot <= 3).
  { destruct Hcp as [[-> Hu]|(c & -> & Hc)].
    - unfold ensure_cache. rewrite Hu, Hs. simpl. eexists.
      split; [reflexivity|]. intros i slot. apply cache_init_slot_rank.
    - exists c. split; [apply ensure_cache_some | exact Hc]. }
  destruct Hc0 as (c0 & -> & Hc0). rewrite Hlayers.
  cbn [run_layers].
  destruct (Mamba2Block_forward_small_slot ker blk e c0 b l h Hf Hs Hl Hw Hc0)
    as [err Herr].
  destruct (Mamba2Block_forward ker blk e (Some c0)) as [cp1 r].
  simpl in Herr. subst r. simpl. eauto.
Qed.

(** The example model, two positions, no cache passed and the default
    [use_cache] of the configuration. *)
Lemma slow_path_with_cache_never_returns_witness :
  exists err,
    (Mamba2Model_forward no_kernels model_ex None (Some (ones [1; 2; 1]))
       None None None None).2 = Raise err.
Proof.
  apply (slow_path_with_cache_never_returns no_kernels model_ex
           (mkBlock norm_ex mixer_ex) [] None (Some (ones [1; 2; 1]))
           (ones [1; 2; 1]) 1 2 1 None None None None).
  - reflexivity.
  - reflexivity.
  - reflexivity.
  - reflexivity.
  - lia.
  - reflexivity.
  - left. split; reflexivity.
Defined.

(** ** The tuple of hidden states *)

Lemma run_layers_all_hidden (ker : Kernels) (blocks : list Mamba2Block)
    (o : bool) (x : tensor) (acc : list tensor) (cp cp' : option Mamba2Cache)
    (h : tensor) (all : list tensor) :
  run_layers ker blocks o x acc cp = (cp', Ok (h, all)) ->
  length all = length acc + (if o then length blocks else 0).
Proof.
  revert x acc cp. induction blocks as [|blk rest IH]; intros x acc cp; simpl.
  - intros H; inversion H; subst. destruct o; lia.
  - destruct (Mamba2Block_forward ker blk x cp) as [cp1 [y|]]; [|done].
    intros H. apply IH in H. destruct o; [rewrite length_app in H|];
      simpl in H; lia.
Qed.

(** X15. When [Mamba2Model.forward] returns with [output_hidden_states]
    on (given, or the configuration's default), the hidden states it
    reports are one tensor per layer followed by the final normalized
    state: their number is the number of layers plus one and the last of
    them is the returned [last_hidden_state].  With the flag off none are
    reported. *)
Theorem hidden_states_per_layer (ker : Kernels) (self : Mamba2Model)
    (ids : option ltensor) (emb : option tensor)
    (cp : option Mamba2Cache) (uc ohs rd : option bool) (out : ModelOutput) :
  (Mamba2Model_forward ker self ids emb cp uc ohs rd).2 = Ok out ->
  if default (config_output_hidden_states (config self)) ohs
  then exists hs,
         out_hidden_states out = Some hs
         /\ length hs = S (length (layers self))
         /\ last hs = Some (out_last_hidden_state out)
  else out_hidden_states out = None.
Proof.
  unfold Mamba2Model_forward.
  destruct (xorb _ _); [done|].
  destruct (resolve_inputs_embeds self ids emb) as [e|]; [|done].
  destruct (ensure_cache self e cp _) as [cp0|]; [|done].
  destruct (run_layers ker (layers self) _ e [] cp0)
    as [cp1 [[h all]|]] eqn:Hr; [|done].
  apply run_layers_all_hidden in Hr.
  destruct (advance_offset e cp1 _) as [cp2|]; [|done].
  cbn [snd].
  destruct (Mamba2RMSNorm_forward (norm_f self) h) as [hn|];
    rewrite ?rbind_ok, ?rbind_raise; [|done].
  cbv zeta.
  destruct (default (config_output_hidden_states (config self)) ohs);
    destruct (negb _); intros H; inversion H; subst; cbn;
    try reflexivity;
    (eexists; split; [reflexivity|]; split;
     [rewrite length_app; simpl in *; lia | apply last_snoc]).
Qed.

(** The example model on a sequence of one position, without caching. *)
Lemma hidden_states_per_layer_witness :
  exists out hs,
    (Mamba2Model_forward no_kernels model_ex None (Some (ones [1; 1; 1]))
       None (Some false) (Some true) None).2 = Ok out
    /\ out_hidden_states out = Some hs
    /\ length hs = 2
    /\ last hs = Some (out_last_hidden_state out).
Proof.
  destruct (Mamba2Model_forward no_kernels model_ex None
              (Some (ones [1; 1; 1])) None (Some false) (Some true) None).2
    as [out|e] eqn:E.
  - pose proof (hidden_states_per_layer no_kernels model_ex None
                  (Some (ones [1; 1; 1])) None (Some false) (Some true) None
                  out E) as (hs & H1 & H2 & H3).
    exists out, hs. split; [reflexivity|]. split; [exact H1|].
    split; [exact H2 | exact H3].
  - exfalso.
    assert (H : is_ok (Mamba2Model_forward no_kernels model_ex None
                         (Some (ones [1; 1; 1])) None (Some false)
                         (Some true) None).2 = true)
      by (vm_compute; reflexivity).
    rewrite E in H. discriminate H.
Defined.

(** ** The cache entry of the returned value *)

Lemma same_shapes_is_Some (a b : option Mamba2Cache) :
  same_shapes a b -> is_Some_b b = is_Some_b a.
Proof. destruct a, b; simpl; done. Qed.

Lemma ensure_cache_is_Some (self : Mamba2Model) (e : tensor)
    (cp cp0 : option Mamba2Cache) (u : bool) :
  ensure_cache self e cp u = Ok cp0 ->
  is_Some_b cp0 = is_Some_b cp || u.
Proof.
  unfold ensure_cache. destruct cp as [c|]; simpl.
  - intros H; inversion H; reflexivity.
  - destruct u; simpl.
    + destruct (shape e); intros H; inversion H; reflexivity.
    + intros H; inversion H; reflexivity.
Qed.

Lemma advance_offset_is_Some (e : tensor) (cp cp' : option Mamba2Cache)
    (u : bool) :
  advance_offset e cp u = Ok cp' ->
  is_Some_b cp' = is_Some_b cp /\ (u = true -> is_Some_b cp' = true).
Proof.
  unfold advance_offset. destruct u.
  - destruct cp as [c|]; [|done].
    destruct (shape e) as [|? [|? ?]]; try done.
    intros H; inversion H; done.
  - intros H; inversion H; done.
Qed.

(** X16. The two return forms of [Mamba2Model.forward] disagree on when
    the cache is handed back.  The [Mamba2Output] (return_dict on) holds
    it exactly when caching is on (after the defaults of lines 593 and
    604); the plain tuple holds it whenever a cache exists, that is when
    one was passed or caching is on, so a cache passed with
    [use_cache=False] comes back in the tuple but not in the
    [Mamba2Output]. *)
Theorem returned_cache_entry (ker : Kernels) (self : Mamba2Model)
    (ids : option ltensor) (emb : option tensor)
    (cp : option Mamba2Cache) (uc ohs rd : option bool) (out : ModelOutput) :
  (Mamba2Model_forward ker self ids emb cp uc ohs rd).2 = Ok out ->
  out_is_dict out = default (config_use_return_dict (config self)) rd
  /\ out_with_cache out
     = if out_is_dict out
       then effective_use_cache self uc
       else is_Some_b cp || effective_use_cache self uc.
Proof.
  unfold Mamba2Model_forward.
  destruct (xorb _ _); [done|].
  destruct (resolve_inputs_embeds self ids emb) as [e|]; [|done].
  destruct (ensure_cache self e cp _) as [cp0|] eqn:H0; [|done].
  apply ensure_cache_is_Some in H0.
  pose proof (run_layers_frame ker (layers self)
                (default (config_output_hidden_states (config self)) ohs)
                e [] cp0) as [H1 _].
  destruct (run_layers ker (layers self) _ e [] cp0)
    as [cp1 [[h all]|]]; [|done].
  cbn [fst] in H1. apply same_shapes_is_Some in H1.
  destruct (advance_offset e cp1 _) as [cp2|] eqn:H2; [|done].
  apply advance_offset_is_Some in H2 as [H2 H3].
  cbn [snd].
  destruct (Mamba2RMSNorm_forward (norm_f self) h) as [hn|];
    rewrite ?rbind_ok, ?rbind_raise; [|done].
  cbv zeta.
  destruct (default (config_use_return_dict (config self)) rd);
    cbn [negb]; intros H; inversion H; subst; cbn.
  - split; [reflexivity|].
    destruct (effective_use_cache self uc);
      [rewrite H3 by reflexivity; reflexivity | apply andb_false_r].
  - split; [reflexivity|]. congruence.
Qed.

(** A cache passed with caching off to the model without layers comes
    back in the tuple. *)
Lemma returned_cache_entry_witness :
  exists out,
    (Mamba2Model_forward no_kernels model_nolayers None
       (Some (ones [1; 2; 1])) (Some (cache_ex 1)) (Some false) None
       (Some false)).2 = Ok out
    /\ out_is_dict out = false
    /\ out_with_cache out = true.
Proof.
  destruct (Mamba2Model_forward no_kernels model_nolayers None
              (Some (ones [1; 2; 1])) (Some (cache_ex 1)) (Some false) None
              (Some false)).2 as [out|e] eqn:E.
  - destruct (returned_cache_entry no_kernels model_nolayers None
                (Some (ones [1; 2; 1])) (Some (cache_ex 1)) (Some false)
                None (Some false) out E) as [Hd Hc].
    exists out. split; [reflexivity|]. split; [exact Hd|].
    rewrite Hc, Hd. reflexivity.
  - exfalso.
    assert (H : is_ok (Mamba2Model_forward no_kernels model_nolayers None
                         (Some (ones [1; 2; 1])) (Some (cache_ex 1))
                         (Some false) None (Some false)).2 = true)
      by (vm_compute; reflexivity).
    rewrite E in H. discriminate H.
Defined.

(** ** The fast path does not read the cache *)

Lemma cuda_kernels_forward_cache (ker : Kernels) (self : Mamba2Mixer)
    (x : tensor) (cp cp' : option Mamba2Cache) :
  is_Some_b cp = is_Some_b cp' ->
  cuda_kernels_forward ker self x cp = cuda_kernels_forward ker self x cp'.
Proof. intros H. unfold cuda_kernels_forward. rewrite H. reflexivity. Qed.

Lemma run_layers_fast_result (ker : Kernels) (blocks : list Mamba2Block)
    (o : bool) (x : tensor) (acc : list tensor)
    (cp cp' : option Mamba2Cache) :
  is_fast_path_available ker = true ->
  is_Some_b cp = is_Some_b cp' ->
  (run_layers ker blocks o x acc cp).2 = (run_layers ker blocks o x acc cp').2.
Proof.
  intros Hf Hs. revert x acc.
  induction blocks as [|blk rest IH]; intros x acc; simpl; [reflexivity|].
  unfold Mamba2Block_forward, Mamba2Mixer_forward. rewrite Hf.
  destruct (Mamba2RMSNorm_forward (block_norm blk) x) as [h|]; [|reflexivity].
  rewrite (cuda_kernels_forward_cache ker (mixer blk) h cp cp' Hs).
  destruct (cuda_kernels_forward ker (mixer blk) h cp') as [y|];
    [|reflexivity].
  destruct (tadd x y) as [z|]; [|reflexivity].
  apply IH.
Qed.

(** X17. On the fast path the values a forward pass returns do not
    depend on what the cache holds: two calls of [Mamba2Model.forward]
    with the same arguments and any two caches, at any offsets, return
    the same result (the same hidden states, or the same exception).
    [cuda_kernels_forward] only tests whether a cache was passed. *)
Theorem fast_path_output_ignores_cache (ker : Kernels) (self : Mamba2Model)
    (ids : option ltensor) (emb : option tensor) (c c' : Mamba2Cache)
    (uc ohs rd : option bool) :
  is_fast_path_available ker = true ->
  (Mamba2Model_forward ker self ids emb (Some c) uc ohs rd).2
  = (Mamba2Model_forward ker self ids emb (Some c') uc ohs rd).2.
Proof.
  intros Hf. unfold Mamba2Model_forward.
  destruct (xorb _ _); [reflexivity|].
  destruct (resolve_inputs_embeds self ids emb) as [e|]; [|reflexivity].
  rewrite !ensure_cache_some.
  pose proof (run_layers_fast ker (layers self)
                (default (config_output_hidden_states (config self)) ohs)
                e [] (Some c) Hf) as H1.
  pose proof (run_layers_fast ker (layers self)
                (default (config_output_hidden_states (config self)) ohs)
                e [] (Some c') Hf) as H1'.
  pose proof (run_layers_fast_result ker (layers self)
                (default (config_output_hidden_states (config self)) ohs)
                e [] (Some c) (Some c') Hf eq_refl) as H2.
  destruct (run_layers ker (layers self) _ e [] (Some c)) as [cp1 r1].
  destruct (run_layers ker (layers self) _ e [] (Some c')) as [cp1' r1'].
  cbn [fst snd] in H1, H1', H2. subst cp1 cp1' r1'.
  destruct r1 as [[h all]|]; [|reflexivity].
  unfold advance_offset.
  destruct (effective_use_cache self uc).
  - destruct (shape e) as [|? [|? ?]]; reflexivity.
  - reflexivity.
Qed.

(** The fresh cache and a cache in single-step mode with a marked
    buffer. *)
Lemma fast_path_output_ignores_cache_witness :
  (Mamba2Model_forward fast_kernels model_ex None (Some (ones [1; 2; 1]))
     (Some (cache_ex 1)) None None None).2
  = (Mamba2Model_forward fast_kernels model_ex None (Some (ones [1; 2; 1]))
       (Some cache_marked) None None None).2.
Proof.
  apply (fast_path_output_ignores_cache fast_kernels model_ex None
           (Some (ones [1; 2; 1])) (cache_ex 1) cache_marked None None None).
  reflexivity.
Defined.

(** X18. With gradient checkpointing on in training mode, caching is off
    whatever [use_cache] says (lines 604-605): a call without a cache
    creates none, and a [Mamba2Output] it returns holds none. *)
Theorem checkpointing_disables_cache (ker : Kernels) (self : Mamba2Model)
    (ids : option ltensor) (emb : option tensor) (uc ohs rd : option bool) :
  gradient_checkpointing self = true -> model_training self = true ->
  effective_use_cache self uc = false
  /\ (Mamba2Model_forward ker self ids emb None uc ohs rd).1 = None
  /\ forall out,
       (Mamba2Model_forward ker self ids emb None uc ohs rd).2 = Ok out ->
       out_with_cache out = false.
Proof.
  intros Hg Ht.
  assert (Hu : effective_use_cache self uc = false).
  { unfold effective_use_cache. rewrite Hg, Ht. cbn.
    destruct (default false uc); reflexivity. }
  split; [exact Hu|].
  unfold Mamba2Model_forward. rewrite Hu.
  destruct (xorb _ _); [done|].
  destruct (resolve_inputs_embeds self ids emb) as [e|]; [|done].
  unfold ensure_cache. cbn [is_Some_b negb andb].
  pose proof (run_layers_frame ker (layers self)
                (default (config_output_hidden_states (config self)) ohs)
                e [] None) as [H1 _].
  destruct (run_layers ker (layers self) _ e [] None) as [cp1 [[h all]|]];
    cbn [fst] in H1; destruct cp1 as [c1|]; try done.
  cbn [advance_offset fst snd].
  split; [reflexivity|]. intros out.
  destruct (Mamba2RMSNorm_forward (norm_f self) h) as [hn|];
    rewrite ?rbind_ok, ?rbind_raise; [|done].
  cbv zeta. destruct (negb _); intros H; inversion H; reflexivity.
Qed.

(** The training model with checkpointing switched on. *)
Lemma checkpointing_disables_cache_witness :
  (Mamba2Model_forward no_kernels model_checkpointing None
     (Some (ones [1; 2; 1])) None (Some true) None None).1 = None.
Proof.
  destruct (checkpointing_disables_cache no_kernels model_checkpointing None
              (Some (ones [1; 2; 1])) (Some true) None None)
    as (_ & H & _).
  - reflexivity.
  - reflexivity.
  - exact H.
Defined.

(** ** The initial step-size bias *)

Lemma bshape_same1 (n : nat) : bshape [n] [n] = Some [n].
Proof. unfold bshape; simpl. rewrite Nat.eqb_refl. reflexivity. Qed.

Lemma bidx_vec1 (n k : nat) : k < n -> bidx [n] [k] = [k].
Proof.
  intros Hk. unfold bidx; simpl.
  destruct (Nat.eqb_spec n 1) as [->|_]; [|reflexivity].
  f_equal. lia.
Qed.

(** The expression of line 415 inverts the softplus of
    [nn.functional.softplus] below its linear threshold. *)
Lemma softplus_of_inverse (dt : R) :
  (0 < dt)%R -> (dt <= 20)%R ->
  softplus (dt + ln (- expm1 (- dt))) = dt.
Proof.
  intros Hpos Hle. unfold expm1.
  assert (He : (0 < exp (- dt) < 1)%R).
  { split; [apply exp_pos|]. rewrite <- exp_0. apply exp_increasing. lra. }
  assert (Hy : (0 < - (exp (- dt) - 1) < 1)%R) by lra.
  assert (Hln : (ln (- (exp (- dt) - 1)) < 0)%R).
  { rewrite <- ln_1. apply ln_increasing; lra. }
  unfold softplus.
  destruct (Rlt_dec 20 (dt + ln (- (exp (- dt) - 1)))) as [Hgt|_]; [lra|].
  rewrite exp_plus, exp_ln by lra.
  replace (1 + exp dt * - (exp (- dt) - 1))%R
    with (1 + exp dt - exp dt * exp (- dt))%R by ring.
  rewrite <- exp_plus. replace (dt + - dt)%R with 0%R by ring.
  rewrite exp_0. replace (1 + exp dt - 1)%R with (exp dt) by ring.
  apply ln_exp.
Qed.

(** The drawn step size lies between the configured bounds. *)
Lemma drawn_step_bounds (lo hi u : R) :
  (0 < lo)%R -> (lo <= hi)%R -> (0 <= u <= 1)%R ->
  (lo <= exp (u * (ln hi - ln lo) + ln lo) <= hi)%R.
Proof.
  intros Hlo Hle Hu.
  assert (Hln : (ln lo <= ln hi)%R).
  { destruct Hle as [Hlt | ->]; [left; apply ln_increasing; lra | lra]. }
  assert (Hx : (ln lo <= u * (ln hi - ln lo) + ln lo <= ln hi)%R) by nra.
  split.
  - rewrite <- (exp_ln lo) at 1 by lra.
    destruct (proj1 Hx) as [Hlt | <-]; [left; apply exp_increasing; lra | lra].
  - rewrite <- (exp_ln hi) at 2 by lra.
    destruct (proj2 Hx) as [Hlt | ->]; [left; apply exp_increasing; lra | lra].
Qed.

(** X19. The initialization of [dt_bias] (lines 409-417) succeeds for
    bounds [0 < time_step_min <= time_step_max <= 20] and a floor of at
    most 20, and stores the inverse softplus of the drawn step sizes:
    with a zero projection every head then starts at exactly the step
    size [max(exp(u * (log max - log min) + log min), floor)] drawn for
    it, which lies between [max(time_step_min, floor)] and
    [max(time_step_max, floor)]. *)
Theorem init_dt_bias_inverts_softplus (config : Mamba2Config)
    (ts : TimeStepConfig) (rand : list nat -> R) (module : Mamba2Mixer) :
  shape (dt_bias module) = [config_num_heads config] ->
  (0 < config_time_step_min ts)%R ->
  (config_time_step_min ts <= config_time_step_max ts)%R ->
  (config_time_step_max ts <= 20)%R ->
  (config_time_step_floor ts <= 20)%R ->
  (forall idx, 0 <= rand idx <= 1)%R ->
  exists module',
    init_dt_bias config ts rand module = Ok module'
    /\ shape (dt_bias module') = [config_num_heads config]
    /\ forall k, k < config_num_heads config ->
         let dt :=
           Rmax (exp (rand [k]
                      * (ln (config_time_step_max ts)
                         - ln (config_time_step_min ts))
                      + ln (config_time_step_min ts)))
                (config_time_step_floor ts) in
         softplus (elt (dt_bias module') [k]) = dt
         /\ (Rmax (config_time_step_min ts) (config_time_step_floor ts) <= dt
             <= Rmax (config_time_step_max ts) (config_time_step_floor ts))%R.
Proof.
  intros Hb Hmin Hle Hmax Hfloor Hrand.
  unfold init_dt_bias, init_time_step, math_log.
  destruct (Rlt_dec 0 (config_time_step_max ts)) as [_|Hn]; [|lra].
  destruct (Rlt_dec 0 (config_time_step_min ts)) as [_|Hn]; [|lra].
  rewrite !rbind_ok. cbv zeta.
  unfold inv_softplus, tadd, map2, clamp_min. cbn [tmap shape].
  rewrite bshape_same1, rbind_ok.
  unfold copy_, broadcasts_to. cbn [shape]. rewrite Hb, bshape_same1.
  unfold shape_eqb. rewrite bool_decide_eq_true_2 by reflexivity.
  rewrite rbind_ok.
  eexists. split; [reflexivity|]. split; [reflexivity|].
  intros k Hk. cbv zeta. cbn [with_dt_bias dt_bias elt].
  unfold bget. cbn [shape elt tmap].
  rewrite !(bidx_vec1 _ _ Hk).
  pose proof (drawn_step_bounds (config_time_step_min ts)
                (config_time_step_max ts) (rand [k]) Hmin Hle (Hrand [k]))
    as [Hlo Hhi].
  set (d := exp (rand [k]
                 * (ln (config_time_step_max ts)
                    - ln (config_time_step_min ts))
                 + ln (config_time_step_min ts))) in *.
  assert (Hbounds :
            (Rmax (config_time_step_min ts) (config_time_step_floor ts)
             <= Rmax d (config_time_step_floor ts)
             <= Rmax (config_time_step_max ts) (config_time_step_floor ts))%R).
  { split; apply Rle_max_compat_r; assumption. }
  split; [|exact Hbounds].
  apply softplus_of_inverse.
  - apply Rlt_le_trans with d; [apply exp_pos | apply Rmax_l].
  - apply Rmax_lub; [lra | exact Hfloor].
Qed.

(** The mixer of the example with the default bounds and a draw of one
    half. *)
Lemma init_dt_bias_inverts_softplus_witness :
  exists module',
    init_dt_bias (config_ex 1) time_step_ex (fun _ => (1 / 2)%R) mixer_ex
    = Ok module'
    /\ (1 / 1000 <= softplus (elt (dt_bias module') [0%nat]) <= 1 / 10)%R.
Proof.
  destruct (init_dt_bias_inverts_softplus (config_ex 1) time_step_ex
              (fun _ => (1 / 2)%R) mixer_ex)
    as (m' & Hm' & _ & Hk).
  - reflexivity.
  - simpl. lra.
  - simpl. lra.
  - simpl. lra.
  - simpl. lra.
  - intros idx. simpl. lra.
  - exists m'. split; [exact Hm'|].
    destruct (Hk 0) as [Heq [Hlo Hhi]]; [simpl; lia|].
    cbv zeta in Heq, Hlo, Hhi. rewrite Heq.
    simpl in Hlo, Hhi.
    rewrite (Rmax_left (1 / 1000) (1 / 10000)) in Hlo by lra.
    rewrite (Rmax_left (1 / 10) (1 / 10000)) in Hhi by lra.
    simpl. split; [exact Hlo | exact Hhi].
Defined.

(** ** The state-dict hook *)

Lemma prefix_length (p s : string) :
  String.prefix p s = true -> String.length p <= String.length s.
Proof.
  revert p. induction s as [|c s IH]; intros [|a p]; simpl; try lia;
    try done.
  destruct (Ascii.ascii_dec a c); [|done].
  intros H. apply IH in H. lia.
Qed.

Lemma string_length_append (s1 s2 : string) :
  String.length (String.append s1 s2) = String.length s1 + String.length s2.
Proof. induction s1 as [|a s1 IH]; simpl; [reflexivity|]. rewrite IH. lia. Qed.

(** Replacing by a string that is at least as long never shortens. *)
Lemma str_replace_from_length (old new : string) (skip : nat) (s : string) :
  1 <= String.length old -> String.length old <= String.length new ->
  skip <= String.length s ->
  String.length s - skip
  <= String.length (str_replace_from old new skip s).
Proof.
  intros Ho Hn. revert skip.
  induction s as [|c s IH]; intros skip Hs; [simpl; lia|].
  cbn [str_replace_from]. cbn [String.length] in *.
  destruct skip as [|k].
  - destruct (String.prefix old (String c s)) eqn:Hp.
    + apply prefix_length in Hp. cbn [String.length] in Hp.
      rewrite string_length_append.
      specialize (IH (String.length old - 1) ltac:(lia)). lia.
    + cbn [String.length]. specialize (IH 0 ltac:(lia)). lia.
  - specialize (IH k ltac:(lia)). lia.
Qed.

(** Replacing by a longer string lengthens every string that contains
    the pattern. *)
Lemma str_replace_longer (old new s : string) :
  1 <= String.length old -> String.length old < String.length new ->
  str_in old s = true ->
  String.length s < String.length (str_replace old new s).
Proof.
  intros Ho Hn. unfold str_replace.
  induction s as [|c s IH]; intros Hin.
  - cbn [str_in] in Hin. rewrite orb_false_r in Hin.
    apply prefix_length in Hin. cbn [String.length] in Hin. lia.
  - cbn [str_in] in Hin. cbn [str_replace_from String.length].
    destruct (String.prefix old (String c s)) eqn:Hp.
    + apply prefix_length in Hp. cbn [String.length] in Hp.
      rewrite string_length_append.
      pose proof (str_replace_from_length old new (String.length old - 1) s
                    Ho ltac:(lia) ltac:(lia)).
      lia.
    + cbn [orb] in Hin. apply IH in Hin. cbn [String.length]. lia.
Qed.

Section StateDictFacts.
Context {V : Type}.
Implicit Types (d : dict V) (k q : string) (v : V).

Lemma dict_get_filter d k q :
  dict_get (List.filter (fun kv => negb (String.eqb (fst kv) k)) d) q
  = if String.eqb q k then None else dict_get d q.
Proof.
  induction d as [|[k' v'] d IH]; simpl.
  - destruct (String.eqb q k); reflexivity.
  - destruct (String.eqb_spec k' k) as [E1|E1]; simpl; rewrite ?IH;
      destruct (String.eqb_spec q k) as [E2|E2];
      destruct (String.eqb_spec k' q) as [E3|E3];
      try reflexivity; congruence.
Qed.

Lemma dict_get_setitem d k v q :
  dict_get (dict_setitem d k v) q
  = if String.eqb q k then Some v else dict_get d q.
Proof.
  induction d as [|[k' v'] d IH]; simpl.
  - destruct (String.eqb_spec k q) as [E1|E1];
      destruct (String.eqb_spec q k) as [E2|E2];
      try reflexivity; congruence.
  - destruct (String.eqb_spec k' k) as [E1|E1]; simpl; rewrite ?IH;
      destruct (String.eqb_spec q k) as [E2|E2];
      destruct (String.eqb_spec k' q) as [E3|E3];
      destruct (String.eqb_spec k q) as [E4|E4];
      try reflexivity; congruence.
Qed.

Lemma dict_keys_filter d k :
  dict_keys (List.filter (fun kv => negb (String.eqb (fst kv) k)) d)
  = List.filter (fun k' => negb (String.eqb k' k)) (dict_keys d).
Proof.
  induction d as [|[k' v'] d IH]; simpl; [reflexivity|].
  destruct (String.eqb k' k); simpl; rewrite IH; reflexivity.
Qed.

Lemma dict_keys_setitem_in d k v k' :
  In k' (dict_keys (dict_setitem d k v)) -> k' = k \/ In k' (dict_keys d).
Proof.
  induction d as [|[k0 v0] d IH]; simpl.
  - intros [<-|[]]. by left.
  - destruct (String.eqb_spec k0 k) as [->|Hk]; simpl.
    + intros [<-|H]; auto.
    + intros [<-|H]; [auto|]. apply IH in H as [->|H]; auto.
Qed.

Lemma dict_keys_setitem_NoDup d k v :
  List.NoDup (dict_keys d) -> List.NoDup (dict_keys (dict_setitem d k v)).
Proof.
  induction d as [|[k0 v0] d IH]; simpl; intros Hnd.
  - constructor; [intros []|constructor].
  - inversion Hnd as [|? ? Hnotin Hnd']; subst.
    destruct (String.eqb_spec k0 k) as [->|Hk]; simpl.
    + constructor; assumption.
    + constructor; [|apply IH, Hnd'].
      intros Hin. apply dict_keys_setitem_in in Hin as [->|Hin]; done.
Qed.

Lemma dict_get_key d k :
  In k (dict_keys d) -> exists v, dict_get d k = Some v.
Proof.
  induction d as [|[k0 v0] d IH]; simpl; [intros []|].
  intros [->|Hin].
  - rewrite String.eqb_refl. eauto.
  - destruct (String.eqb k0 k); eauto.
Qed.

(** X20. [load_hook] renames one key only: the value stored under the
    first key of the state dict that contains ["embedding."] is moved to
    that key with every ["embedding."] replaced by ["embeddings."] (a
    different key), the old key is removed, and every other entry,
    whether or not its key contains ["embedding."] too, is left as it
    was; without such a key the dict is unchanged.  The keys stay
    distinct. *)
Theorem load_hook_renames_first_key (state_dict : dict V) :
  List.NoDup (dict_keys state_dict) ->
  exists d',
    load_hook state_dict = Ok d'
    /\ List.NoDup (dict_keys d')
    /\ match List.find (str_in "embedding.") (dict_keys state_dict) with
       | None => d' = state_dict
       | Some k =>
           str_replace "embedding." "embeddings." k <> k
           /\ forall q,
                dict_get d' q
                = if String.eqb q (str_replace "embedding." "embeddings." k)
                  then dict_get state_dict k
                  else if String.eqb q k then None
                  else dict_get state_dict q
       end.
Proof.
  intros Hnd. unfold load_hook.
  destruct (List.find (str_in "embedding.") (dict_keys state_dict))
    as [k|] eqn:Hf; [|eauto].
  apply List.find_some in Hf as [Hin Hk].
  destruct (dict_get_key state_dict k Hin) as [v Hv].
  unfold dict_pop. rewrite Hv. eexists. split; [reflexivity|]. split.
  - apply dict_keys_setitem_NoDup. rewrite dict_keys_filter.
    apply List.NoDup_filter, Hnd.
  - split.
    + intros Heq.
      pose proof (str_replace_longer "embedding." "embeddings." k) as Hlen.
      rewrite Heq in Hlen. simpl in Hlen.
      specialize (Hlen ltac:(lia) ltac:(lia) Hk). lia.
    + intros q. rewrite dict_get_setitem, dict_get_filter. reflexivity.
Qed.

End StateDictFacts.

(** A checkpoint with two keys of the old naming: the first is renamed,
    the second is not. *)
Lemma load_hook_renames_first_key_witness :
  exists d',
    load_hook state_dict_ex = Ok d'
    /\ dict_get d' "backbone.embeddings.weight" = Some 1
    /\ dict_get d' "backbone.embedding.weight" = None
    /\ dict_get d' "old.embedding.weight" = Some 2.
Proof.
  destruct (load_hook_renames_first_key state_dict_ex) as (d' & Hd' & _ & Hq).
  - unfold state_dict_ex, dict_keys. simpl.
    repeat constructor; simpl; intros H;
      repeat (destruct H as [H|H]; [discriminate H|]); exact H.
  - exists d'. split; [exact Hd'|].
    simpl in Hq. destruct Hq as [_ Hq]. rewrite !Hq. done.
Defined.

(** ** Preparing the inputs of a generation step *)

Lemma forward_guard_fires (ker : Kernels) (self : Mamba2Model)
    (cp : option Mamba2Cache) (uc ohs rd : option bool) :
  Mamba2Model_forward ker self None None cp uc ohs rd
  = (cp, Raise (ValueError xor_msg)).
Proof. reflexivity. Qed.

(** X21. The keyword arguments that [prepare_inputs_for_generation]
    returns carry [cache_params] and [use_cache] through unchanged and
    never hold both [input_ids] and [inputs_embeds]: passed on to
    [Mamba2Model.forward], they raise the [ValueError] of line 597 only in
    the case where the caller gave neither input. *)
Theorem prepared_inputs_and_the_guard (ker : Kernels) (self : Mamba2Model)
    (input_ids : option ltensor) (inputs_embeds : option tensor)
    (use_cache : option bool) (cache_params : option Mamba2Cache)
    (mi : ModelInputs) (ohs rd : option bool) :
  prepare_inputs_for_generation input_ids inputs_embeds use_cache
    cache_params = Ok mi ->
  mi_cache_params mi = cache_params
  /\ mi_use_cache mi = use_cache
  /\ ((Mamba2Model_forward ker self (mi_input_ids mi) (mi_inputs_embeds mi)
         (mi_cache_params mi) (mi_use_cache mi) ohs rd).2
      = Raise (ValueError xor_msg)
      <-> input_ids = None /\ inputs_embeds = None).
Proof.
  unfold prepare_inputs_for_generation.
  destruct cache_params as [c|]; cbn [is_Some_b negb andb].
  - destruct input_ids as [ids|]; [|done].
    destruct (lselect_last1 ids) as [t|]; rewrite ?rbind_ok, ?rbind_raise;
      [|done].
    rewrite andb_false_r. intros H; inversion H; subst; cbn.
    split; [done|]. split; [done|]. split; [|intros [? _]; done].
    intros Hx. exfalso.
    exact (forward_past_guard ker self (Some (lunsqueeze_last t)) None
             (Some c) use_cache ohs rd eq_refl Hx).
  - rewrite rbind_ok, andb_true_r.
    destruct inputs_embeds as [emb|]; cbn [is_Some_b].
    + intros H; inversion H; subst; cbn.
      split; [done|]. split; [done|]. split; [|intros [_ ?]; done].
      intros Hx. exfalso.
      exact (forward_past_guard ker self None (Some emb) None use_cache
               ohs rd eq_refl Hx).
    + intros H; inversion H; subst; cbn.
      split; [done|]. split; [done|].
      destruct input_ids as [ids|].
      * split; [|intros [? _]; done]. intros Hx. exfalso.
        exact (forward_past_guard ker self (Some ids) None None use_cache
                 ohs rd eq_refl Hx).
      * rewrite forward_guard_fires. done.
Qed.

(** Token ids and embeddings both given, no cache yet: the embeddings are
    passed on and the guard stays silent. *)
Lemma prepared_inputs_and_the_guard_witness :
  (Mamba2Model_forward no_kernels model_ex None (Some (ones [1; 3; 1]))
     None (Some true) None None).2
  <> Raise (ValueError xor_msg).
Proof.
  destruct (prepared_inputs_and_the_guard no_kernels model_ex (Some ids_ex)
              (Some (ones [1; 3; 1])) (Some true) None
              (mkInputs None (Some (ones [1; 3; 1])) None (Some true))
              None None eq_refl) as (_ & _ & Hiff).
  intros Hx. apply Hiff in Hx as [Hx _]. discriminate Hx.
Defined.

(** X22. Once a cache is passed along, [prepare_inputs_for_generation]
    hands the model one position only: for token ids of shape
    [batch, length] with a non-empty sequence it returns [input_ids] of
    shape [batch, 1] holding the last token of every row, and it drops
    [inputs_embeds] even when they were given. *)
Theorem prepared_inputs_keep_last_token (ids : ltensor)
    (inputs_embeds : option tensor) (use_cache : option bool)
    (c : Mamba2Cache) (b l : nat) :
  lshape ids = [b; l] -> 0 < l ->
  exists last,
    prepare_inputs_for_generation (Some ids) inputs_embeds use_cache (Some c)
    = Ok (mkInputs (Some last) None (Some c) use_cache)
    /\ lshape last = [b; 1]
    /\ forall i j, lelt last [i; j] = lelt ids [i; l - 1].
Proof.
  intros Hs Hl. unfold prepare_inputs_for_generation, lselect_last1.
  cbn [is_Some_b]. rewrite Hs.
  destruct (Nat.eqb_spec l 0) as [->|_]; [lia|].
  rewrite !rbind_ok, andb_false_r.
  eexists. split; [reflexivity|]. split; [reflexivity|].
  intros i j. reflexivity.
Qed.

(** Three tokens and a cache: the token at position two is kept. *)
Lemma prepared_inputs_keep_last_token_witness :
  exists last,
    prepare_inputs_for_generation (Some ids_ex) (Some (ones [1; 3; 1]))
      None (Some (cache_ex 1))
    = Ok (mkInputs (Some last) None (Some (cache_ex 1)) None)
    /\ lshape last = [1; 1]
    /\ lelt last [0; 0] = 2%Z.
Proof.
  destruct (prepared_inputs_keep_last_token ids_ex (Some (ones [1; 3; 1]))
              None (cache_ex 1) 1 3) as (last & Hp & Hs & He).
  - reflexivity.
  - lia.
  - exists last. split; [exact Hp|]. split; [exact Hs|].
    rewrite He. reflexivity.
Defined.

(** ** The language-modeling loss *)

Lemma ravel_lt (s idx : list nat) :
  in_range s idx = true -> ravel s idx < numel s.
Proof.
  revert idx. induction s as [|d s IH]; intros [|i idx]; simpl; try done.
  - lia.
  - intros H. apply andb_prop in H as [Hi Hr].
    apply Nat.ltb_lt in Hi. apply IH in Hr.
    unfold numel in *. nia.
Qed.

Lemma unravel_in_range (s : list nat) (k : nat) :
  k < numel s -> in_range s (unravel s k) = true.
Proof.
  revert k. induction s as [|d s IH]; intros k Hk; simpl; [reflexivity|].
  change (fold_right Nat.mul 1 (d :: s)) with (d * numel s) in Hk.
  unfold numel in Hk. simpl in Hk. fold (numel s) in Hk.
  assert (Hn : numel s <> 0) by (intros H0; rewrite H0 in Hk; lia).
  apply andb_true_intro. split.
  - apply Nat.ltb_lt. apply Nat.Div0.div_lt_upper_bound. lia.
  - apply IH. apply Nat.mod_upper_bound. exact Hn.
Qed.

Lemma in_range_3 (a b c : nat) (idx : list nat) :
  in_range [a; b; c] idx = true ->
  exists i j k, idx = [i; j; k] /\ i < a /\ j < b /\ k < c.
Proof.
  destruct idx as [|i [|j [|k [|? ?]]]]; simpl; try done;
    rewrite ?andb_false_r; try done.
  rewrite andb_true_r. intros H.
  apply andb_prop in H as [Hi H]. apply andb_prop in H as [Hj Hk].
  apply Nat.ltb_lt in Hi, Hj, Hk. eauto 10.
Qed.

Lemma in_range_2 (a b : nat) (idx : list nat) :
  in_range [a; b] idx = true ->
  exists i j, idx = [i; j] /\ i < a /\ j < b.
Proof.
  destruct idx as [|i [|j [|? ?]]]; simpl; try done;
    rewrite ?andb_false_r; try done.
  rewrite andb_true_r. intros H.
  apply andb_prop in H as [Hi Hj].
  apply Nat.ltb_lt in Hi, Hj. eauto 10.
Qed.

Lemma forallb_ext_in {A : Type} (f g : A -> bool) (l : list A) :
  (forall a, In a l -> f a = g a) -> forallb f l = forallb g l.
Proof.
  induction l as [|a l IH]; intros H; simpl; [reflexivity|].
  rewrite (H a) by (left; reflexivity).
  rewrite IH; [reflexivity|]. intros a' Ha'. apply H. right. exact Ha'.
Qed.

Lemma fold_sum_ext_in (f g : nat -> R) (l : list nat) :
  (forall i, In i l -> f i = g i) ->
  fold_right (fun i acc => (f i + acc)%R) 0%R l
  = fold_right (fun i acc => (g i + acc)%R) 0%R l.
Proof.
  induction l as [|a l IH]; intros H; simpl; [reflexivity|].
  rewrite (H a) by (left; reflexivity).
  rewrite IH; [reflexivity|]. intros a' Ha'. apply H. right. exact Ha'.
Qed.

Lemma fold_sum_nonneg_in (f : nat -> R) (l : list nat) :
  (forall i, In i l -> (0 <= f i)%R) ->
  (0 <= fold_right (fun i acc => (f i + acc)%R) 0%R l)%R.
Proof.
  induction l as [|a l IH]; intros H; simpl; [lra|].
  pose proof (H a (or_introl eq_refl)).
  assert (0 <= fold_right (fun i acc => (f i + acc)%R) 0%R l)%R
    by (apply IH; intros i Hi; apply H; right; exact Hi).
  lra.
Qed.

(** A kept target is a class index. *)
Lemma kept_target_in_range (C N : nat) (target : ltensor) (i : nat) :
  forallb (fun i => valid_target C (lelt target [i])) (seq 0 N) = true ->
  In i (List.filter (fun i => negb (lelt target [i] =? ignore_index)%Z)
          (seq 0 N)) ->
  i < N /\ Z.to_nat (lelt target [i]) < C.
Proof.
  intros Hv Hin. apply List.filter_In in Hin as [Hin Hne].
  rewrite forallb_forall in Hv. specialize (Hv i Hin).
  apply in_seq in Hin. split; [lia|].
  unfold valid_target in Hv. apply negb_true_iff in Hne. rewrite Hne in Hv.
  simpl in Hv. apply andb_prop in Hv as [H0 H1].
  apply Z.leb_le in H0. apply Z.ltb_lt in H1. lia.
Qed.

(** [cross_entropy] reads its input on the classes and its target on the
    rows only. *)
Lemma cross_entropy_ext (input input' : tensor) (target target' : ltensor)
    (N C M : nat) :
  shape input = [N; C] -> shape input' = [N; C] ->
  lshape target = [M] -> lshape target' = [M] ->
  (forall i c, i < N -> c < C -> elt input [i; c] = elt input' [i; c]) ->
  (forall i, i < M -> lelt target [i] = lelt target' [i]) ->
  cross_entropy input target = cross_entropy input' target'.
Proof.
  intros Hs Hs' Ht Ht' He Hl. unfold cross_entropy.
  rewrite Hs, Hs', Ht, Ht'.
  destruct (Nat.eqb_spec N M) as [<-|_]; [|reflexivity]. cbn [negb].
  rewrite (forallb_ext_in
             (fun i => valid_target C (lelt target [i]))
             (fun i => valid_target C (lelt target' [i])) (seq 0 N))
    by (intros i Hi; apply in_seq in Hi; rewrite Hl by lia; reflexivity).
  destruct (forallb (fun i => valid_target C (lelt target' [i])) (seq 0 N))
    eqn:Hv; [|reflexivity].
  rewrite (List.filter_ext_in
             (fun i => negb (lelt target [i] =? ignore_index)%Z)
             (fun i => negb (lelt target' [i] =? ignore_index)%Z) (seq 0 N))
    by (intros i Hi; apply in_seq in Hi; rewrite Hl by lia; reflexivity).
  cbv zeta.
  destruct (List.filter _ (seq 0 N)) as [|k0 kept] eqn:Hk; [reflexivity|].
  do 3 f_equal.
  apply fold_sum_ext_in. intros i Hi. rewrite <- Hk in Hi.
  destruct (kept_target_in_range C N target' i Hv Hi) as [HiN HtC].
  rewrite (Hl i HiN). unfold nll_row. f_equal.
  - f_equal. apply rsum_ext. intros c Hc. rewrite He by assumption.
    reflexivity.
  - apply He; assumption.
Qed.

Lemma nll_row_nonneg (C : nat) (row : nat -> R) (t : nat) :
  t < C -> (0 <= nll_row C row t)%R.
Proof.
  intros Ht. unfold nll_row.
  pose proof (rsum_ge_term (fun c => exp (row c)) C t
                (fun q => Rlt_le _ _ (exp_pos (row q))) Ht) as Hsum.
  cbv beta in Hsum. pose proof (exp_pos (row t)) as Hpos.
  assert (Hln : (row t <= ln (rsum C (fun c => exp (row c))))%R).
  { rewrite <- (ln_exp (row t)) at 1.
    destruct Hsum as [Hlt|Heq].
    - left. apply ln_increasing; assumption.
    - rewrite Heq. lra. }
  lra.
Qed.

Lemma cross_entropy_nonneg (input : tensor) (target : ltensor) (r : R) :
  cross_entropy input target = Ok (Finite r) -> (0 <= r)%R.
Proof.
  unfold cross_entropy.
  destruct (shape input) as [|N [|C [|? ?]]]; try done.
  destruct (lshape target) as [|M [|? ?]]; try done.
  destruct (negb (N =? M)); [done|].
  destruct (forallb _ (seq 0 N)) eqn:Hv; [|done]. cbv zeta.
  destruct (List.filter _ (seq 0 N)) as [|k0 kept] eqn:Hk; [done|].
  intros H. inversion H; subst r. clear H.
  unfold Rdiv. apply Rmult_le_pos.
  - apply (fold_sum_nonneg_in
             (fun i => nll_row C (fun c => elt input [i; c])
                         (Z.to_nat (lelt target [i])))
             (k0 :: kept)).
    intros i Hi. rewrite <- Hk in Hi. apply nll_row_nonneg.
    apply (kept_target_in_range C N target i Hv Hi).
  - left. apply Rinv_0_lt_compat.
    apply (lt_0_INR (length (k0 :: kept))). simpl. lia.
Qed.

Lemma numel_3 (a b c : nat) : numel [a; b; c] = a * b * c.
Proof. unfold numel; simpl. lia. Qed.

Lemma numel_2 (a b : nat) : numel [a; b] = a * b.
Proof. unfold numel; simpl. lia. Qed.

(** [t.view(-1, V)] on a rank-three tensor whose last dimension is [V]. *)
Lemma flatten_rows (t : tensor) (b m V : nat) :
  shape t = [b; m; V] -> 0 < V ->
  reshape [(-1)%Z; Z.of_nat V] t
  = Ok (mkT [b * m; V]
          (fun idx => elt t (unravel [b; m; V] (ravel [b * m; V] idx)))).
Proof.
  intros Ht HV. unfold reshape. rewrite Ht.
  assert (Hi : infer_shape [(-1)%Z; Z.of_nat V] (numel [b; m; V])
               = Ok [b * m; V]).
  { unfold infer_shape. cbn [existsb List.filter].
    rewrite (proj2 (Z.ltb_ge (-1) (-1))) by lia.
    rewrite (proj2 (Z.ltb_ge (Z.of_nat V) (-1))) by lia.
    cbn [orb]. change ((-1 =? -1)%Z) with true.
    rewrite (proj2 (Z.eqb_neq (Z.of_nat V) (-1))) by lia.
    cbn [negb prodZ fold_right List.map].
    rewrite Z.mul_1_r.
    rewrite (proj2 (Z.eqb_neq (Z.of_nat V) 0)) by lia.
    rewrite numel_3.
    assert (Hdiv : (Z.of_nat (b * m * V) / Z.of_nat V)%Z = Z.of_nat (b * m)).
    { rewrite Nat2Z.inj_mul. apply Z.div_mul. lia. }
    assert (Hmod : (Z.of_nat (b * m * V) mod Z.of_nat V)%Z = 0%Z).
    { rewrite Nat2Z.inj_mul. apply Z.mod_mul. lia. }
    rewrite Hmod, Hdiv. change ((0 =? 0)%Z) with true. cbv iota.
    rewrite !Nat2Z.id. change ((-1 =? -1)%Z) with true.
    rewrite (proj2 (Z.eqb_neq (Z.of_nat V) (-1))) by lia.
    reflexivity. }
  rewrite Hi, rbind_ok. reflexivity.
Qed.

(** With no class at all the view itself fails, whatever the values. *)
Lemma flatten_rows_no_class (t : tensor) (b m : nat) :
  shape t = [b; m; 0] ->
  reshape [(-1)%Z; Z.of_nat 0] t = Raise RuntimeError.
Proof. intros Ht. unfold reshape. rewrite Ht. reflexivity. Qed.

Lemma shifted_logits_ext (t t' : tensor) (b l V : nat) :
  (forall i j c, i < b -> j + 1 < l -> c < V ->
                 elt t [i; j; c] = elt t' [i; j; c]) ->
  forall i c, i < b * (l - 1) -> c < V ->
    elt t (unravel [b; l - 1; V] (ravel [b * (l - 1); V] [i; c]))
    = elt t' (unravel [b; l - 1; V] (ravel [b * (l - 1); V] [i; c])).
Proof.
  intros He i c Hi Hc.
  assert (Hk : ravel [b * (l - 1); V] [i; c] < numel [b; l - 1; V]).
  { assert (Hk0 : ravel [b * (l - 1); V] [i; c] < numel [b * (l - 1); V]).
    { apply ravel_lt. cbn [in_range].
      rewrite (proj2 (Nat.ltb_lt _ _) Hi), (proj2 (Nat.ltb_lt _ _) Hc).
      reflexivity. }
    rewrite numel_2 in Hk0. rewrite numel_3. exact Hk0. }
  apply unravel_in_range, in_range_3 in Hk
    as (i' & j' & c' & -> & Hi' & Hj' & Hc').
  apply He; lia.
Qed.

Lemma shifted_labels_ext (labels labels' : ltensor) (b l : nat) :
  (forall i j, i < b -> 0 < j -> j < l ->
               lelt labels [i; j] = lelt labels' [i; j]) ->
  forall i, i < numel [b; l - 1] ->
    lelt (lflatten
            (mkLT [b; l - 1]
               (fun idx => lelt labels (set_last idx (get_last idx + 1)))))
      [i]
    = lelt (lflatten
              (mkLT [b; l - 1]
                 (fun idx => lelt labels' (set_last idx (get_last idx + 1)))))
        [i].
Proof.
  intros Hlab i Hi. cbn [lflatten lelt lshape]. unfold ix. cbn [nth].
  apply unravel_in_range, in_range_2 in Hi as (i' & j' & -> & Hi' & Hj').
  apply (Hlab i' (j' + 1)); lia.
Qed.

(** X23. The labels are shifted inside [Mamba2ForCausalLM.forward]: the
    loss of lines 738-747 reads the logits at every position but the
    last and the labels at every position but the first.  Two calls
    whose logits (of shape [batch, length, vocab]) agree before the last
    position and whose labels agree after the first give the same
    result, be it a loss, a NaN or an exception. *)
Theorem loss_ignores_last_logit_and_first_label (logits logits' : tensor)
    (labels labels' : ltensor) (b l V : nat) :
  shape logits = [b; l; V] -> shape logits' = [b; l; V] ->
  lshape labels = [b; l] -> lshape labels' = [b; l] ->
  (forall i j c, i < b -> j + 1 < l -> c < V ->
                 elt logits [i; j; c] = elt logits' [i; j; c]) ->
  (forall i j, i < b -> 0 < j -> j < l ->
               lelt labels [i; j] = lelt labels' [i; j]) ->
  causal_lm_loss logits labels = causal_lm_loss logits' labels'.
Proof.
  intros Hs Hs' Hl Hl' He Hlab.
  unfold causal_lm_loss, drop_last_position, ldrop_first_position.
  rewrite Hs, Hs', Hl, Hl'. cbn [rev app]. rewrite !rbind_ok.
  cbn [shape]. rewrite get_last_3.
  destruct (Nat.eq_dec V 0) as [->|HV].
  - rewrite !(flatten_rows_no_class _ b (l - 1)) by reflexivity.
    reflexivity.
  - rewrite !(flatten_rows _ b (l - 1) V) by (reflexivity || lia).
    rewrite !rbind_ok.
    apply (cross_entropy_ext _ _ _ _ (b * (l - 1)) V (numel [b; l - 1]));
      try reflexivity.
    + intros i c Hi Hc. cbn [elt].
      apply (shifted_logits_ext logits logits' b l V He i c Hi Hc).
    + intros i Hi. apply (shifted_labels_ext labels labels' b l Hlab i Hi).
Qed.

(** The last position changed and the first label changed. *)
Lemma loss_ignores_last_logit_and_first_label_witness :
  causal_lm_loss (ones [1; 2; 2]) labels_ex
  = causal_lm_loss logits_other_end labels_other_start.
Proof.
  apply (loss_ignores_last_logit_and_first_label (ones [1; 2; 2])
           logits_other_end labels_ex labels_other_start 1 2 2).
  - reflexivity.
  - reflexivity.
  - reflexivity.
  - reflexivity.
  - intros i j c Hi Hj Hc. assert (j = 0) as -> by lia. reflexivity.
  - intros i j Hi Hj Hj'. assert (j = 1) as -> by lia. reflexivity.
Defined.

Lemma filter_nil_all {A : Type} (f : A -> bool) (l : list A) :
  (forall a, In a l -> f a = false) -> List.filter f l = [].
Proof.
  induction l as [|a l IH]; intros H; simpl; [reflexivity|].
  rewrite (H a) by (left; reflexivity).
  apply IH. intros a' Ha'. apply H. right. exact Ha'.
Qed.

(** X24. When nothing is left to predict the loss is NaN, not an error
    and not zero: for logits of shape [batch, length, vocab] with a
    non-empty vocabulary, if every label after the first position is the
    ignore index -100, in particular when the sequence has a single
    position, the mean of lines 746-747 is taken over no element. *)
Theorem loss_without_targets_is_nan (logits : tensor) (labels : ltensor)
    (b l V : nat) :
  shape logits = [b; l; V] -> 0 < V -> lshape labels = [b; l] ->
  (forall i j, i < b -> 0 < j -> j < l -> lelt labels [i; j] = ignore_index) ->
  causal_lm_loss logits labels = Ok NaN.
Proof.
  intros Hs HV Hl Hign.
  unfold causal_lm_loss, drop_last_position, ldrop_first_position.
  rewrite Hs, Hl. cbn [rev app]. rewrite !rbind_ok.
  cbn [shape]. rewrite get_last_3.
  rewrite (flatten_rows _ b (l - 1) V) by (reflexivity || lia).
  rewrite rbind_ok. unfold cross_entropy. cbn [shape lflatten lshape].
  rewrite numel_2, Nat.eqb_refl. cbn [negb].
  set (shifted := mkLT [b; l - 1] _).
  assert (Hall : forall i, In i (seq 0 (b * (l - 1))) ->
            lelt (lflatten shifted) [i] = ignore_index).
  { intros i Hi. apply in_seq in Hi.
    assert (Hi' : i < numel [b; l - 1]) by (rewrite numel_2; lia).
    unfold shifted. cbn [lflatten lelt lshape]. unfold ix. cbn [nth].
    apply unravel_in_range, in_range_2 in Hi'
      as (i' & j' & -> & Hi' & Hj').
    apply (Hign i' (j' + 1)); lia. }
  change (fun idx : list nat =>
            lelt shifted (unravel (lshape shifted) (ix idx 0)))
    with (lelt (lflatten shifted)).
  rewrite (proj2 (forallb_forall _ _)).
  - rewrite filter_nil_all; [reflexivity|].
    intros i Hi. rewrite (Hall i Hi). reflexivity.
  - intros i Hi. rewrite (Hall i Hi). reflexivity.
Qed.

(** Labels for a single position. *)
Lemma loss_without_targets_is_nan_witness :
  causal_lm_loss (ones [1; 1; 2]) (mkLT [1; 1] (fun _ => 0%Z)) = Ok NaN.
Proof.
  apply (loss_without_targets_is_nan (ones [1; 1; 2])
           (mkLT [1; 1] (fun _ => 0%Z)) 1 1 2).
  - reflexivity.
  - lia.
  - reflexivity.
  - intros i j Hi Hj Hj'. lia.
Defined.

(** X25. [Mamba2ForCausalLM.forward] returns a loss exactly when labels
    are given; it is the shifted cross entropy of the returned logits,
    and when it is a number it is not negative. *)
Theorem causal_lm_loss_returned (ker : Kernels) (self : Mamba2ForCausalLM)
    (ids : option ltensor) (emb : option tensor)
    (cp : option Mamba2Cache) (labels : option ltensor)
    (ohs rd uc : option bool) (out : CausalLMOutput) :
  (Mamba2ForCausalLM_forward ker self ids emb cp labels ohs rd uc).2
  = Ok out ->
  match labels, lm_loss out with
  | None, None => True
  | Some lab, Some (Finite r) =>
      causal_lm_loss (lm_logits out) lab = Ok (Finite r) /\ (0 <= r)%R
  | Some lab, Some NaN => causal_lm_loss (lm_logits out) lab = Ok NaN
  | _, _ => False
  end.
Proof.
  unfold Mamba2ForCausalLM_forward. cbv zeta.
  destruct (Mamba2Model_forward ker (backbone self) ids emb cp uc ohs _)
    as [cp1 [mo|]]; [|done].
  cbn [snd].
  destruct (Linear_forward (lm_head self) (out_last_hidden_state mo))
    as [logits|]; rewrite ?rbind_ok, ?rbind_raise; [|done].
  destruct labels as [lab|].
  - destruct (causal_lm_loss logits lab) as [lv|] eqn:Hloss;
      rewrite ?rbind_ok, ?rbind_raise; [|done].
    destruct (negb _); intros H; inversion H; subst; cbn [lm_loss lm_logits];
      (destruct lv as [r|]; [|exact Hloss]);
      (split; [exact Hloss|]);
      unfold causal_lm_loss in Hloss;
      (destruct (drop_last_position logits) as [sl|]; [|done]);
      (destruct (ldrop_first_position lab) as [sb|]; [|done]);
      rewrite !rbind_ok in Hloss;
      (destruct (reshape _ sl) as [flat|]; [|done]);
      rewrite rbind_ok in Hloss;
      exact (cross_entropy_nonneg _ _ _ Hloss).
  - rewrite ?rbind_ok.
    destruct (negb _); intros H; inversion H; subst; exact I.
Qed.

(** Two positions through the head on the model without layers. *)
Lemma causal_lm_loss_returned_witness :
  exists out r,
    (Mamba2ForCausalLM_forward no_kernels causal_lm_ex None
       (Some (ones [1; 2; 1])) None (Some labels_ex) None None
       (Some false)).2 = Ok out
    /\ lm_loss out = Some (Finite r)
    /\ (0 <= r)%R.
Proof.
  assert (Hnum : loss_is_number
                   (Mamba2ForCausalLM_forward no_kernels causal_lm_ex None
                      (Some (ones [1; 2; 1])) None (Some labels_ex) None
                      None (Some false)).2 = true)
    by (vm_compute; reflexivity).
  destruct (Mamba2ForCausalLM_forward no_kernels causal_lm_ex None
              (Some (ones [1; 2; 1])) None (Some labels_ex) None None
              (Some false)).2 as [out|e] eqn:E; [|discriminate Hnum].
  pose proof (causal_lm_loss_returned no_kernels causal_lm_ex None
                (Some (ones [1; 2; 1])) None (Some labels_ex) None None
                (Some false) out E) as H.
  cbn [loss_is_number] in Hnum.
  destruct (lm_loss out) as [[r|]|] eqn:Hl; try discriminate Hnum.
  exists out, r. split; [reflexivity|]. split; [exact Hl|].
  exact (proj2 H).
Defined.
